(** * Trust-boundary protocol of the construction-management microservices

    A shallow embedding of the gateway (request correlation, edge
    authentication, header propagation, reverse proxy configuration), of the
    orders service's re-authentication and role gate, and of the users
    service's token check and profile / listing routes, followed by the
    properties the specification states about them; then the users
    service's registration, login and profile update, the statements the
    repositories build, and the project and defect routes of the orders
    service, with further properties of the code. *)

From Stdlib Require Import ZArith NArith Ascii String List Bool Lia.
From stdpp Require Import base tactics option list strings pretty gmap.

Set Warnings "-register-all".

Local Open Scope N_scope.

(** ** JavaScript strings and values *)

(** A JavaScript string is a sequence of UTF-16 code units. Header names and
    the texts of response envelopes are literals of the source and stay Rocq
    strings; everything that flows through the program is a [jsstring]. *)
Abbreviation jsstring := (list N).

Module JS.

(** A literal of the source as a sequence of code units. *)
Definition js (s : string) : jsstring :=
  List.map N_of_ascii (list_ascii_of_string s).

(** Truthiness of a string, and of a possibly undefined string
    ([None] is [undefined]). *)
Definition truthy (s : jsstring) : bool :=
  match s with [] => false | _ :: _ => true end.

Definition truthy_opt (o : option jsstring) : bool :=
  match o with Some s => truthy s | None => false end.

Definition eqb (s t : jsstring) : bool := bool_decide (s = t).

(** [s.startsWith(p)] *)
Fixpoint startsWith (s p : jsstring) {struct p} : bool :=
  match p, s with
  | [], _ => true
  | _ :: _, [] => false
  | c :: p', d :: s' => (c =? d) && startsWith s' p'
  end.

(** [s.split(sep)] for a separator of one code unit. *)
Fixpoint split (sep : N) (s : jsstring) : list jsstring :=
  match s with
  | [] => [[]]
  | c :: s' =>
      if c =? sep then [] :: split sep s'
      else match split sep s' with
           | h :: t => (c :: h) :: t
           | [] => [[c]]
           end
  end.

(** [s.includes(p)]: [p] occurs in [s] as a substring. *)
Fixpoint includes (s p : jsstring) : bool :=
  startsWith s p ||
  match s with
  | [] => false
  | _ :: s' => includes s' p
  end.

(** ASCII case folding, as a case-insensitive route pattern compares. *)
Definition lower (c : N) : N :=
  if (65 <=? c) && (c <=? 90) then c + 32 else c.

End JS.

(** ** JSON *)

Module JSON.

(** A JSON number is kept as the decimal [m * 10^e] its literal denotes;
    the program only ever asks whether its double is zero. *)
Inductive json : Type :=
| JNull
| JBool (b : bool)
| JNum (m e : Z)
| JStr (s : jsstring)
| JArr (l : list json)
| JObj (l : list (jsstring * json)).

(** The double nearest to [m * 10^e] is zero exactly when
    [|m| * 10^e <= 2^-1075]. *)
Definition num_is_zero (m e : Z) : bool :=
  ((m =? 0) ||
   ((e <? 0) && (Z.abs m * 2 ^ 1075 <=? 10 ^ (- e))))%Z.

Definition truthy_value (v : json) : bool :=
  match v with
  | JNull => false
  | JBool b => b
  | JNum m e => negb (num_is_zero m e)
  | JStr s => JS.truthy s
  | JArr _ | JObj _ => true
  end.

(** *** JSON.stringify on an array of strings *)

Definition hexdigit (d : N) : N := if d <? 10 then 48 + d else 87 + d.

(** [\uXXXX] with four lowercase hexadecimal digits. *)
Definition uescape (c : N) : list N :=
  [92; 117; hexdigit (c / 4096 mod 16); hexdigit (c / 256 mod 16);
   hexdigit (c / 16 mod 16); hexdigit (c mod 16)].

(** The two-character escapes of QuoteJSONString. *)
Definition short_escape (c : N) : option N :=
  if c =? 8 then Some 98          (* backspace, b *)
  else if c =? 9 then Some 116    (* tab, t *)
  else if c =? 10 then Some 110   (* line feed, n *)
  else if c =? 12 then Some 102   (* form feed, f *)
  else if c =? 13 then Some 114   (* carriage return, r *)
  else if c =? 34 then Some 34    (* double quote *)
  else if c =? 92 then Some 92    (* backslash *)
  else None.

Definition is_high (c : N) : bool := (55296 <=? c) && (c <=? 56319).
Definition is_low (c : N) : bool := (56320 <=? c) && (c <=? 57343).

(** The body of a quoted string: control characters and lone surrogates
    are escaped, a surrogate pair and every other code unit are copied. *)
Fixpoint quote_chars (s : jsstring) : list N :=
  match s with
  | [] => []
  | c :: rest =>
      match short_escape c with
      | Some e => 92 :: e :: quote_chars rest
      | None =>
          if c <? 32 then uescape c ++ quote_chars rest
          else if is_high c then
            match rest with
            | d :: rest' =>
                if is_low d then c :: d :: quote_chars rest'
                else uescape c ++ quote_chars rest
            | [] => uescape c
            end
          else if is_low c then uescape c ++ quote_chars rest
          else c :: quote_chars rest
      end
  end.

Definition quote (s : jsstring) : list N := 34 :: quote_chars s ++ [34].

Fixpoint join_quoted (l : list jsstring) : list N :=
  match l with
  | [] => []
  | [s] => quote s
  | s :: l' => quote s ++ 44 :: join_quoted l'
  end.

(** [JSON.stringify(a)] for an array [a] of strings. *)
Definition stringify_strings (l : list jsstring) : jsstring :=
  91 :: join_quoted l ++ [93].

(** *** JSON.parse *)

Definition is_ws (c : N) : bool :=
  (c =? 32) || (c =? 9) || (c =? 10) || (c =? 13).

Fixpoint skip_ws (cs : list N) : list N :=
  match cs with
  | c :: rest => if is_ws c then skip_ws rest else cs
  | [] => []
  end.

Definition hexval (h : N) : option N :=
  if (48 <=? h) && (h <=? 57) then Some (h - 48)
  else if (97 <=? h) && (h <=? 102) then Some (h - 87)
  else if (65 <=? h) && (h <=? 70) then Some (h - 55)
  else None.

Definition hex4 (h1 h2 h3 h4 : N) : option N :=
  match hexval h1, hexval h2, hexval h3, hexval h4 with
  | Some a, Some b, Some c, Some d => Some (((a * 16 + b) * 16 + c) * 16 + d)
  | _, _, _, _ => None
  end.

Definition unescape (e : N) : option N :=
  if e =? 34 then Some 34
  else if e =? 92 then Some 92
  else if e =? 47 then Some 47
  else if e =? 98 then Some 8
  else if e =? 102 then Some 12
  else if e =? 110 then Some 10
  else if e =? 114 then Some 13
  else if e =? 116 then Some 9
  else None.

(** The characters of a string literal after its opening quote, up to
    and including the closing quote. *)
Fixpoint parse_string (cs : list N) : option (jsstring * list N) :=
  match cs with
  | [] => None
  | c :: rest =>
      if c =? 34 then Some ([], rest)
      else if c =? 92 then
        match rest with
        | [] => None
        | e :: rest1 =>
            if e =? 117 then
              match rest1 with
              | h1 :: h2 :: h3 :: h4 :: rest2 =>
                  match hex4 h1 h2 h3 h4 with
                  | Some u =>
                      match parse_string rest2 with
                      | Some (s, r) => Some (u :: s, r)
                      | None => None
                      end
                  | None => None
                  end
              | _ => None
              end
            else
              match unescape e with
              | Some u =>
                  match parse_string rest1 with
                  | Some (s, r) => Some (u :: s, r)
                  | None => None
                  end
              | None => None
              end
        end
      else if c <? 32 then None
      else
        match parse_string rest with
        | Some (s, r) => Some (c :: s, r)
        | None => None
        end
  end.

Definition is_digit (c : N) : bool := (48 <=? c) && (c <=? 57).

Fixpoint take_digits (cs : list N) : list N * list N :=
  match cs with
  | c :: rest =>
      if is_digit c
      then let '(ds, r) := take_digits rest in (c :: ds, r)
      else ([], cs)
  | [] => ([], [])
  end.

Definition digits_value (ds : list N) : Z :=
  fold_left (fun a d => (10 * a + Z.of_N (d - 48))%Z) ds 0%Z.

(** The fraction (a dot and at least one digit), if there is one. *)
Definition parse_frac (cs : list N) : option (list N * list N) :=
  match cs with
  | c :: rest =>
      if c =? 46 then
        match take_digits rest with
        | ([], _) => None
        | (ds, r) => Some (ds, r)
        end
      else Some ([], cs)
  | [] => Some ([], cs)
  end.

(** The digits of an exponent, at least one, with the sign applied. *)
Definition parse_exp_digits (neg : bool) (cs : list N) : option (Z * list N) :=
  match take_digits cs with
  | ([], _) => None
  | (ds, r) => Some ((if neg then - digits_value ds else digits_value ds)%Z, r)
  end.

(** The exponent (e or E, an optional sign, at least one digit), if
    there is one. *)
Definition parse_exp (cs : list N) : option (Z * list N) :=
  match cs with
  | c :: rest =>
      if (c =? 101) || (c =? 69) then
        match rest with
        | s :: rest' =>
            if s =? 43 then parse_exp_digits false rest'
            else if s =? 45 then parse_exp_digits true rest'
            else parse_exp_digits false rest
        | [] => None
        end
      else Some (0%Z, cs)
  | [] => Some (0%Z, cs)
  end.

(** An optional minus sign, then a single zero or a run of digits that
    does not start with zero, then the optional fraction and exponent. A
    digit after a leading zero can never continue a JSON text, so it is
    refused here. *)
Definition parse_number (cs : list N) : option (json * list N) :=
  let '(neg, cs1) :=
    match cs with
    | c :: r => if c =? 45 then (true, r) else (false, cs)
    | [] => (false, cs)
    end in
  match take_digits cs1 with
  | ([], _) => None
  | (d :: ds, cs2) =>
      if (d =? 48) && negb (bool_decide (ds = [])) then None
      else
        match parse_frac cs2 with
        | None => None
        | Some (fs, cs3) =>
            match parse_exp cs3 with
            | None => None
            | Some (x, cs4) =>
                let m := digits_value ((d :: ds) ++ fs) in
                Some (JNum (if neg then - m else m)%Z
                           (x - Z.of_nat (length fs))%Z, cs4)
            end
        end
  end.

(** A property assignment: a repeated key keeps its place and takes the
    later value. *)
Fixpoint obj_set (k : jsstring) (v : json) (l : list (jsstring * json))
  : list (jsstring * json) :=
  match l with
  | [] => [(k, v)]
  | (k', v') :: l' =>
      if JS.eqb k k' then (k', v) :: l' else (k', v') :: obj_set k v l'
  end.

(** The text [cs] goes on with the characters [lit]: what follows them. *)
Fixpoint expect (lit cs : list N) {struct lit} : option (list N) :=
  match lit, cs with
  | [], _ => Some cs
  | _ :: _, [] => None
  | l :: lit', c :: cs' => if l =? c then expect lit' cs' else None
  end.

(** A literal name after its first letter. *)
Definition parse_literal (lit : list N) (v : json) (cs : list N)
  : option (json * list N) :=
  match expect lit cs with
  | Some rest => Some (v, rest)
  | None => None
  end.

(** Recursive descent; every call spends one unit of [fuel]. *)
Fixpoint parse_value (fuel : nat) (cs : list N) : option (json * list N) :=
  match fuel with
  | O => None
  | S f =>
      match skip_ws cs with
      | [] => None
      | c :: rest =>
          if c =? 34 then
            match parse_string rest with
            | Some (s, r) => Some (JStr s, r)
            | None => None
            end
          else if c =? 91 then
            match expect [93] (skip_ws rest) with
            | Some rest' => Some (JArr [], rest')
            | None =>
                match parse_elements f rest with
                | Some (l, r) => Some (JArr l, r)
                | None => None
                end
            end
          else if c =? 123 then
            match expect [125] (skip_ws rest) with
            | Some rest' => Some (JObj [], rest')
            | None =>
                match parse_members f rest [] with
                | Some (l, r) => Some (JObj l, r)
                | None => None
                end
            end
          else if c =? 110 then parse_literal [117; 108; 108] JNull rest
          else if c =? 116 then parse_literal [114; 117; 101] (JBool true) rest
          else if c =? 102 then
            parse_literal [97; 108; 115; 101] (JBool false) rest
          else parse_number (c :: rest)
      end
  end
with parse_elements (fuel : nat) (cs : list N)
  : option (list json * list N) :=
  match fuel with
  | O => None
  | S f =>
      match parse_value f cs with
      | None => None
      | Some (v, r) =>
          match skip_ws r with
          | [] => None
          | d :: r' =>
              if d =? 93 then Some ([v], r')
              else if d =? 44 then
                match parse_elements f r' with
                | Some (l, r'') => Some (v :: l, r'')
                | None => None
                end
              else None
          end
      end
  end
with parse_members (fuel : nat) (cs : list N) (acc : list (jsstring * json))
  : option (list (jsstring * json) * list N) :=
  match fuel with
  | O => None
  | S f =>
      match expect [34] (skip_ws cs) with
      | None => None
      | Some cs1 =>
          match parse_string cs1 with
          | None => None
          | Some (k, cs2) =>
              match expect [58] (skip_ws cs2) with
              | None => None
              | Some cs3 =>
                  match parse_value f cs3 with
                  | None => None
                  | Some (v, r) =>
                      match skip_ws r with
                      | [] => None
                      | d :: r' =>
                          if d =? 125 then Some (obj_set k v acc, r')
                          else if d =? 44
                          then parse_members f r' (obj_set k v acc)
                          else None
                      end
                  end
              end
          end
      end
  end.

(** [JSON.parse(text)]: [None] when it throws a SyntaxError. Each call of
    the descent consumes a character or is the one call made right after
    an opening bracket, so twice the length of the text is fuel enough
    ([parse_fuel_enough] below). *)
Definition parse (text : jsstring) : option json :=
  match parse_value (2 * length text + 2) text with
  | Some (v, rest) =>
      match skip_ws rest with
      | [] => Some v
      | _ :: _ => None
      end
  | None => None
  end.

(** A successful run of the descent consumes input, and any fuel of at
    least twice what it consumed repeats it. *)
Definition value_ok (f : nat) : Prop :=
  forall cs v rest,
    parse_value f cs = Some (v, rest) ->
    (length rest < length cs)%nat /\
    forall f', (2 * (length cs - length rest) <= f')%nat ->
               parse_value f' cs = Some (v, rest).

Definition elements_ok (f : nat) : Prop :=
  forall cs l rest,
    parse_elements f cs = Some (l, rest) ->
    (length rest + 2 <= length cs)%nat /\
    forall f', (2 * (length cs - length rest) <= f' + 1)%nat ->
               parse_elements f' cs = Some (l, rest).

Definition members_ok (f : nat) : Prop :=
  forall cs acc l rest,
    parse_members f cs acc = Some (l, rest) ->
    (length rest + 2 <= length cs)%nat /\
    forall f', (2 * (length cs - length rest) <= f' + 1)%nat ->
               parse_members f' cs acc = Some (l, rest).

End JSON.

(** ** Requests, responses and token verification *)

Module Http.
Import JS JSON.

(** The identity a middleware leaves in [req.user]. [roles] is whatever
    JavaScript value the checkpoint put there ([None] is [undefined]). *)
Record identity : Type := mkIdentity {
  id : jsstring;
  email : jsstring;
  roles : option json
}.

(** What the code reads of an inbound request: [req.path], [req.headers],
    [req.query] and the [req.user] set by a middleware. A header that is
    absent, or was assigned [undefined], reads as [None]. *)
Record request : Type := mkRequest {
  path : jsstring;
  headers : gmap string jsstring;
  query : gmap string jsstring;
  user : option identity
}.

Definition setUser (req : request) (u : identity) : request :=
  {| path := path req; headers := headers req; query := query req;
     user := Some u |}.

Definition setHeaders (req : request) (hs : gmap string jsstring) : request :=
  {| path := path req; headers := hs; query := query req;
     user := user req |}.

(** The two JSON envelopes: [{ success: true, data }] and
    [{ success: false, error: { code, message } }]. *)
Inductive envelope (D : Type) : Type :=
| Success (data : D)
| Failure (code message : string).
Arguments Success {D} data.
Arguments Failure {D} code message.

Record response (D : Type) : Type := Response {
  status : N;
  body : envelope D
}.
Arguments Response {D} status body.
Arguments status {D} r.
Arguments body {D} r.

(** [res.status(s).json({ success: false, error: { code, message } })] *)
Definition reject {D : Type} (s : N) (code message : string) : response D :=
  Response s (Failure code message).

(** A middleware calls [next()], sends a response, or throws. *)
Inductive outcome (D : Type) : Type :=
| Next (req : request)
| Respond (res : response D)
| Throw.
Arguments Next {D} req.
Arguments Respond {D} res.
Arguments Throw {D}.

(** The payload that [POST /login] signs into a token: [{ id, email, name,
    roles }]; [c_roles] is [None] for a token that carries no roles. A
    token that somebody else signed with the secret may hold any payload:
    the module [Payloads] below has the users listing for those. *)
Record claims : Type := mkClaims {
  c_id : jsstring;
  c_email : jsstring;
  c_name : jsstring;
  c_roles : option (list jsstring)
}.

Definition roles_value (rs : list jsstring) : json := JArr (List.map JStr rs).

(** The payload object seen through [id], [email] and [roles]. *)
Definition user_of_claims (c : claims) : identity :=
  {| id := c_id c; email := c_email c; roles := roles_value <$> c_roles c |}.

(** [jwt.verify(token, secret)] of the jsonwebtoken package, with the
    process-wide secret fixed: the decoded payload or one of the
    package's errors. It is a parameter of every middleware below. *)
Inductive jwt_error : Type :=
| TokenExpiredError
| JsonWebTokenError
| NotBeforeError.

Inductive verified : Type :=
| Verified (payload : claims)
| Rejected (err : jwt_error).

Abbreviation verifier := (jsstring -> verified).

(** [authHeader && authHeader.split(' ')[1]] *)
Definition bearerToken (hs : gmap string jsstring) : option jsstring :=
  match hs !! "authorization" with
  | Some authHeader =>
      if JS.truthy authHeader then JS.split 32 authHeader !! 1%nat
      else Some authHeader
  | None => None
  end.

(** The token a request presents: the one that passes [if (!token)]. *)
Definition presentedToken (hs : gmap string jsstring) : option jsstring :=
  match bearerToken hs with
  | Some token => if JS.truthy token then Some token else None
  | None => None
  end.

(** The status and the error code of the response a middleware sent, if
    it sent one. *)
Definition statusOf {D : Type} (o : outcome D) : option N :=
  match o with
  | Respond res => Some (status res)
  | _ => None
  end.

Definition errorCode {D : Type} (o : outcome D) : option string :=
  match o with
  | Respond res =>
      match body res with
      | Failure code _ => Some code
      | Success _ => None
      end
  | _ => None
  end.

End Http.

(** ** The gateway *)

Module Gateway.
Import JS JSON Http.

(** *** Correlation: the request-id middleware *)

(** [req.headers['x-request-id'] || rTracer.id() || crypto.randomUUID()],
    written to the request's headers and to the response's headers.
    [tracerId] is what [rTracer.id()] returns and [uuid] what
    [crypto.randomUUID()] would return. *)
Definition chooseRequestId (tracerId : option jsstring) (uuid : jsstring)
    (req : request) : jsstring :=
  match headers req !! "x-request-id" with
  | Some h =>
      if JS.truthy h then h
      else match tracerId with
           | Some t => if JS.truthy t then t else uuid
           | None => uuid
           end
  | None =>
      match tracerId with
      | Some t => if JS.truthy t then t else uuid
      | None => uuid
      end
  end.

Definition requestIdMiddleware (tracerId : option jsstring) (uuid : jsstring)
    (req : request) (resHeaders : gmap string jsstring)
  : request * gmap string jsstring :=
  let requestId := chooseRequestId tracerId uuid req in
  (setHeaders req (<["x-request-id" := requestId]> (headers req)),
   <["x-request-id" := requestId]> resHeaders).

(** *** Edge authentication (middleware/auth.js) *)

Definition publicRoutes : list jsstring :=
  [ js "/api/v1/users/register";
    js "/api/v1/users/login";
    js "/health";
    js "/";
    js "/api-docs";
    js "/api-docs/";
    js "/api-docs/swagger-ui.css";
    js "/api-docs/swagger-ui-bundle.js";
    js "/api-docs/swagger-ui-standalone-preset.js";
    js "/api-docs/favicon-32x32.png" ].

(** [publicRoutes.some(route => req.path === route ||
    req.path.startsWith(route))] *)
Definition isPublic (p : jsstring) : bool :=
  existsb (fun route => JS.eqb p route || startsWith p route) publicRoutes.

(** [req.headers[k] = v], where assigning [undefined] leaves a header
    that reads as absent. *)
Definition assign (k : string) (v : option jsstring)
    (hs : gmap string jsstring) : gmap string jsstring :=
  match v with
  | Some s => <[k := s]> hs
  | None => delete k hs
  end.

(** The three header assignments of the verification callback. *)
Definition inject (u : claims) (hs : gmap string jsstring)
  : gmap string jsstring :=
  assign "x-user-roles" (stringify_strings <$> c_roles u)
    (<["x-user-email" := c_email u]> (<["x-user-id" := c_id u]> hs)).

(** The callback [(err, user) => ...] handed to [jwt.verify]. *)
Definition verifyCallback {D : Type} (r : verified) (req : request)
  : outcome D :=
  match r with
  | Rejected _ =>
      Respond (reject 403 "INVALID_TOKEN" "Неверный или просроченный токен")
  | Verified u =>
      Next {| path := path req;
              headers := inject u (headers req);
              query := query req;
              user := Some (user_of_claims u) |}
  end.

Definition authenticateToken {D : Type} (verify : verifier) (req : request)
  : outcome D :=
  if isPublic (path req) then Next req
  else
    match bearerToken (headers req) with
    | Some token =>
        if JS.truthy token then verifyCallback (verify token) req
        else Respond (reject 401 "TOKEN_REQUIRED" "Требуется токен авторизации")
    | None => Respond (reject 401 "TOKEN_REQUIRED" "Требуется токен авторизации")
    end.

(** *** Reverse proxy configuration (middleware/proxy.js) *)

Inductive service : Type := UsersService | OrdersService.

(** The codes of the errors the proxy library reports for an upstream.
    [OtherError] stands for a code that the library answers with 500; the
    codes it answers otherwise (a time-out, and the codes of the HTTP
    parser) are left out. *)
Inductive upstream_error : Type :=
| ECONNREFUSED
| ECONNRESET
| ENOTFOUND
| OtherError.

(** What the proxy answers by itself on an upstream error: a status and
    a plain-text message that names the requested host and url (here the
    path, without the query). *)
Record proxy_failure : Type := ProxyFailure {
  pf_status : N;
  pf_host : option jsstring;
  pf_url : jsstring
}.

(** What the gateway sends back or does with a request. *)
Inductive disposition : Type :=
| Replied (res : response unit)
| Proxied (svc : service) (outgoing : gmap string jsstring)
| NotFound (requestId : option jsstring)
| InternalServerError (requestId : option jsstring).

(** The options object handed to [createProxyMiddleware]. The source sets
    [target], [pathRewrite], [changeOrigin] and [onProxyReq]; the options
    [onError], [timeout] and [proxyTimeout] of the library are not set. *)
Record proxy_options : Type := ProxyOptions {
  target : jsstring;
  pathRewrite : list (jsstring * jsstring);
  changeOrigin : bool;
  onProxyReq : gmap string jsstring -> request -> gmap string jsstring;
  onError : option (upstream_error -> request -> disposition);
  timeout : option N;
  proxyTimeout : option N
}.

(** [if (req.headers[k]) proxyReq.setHeader(k, req.headers[k])] *)
Definition copyHeader (k : string) (req : request)
    (proxyReq : gmap string jsstring) : gmap string jsstring :=
  match headers req !! k with
  | Some v => if JS.truthy v then <[k := v]> proxyReq else proxyReq
  | None => proxyReq
  end.

(** The four headers that [onProxyReq] sets. *)
Definition identityHeaders : list string :=
  ["x-user-id"; "x-user-email"; "x-user-roles"; "x-request-id"].

(** The [onProxyReq] function; both services are given the same text. *)
Definition forwardIdentity (proxyReq : gmap string jsstring) (req : request)
  : gmap string jsstring :=
  copyHeader "x-request-id" req
    (copyHeader "x-user-roles" req
      (copyHeader "x-user-email" req
        (copyHeader "x-user-id" req proxyReq))).

(** [process.env.NAME || fallback] *)
Definition envOr (env : gmap string jsstring) (name : string)
    (fallback : jsstring) : jsstring :=
  match env !! name with
  | Some v => if JS.truthy v then v else fallback
  | None => fallback
  end.

Definition services (env : gmap string jsstring) (svc : service)
  : proxy_options :=
  match svc with
  | UsersService =>
      {| target := envOr env "USERS_SERVICE_URL" (js "http://localhost:3001");
         pathRewrite := [(js "^/api/v1/users", js "/api/v1/users")];
         changeOrigin := true;
         onProxyReq := forwardIdentity;
         onError := None; timeout := None; proxyTimeout := None |}
  | OrdersService =>
      {| target := envOr env "ORDERS_SERVICE_URL" (js "http://localhost:3002");
         pathRewrite := [(js "^/api/v1/orders", js "/api/v1/orders")];
         changeOrigin := true;
         onProxyReq := forwardIdentity;
         onError := None; timeout := None; proxyTimeout := None |}
  end.

(** The authority of a target URL, as the proxy library takes it from the
    parsed target: what follows [://], up to the next slash, question mark
    or hash, without user information and in lower case. *)
Fixpoint afterScheme (s : jsstring) : jsstring :=
  match s with
  | [] => []
  | c :: s' =>
      if JS.startsWith s (js "://") then drop 2 s' else afterScheme s'
  end.

Fixpoint untilPath (s : jsstring) : jsstring :=
  match s with
  | [] => []
  | c :: s' =>
      if (c =? 47) || (c =? 63) || (c =? 35) then [] else c :: untilPath s'
  end.

Definition authority (url : jsstring) : jsstring :=
  List.map JS.lower
    (List.last (JS.split 64 (untilPath (afterScheme url))) []).

(** The headers of the hop from the gateway to a service, which the proxy
    library decides by itself. [host] is modelled below; [connection],
    [content-length] and [transfer-encoding] are not, and no property
    speaks about them. *)
Definition hopHeaders : list string :=
  ["host"; "connection"; "content-length"; "transfer-encoding"].

(** The proxy library (http-proxy-middleware, not part of the repository),
    as far as the properties below depend on it. The outgoing request
    starts with a copy of the inbound request's headers; with
    [changeOrigin] its [host] is set to the authority of the target. *)
Definition setupOutgoing (opts : proxy_options) (hs : gmap string jsstring)
  : gmap string jsstring :=
  if changeOrigin opts then <["host" := authority (target opts)]> hs else hs.

(** The headers of the outgoing request: what the library prepared, handed
    to [onProxyReq]. *)
Definition outgoingHeaders (opts : proxy_options) (req : request)
  : gmap string jsstring :=
  onProxyReq opts (setupOutgoing opts (headers req)) req.

(** The library's own handler for an upstream error, used when the options
    give none: it answers 504 for a refused or reset connection or an
    unknown host and 500 otherwise, with a plain-text body. *)
Definition defaultErrorHandler (e : upstream_error) (req : request)
  : proxy_failure :=
  {| pf_status := match e with
                  | ECONNREFUSED | ECONNRESET | ENOTFOUND => 504
                  | OtherError => 500
                  end;
     pf_host := headers req !! "host";
     pf_url := path req |}.

(** The answer to an upstream error: the configured handler's, or the
    library's. *)
Definition upstreamFailure (opts : proxy_options) (e : upstream_error)
    (req : request) : disposition + proxy_failure :=
  match onError opts with
  | Some handler => inl (handler e req)
  | None => inr (defaultErrorHandler e req)
  end.

(** The machine-readable error code of the answer to an upstream error,
    if it has one: a plain-text answer has none. *)
Definition failureCode (answer : disposition + proxy_failure) : option string :=
  match answer with
  | inl (Replied res) => errorCode (Respond res)
  | inl (NotFound _) => Some "NOT_FOUND"
  | inl (InternalServerError _) => Some "INTERNAL_SERVER_ERROR"
  | inl (Proxied _ _) => None
  | inr _ => None
  end.

(** *** The application chain from [app.use(authenticateToken)] on *)

(** [app.use(mount, ...)]: the path starts with [mount], compared without
    regard to ASCII case, and ends there or goes on with a slash. *)
Fixpoint mounted (mount p : jsstring) {struct mount} : bool :=
  match mount, p with
  | [], [] => true
  | [], c :: _ => c =? 47
  | _ :: _, [] => false
  | m :: mount', c :: p' => (lower m =? lower c) && mounted mount' p'
  end.

Definition dispatch (env : gmap string jsstring) (verify : verifier)
    (req : request) : disposition :=
  match authenticateToken verify req with
  | Respond res => Replied res
  | Throw => InternalServerError (headers req !! "x-request-id")
  | Next req' =>
      if mounted (js "/api/v1/users") (path req') then
        Proxied UsersService (outgoingHeaders (services env UsersService) req')
      else if mounted (js "/api/v1/orders") (path req') then
        Proxied OrdersService (outgoingHeaders (services env OrdersService) req')
      else NotFound (headers req' !! "x-request-id")
  end.

End Gateway.

(** ** The role gate (middleware/auth.js of the orders and users services) *)

Module Roles.
Import JS JSON Http.

(** [roles.includes(role)] on whatever value [roles] is: a search of an
    array for an element strictly equal to the string, a substring search
    of a string, and a TypeError ([None]) on a value without the method. *)
Definition includes (roles : json) (role : jsstring) : option bool :=
  match roles with
  | JArr l =>
      Some (existsb (fun v => match v with
                              | JStr s => JS.eqb s role
                              | _ => false
                              end) l)
  | JStr s => Some (JS.includes s role)
  | _ => None
  end.

(** [allowedRoles.some(role => roles.includes(role))] *)
Fixpoint some (allowedRoles : list jsstring) (roles : json) : option bool :=
  match allowedRoles with
  | [] => Some false
  | role :: rest =>
      match includes roles role with
      | None => None
      | Some true => Some true
      | Some false => some rest roles
      end
  end.

(** [authorizeRoles(...allowedRoles)], the same text in both services. *)
Definition authorizeRoles {D : Type} (allowedRoles : list jsstring)
    (req : request) : outcome D :=
  match user req with
  | None => Respond (reject 403 "FORBIDDEN" "Доступ запрещен")
  | Some u =>
      match roles u with
      | None => Respond (reject 403 "FORBIDDEN" "Доступ запрещен")
      | Some rs =>
          if negb (truthy_value rs)
          then Respond (reject 403 "FORBIDDEN" "Доступ запрещен")
          else
            match some allowedRoles rs with
            | None => Throw
            | Some true => Next req
            | Some false =>
                Respond (reject 403 "FORBIDDEN" "Недостаточно прав")
            end
      end
  end.

End Roles.

(** ** The orders service: re-authentication (middleware/auth.js) *)

Module Orders.
Import JS JSON Http.

(** [['engineer']] *)
Definition engineer : json := JArr [JStr (js "engineer")].

Definition defaultUser : identity :=
  {| id := js "a4841802-6006-42ec-9074-65fdf2138880";
     email := js "test@example.com";
     roles := Some engineer |}.

(** [req.headers['x-user-email'] || ''] *)
Definition emailOf (hs : gmap string jsstring) : jsstring :=
  match hs !! "x-user-email" with
  | Some e => if JS.truthy e then e else []
  | None => []
  end.

(** The object built inside the [try] of the headers path; [None] when
    [JSON.parse] throws and the [catch] lets the request fall through. *)
Definition userFromHeaders (hs : gmap string jsstring) (xUserId : jsstring)
  : option identity :=
  match hs !! "x-user-roles" with
  | Some r =>
      if JS.truthy r then
        match parse r with
        | Some v => Some {| id := xUserId; email := emailOf hs; roles := Some v |}
        | None => None
        end
      else Some {| id := xUserId; email := emailOf hs; roles := Some engineer |}
  | None => Some {| id := xUserId; email := emailOf hs; roles := Some engineer |}
  end.

(** [{ id: decoded.id, email: decoded.email,
       roles: decoded.roles || ['engineer'] }] *)
Definition userFromToken (decoded : claims) : identity :=
  {| id := c_id decoded;
     email := c_email decoded;
     roles := Some (match c_roles decoded with
                    | Some rs => roles_value rs
                    | None => engineer
                    end) |}.

(** Priority 2 and the final default. *)
Definition tokenOrDefault {D : Type} (verify : verifier) (req : request)
  : outcome D :=
  match bearerToken (headers req) with
  | Some token =>
      if JS.truthy token then
        match verify token with
        | Verified decoded => Next (setUser req (userFromToken decoded))
        | Rejected _ => Next (setUser req defaultUser)
        end
      else Next (setUser req defaultUser)
  | None => Next (setUser req defaultUser)
  end.

(** Priority 1: the identity from the gateway's headers, when the
    [x-user-id] header is truthy and the [try] block completes. *)
Definition headersPath (hs : gmap string jsstring) : option identity :=
  match hs !! "x-user-id" with
  | Some xUserId =>
      if JS.truthy xUserId then userFromHeaders hs xUserId else None
  | None => None
  end.

Definition authenticateToken {D : Type} (verify : verifier) (req : request)
  : outcome D :=
  match headersPath (headers req) with
  | Some u => Next (setUser req u)
  | None => tokenOrDefault verify req
  end.

End Orders.

(** ** The users service *)

Module Users.
Import JS JSON Http.

(** *** Token check (middleware/auth.js) *)

Definition authenticateToken {D : Type} (verify : verifier) (req : request)
  : outcome D :=
  match bearerToken (headers req) with
  | Some token =>
      if JS.truthy token then
        match verify token with
        | Rejected _ =>
            Respond (reject 403 "INVALID_TOKEN" "Неверный или просроченный токен")
        | Verified u => Next (setUser req (user_of_claims u))
        end
      else Respond (reject 401 "TOKEN_REQUIRED" "Требуется токен авторизации")
  | None => Respond (reject 401 "TOKEN_REQUIRED" "Требуется токен авторизации")
  end.

(** *** Registration (routes/auth.js) *)



(** An element of the in-memory [users] array. *)
Record stored_user : Type := StoredUser {
  u_id : jsstring;
  u_email : jsstring;
  u_passwordHash : jsstring;
  u_name : jsstring;
  u_roles : list jsstring;
  u_createdAt : jsstring;
  u_updatedAt : jsstring
}.

(** [newUser] of [POST /register], for the validated fields and the
    values the handler draws: the password hash, a fresh id and the time. *)
Definition newUser (freshId now hashedPassword uEmail uName role : jsstring)
  : stored_user :=
  {| u_id := freshId; u_email := uEmail; u_passwordHash := hashedPassword;
     u_name := uName; u_roles := [role];
     u_createdAt := now; u_updatedAt := now |}.

(** [tokenPayload] of [POST /login]. *)
Definition tokenPayload (u : stored_user) : claims :=
  {| c_id := u_id u; c_email := u_email u; c_name := u_name u;
     c_roles := Some (u_roles u) |}.

(** *** Profile and listing (routes/users.js) *)

(** [const { passwordHash, ...userWithoutPassword } = user] *)
Record public_user : Type := PublicUser {
  p_id : jsstring;
  p_email : jsstring;
  p_name : jsstring;
  p_roles : list jsstring;
  p_createdAt : jsstring;
  p_updatedAt : jsstring
}.

Definition withoutPassword (u : stored_user) : public_user :=
  {| p_id := u_id u; p_email := u_email u; p_name := u_name u;
     p_roles := u_roles u;
     p_createdAt := u_createdAt u; p_updatedAt := u_updatedAt u |}.

(** A number of the listing handler: an integer, or [None] for a value
    that [res.json] writes as [null] (NaN or an infinity). The integers
    are exact, which a double is below 2^53; beyond, JavaScript rounds or
    gives Infinity where these numbers go on exactly, so a property that
    depends on the values bounds them. *)
Abbreviation number := (option Z).

Record pagination : Type := Pagination {
  pg_page : number;
  pg_limit : number;
  pg_total : nat;
  pg_totalPages : number
}.

(** The [data] of the two success envelopes. *)
Inductive users_data : Type :=
| Profile (u : public_user)
| Listing (users : list public_user) (pg : pagination).

(** White space that [parseInt] skips. *)
Definition is_space (c : N) : bool :=
  existsb (N.eqb c)
    [9; 10; 11; 12; 13; 32; 160; 5760; 8232; 8233; 8239; 8287; 12288; 65279]
  || ((8192 <=? c) && (c <=? 8202)).

Fixpoint trim_start (s : jsstring) : jsstring :=
  match s with
  | c :: rest => if is_space c then trim_start rest else s
  | [] => []
  end.

Definition digit_of (radix : N) (c : N) : option N :=
  let d :=
    if (48 <=? c) && (c <=? 57) then Some (c - 48)
    else if (97 <=? c) && (c <=? 122) then Some (c - 87)
    else if (65 <=? c) && (c <=? 90) then Some (c - 55)
    else None in
  match d with
  | Some v => if v <? radix then Some v else None
  | None => None
  end.

(** The value of the longest prefix of digits, [None] when it is empty. *)
Fixpoint leading_digits (radix : N) (s : jsstring) (acc : option Z)
  : option Z :=
  match s with
  | c :: rest =>
      match digit_of radix c with
      | Some d =>
          leading_digits radix rest
            (Some (Z.of_N radix * default 0%Z acc + Z.of_N d)%Z)
      | None => acc
      end
  | [] => acc
  end.

(** [parseInt(s)] without a radix argument. *)
Definition parseInt (s : jsstring) : number :=
  let s1 := trim_start s in
  let '(neg, s2) :=
    match s1 with
    | 45 :: r => (true, r)
    | 43 :: r => (false, r)
    | _ => (false, s1)
    end in
  let '(radix, s3) :=
    match s2 with
    | 48 :: x :: r => if (x =? 120) || (x =? 88) then (16, r) else (10, s2)
    | _ => (10, s2)
    end in
  match leading_digits radix s3 None with
  | Some v => Some (if neg then - v else v)%Z
  | None => None
  end.

(** [a.slice(start, end)], a NaN bound counting as 0. *)
Definition slice {A : Type} (a : list A) (startIndex endIndex : number)
  : list A :=
  let len := Z.of_nat (length a) in
  let clamp (i : number) : Z :=
    match i with
    | None => 0
    | Some z => if (z <? 0)%Z then Z.max (len + z) 0 else Z.min z len
    end%Z in
  let k := clamp startIndex in
  let final := clamp endIndex in
  take (Z.to_nat (final - k)) (drop (Z.to_nat k) a).

(** [Math.ceil(total / limitNum)] *)
Definition ceilDiv (total : nat) (limitNum : number) : number :=
  match limitNum with
  | None => None
  | Some l =>
      if (l =? 0)%Z then None
      else Some (- ((- Z.of_nat total) / l))%Z
  end.

Definition mul (a b : number) : number :=
  match a, b with
  | Some x, Some y => Some (x * y)%Z
  | _, _ => None
  end.

Definition pred (a : number) : number :=
  match a with Some x => Some (x - 1)%Z | None => None end.

(** The handler of [GET /profile], after [authenticateToken]. *)
Definition profileHandler (users : list stored_user) (req : request)
  : outcome users_data :=
  match user req with
  | None => Throw
  | Some me =>
      match List.find (fun u => JS.eqb (u_id u) (id me)) users with
      | None => Respond (reject 404 "USER_NOT_FOUND" "Пользователь не найден")
      | Some u => Respond (Response 200 (Success (Profile (withoutPassword u))))
      end
  end.

(** The handler of [GET /], after [authenticateToken] and
    [authorizeRoles('admin')]. *)
Definition listHandler (users : list stored_user) (req : request)
  : outcome users_data :=
  let pageNum :=
    match query req !! "page" with Some p => parseInt p | None => Some 1%Z end in
  let limitNum :=
    match query req !! "limit" with Some l => parseInt l | None => Some 10%Z end in
  let filteredUsers :=
    match query req !! "role" with
    | Some role =>
        if JS.truthy role
        then List.filter (fun u => existsb (fun r => JS.eqb r role) (u_roles u)) users
        else users
    | None => users
    end in
  let startIndex := mul (pred pageNum) limitNum in
  let endIndex := mul pageNum limitNum in
  let paginatedUsers := slice filteredUsers startIndex endIndex in
  let usersWithoutPasswords := List.map withoutPassword paginatedUsers in
  Respond (Response 200 (Success (Listing usersWithoutPasswords
    {| pg_page := pageNum; pg_limit := limitNum;
       pg_total := length filteredUsers;
       pg_totalPages := ceilDiv (length filteredUsers) limitNum |}))).

(** A route: its middlewares in order, then its handler. *)
Definition andThen {D : Type} (m : outcome D) (k : request -> outcome D)
  : outcome D :=
  match m with
  | Next req => k req
  | Respond res => Respond res
  | Throw => Throw
  end.

Definition getProfile (verify : verifier) (users : list stored_user)
    (req : request) : outcome users_data :=
  andThen (authenticateToken verify req) (profileHandler users).

Definition getUsers (verify : verifier) (users : list stored_user)
    (req : request) : outcome users_data :=
  andThen (authenticateToken verify req) (fun req1 =>
  andThen (Roles.authorizeRoles [js "admin"] req1) (listHandler users)).

(** *** The repository (db/queries.js) *)

(** A row of the [users] table. *)
Record row : Type := Row {
  r_id : jsstring;
  r_email : jsstring;
  r_password_hash : jsstring;
  r_name : jsstring;
  r_roles : list jsstring;
  r_created_at : jsstring;
  r_updated_at : jsstring
}.

(** What [SELECT id, email, name, roles, created_at, updated_at] keeps. *)
Record selected : Type := Selected {
  s_id : jsstring;
  s_email : jsstring;
  s_name : jsstring;
  s_roles : list jsstring;
  s_created_at : jsstring;
  s_updated_at : jsstring
}.

Definition select (r : row) : selected :=
  {| s_id := r_id r; s_email := r_email r; s_name := r_name r;
     s_roles := r_roles r;
     s_created_at := r_created_at r; s_updated_at := r_updated_at r |}.

(** [UserRepository.findById]: the first row with the id, projected. *)
Definition findById (table : list row) (uid : jsstring) : option selected :=
  select <$> List.find (fun r => JS.eqb (r_id r) uid) table.

End Users.

(** ** The specification's statements, in its own words *)

Module Spec.
Import JS JSON Http.

(** Two role sets intersect. *)
Definition intersects (claimRoles requiredRoles : list jsstring) : bool :=
  existsb (fun r => existsb (JS.eqb r) claimRoles) requiredRoles.

(** The role gate as the specification words it: the required set is
    empty, or the two sets intersect. *)
Definition allowed (claimRoles requiredRoles : list jsstring) : bool :=
  match requiredRoles with
  | [] => true
  | _ :: _ => intersects claimRoles requiredRoles
  end.

(** A role set is non-empty: an array with at least one element. *)
Definition nonEmptyRoles (rs : option json) : bool :=
  match rs with
  | Some (JArr (_ :: _)) => true
  | _ => false
  end.

(** Two stored users differ at most in the password hash. *)
Definition sameButHash (u v : Users.stored_user) : Prop :=
  Users.u_id u = Users.u_id v /\ Users.u_email u = Users.u_email v /\
  Users.u_name u = Users.u_name v /\ Users.u_roles u = Users.u_roles v /\
  Users.u_createdAt u = Users.u_createdAt v /\
  Users.u_updatedAt u = Users.u_updatedAt v.

(** Two rows differ at most in the password hash. *)
Definition sameRowButHash (r s : Users.row) : Prop :=
  Users.r_id r = Users.r_id s /\ Users.r_email r = Users.r_email s /\
  Users.r_name r = Users.r_name s /\ Users.r_roles r = Users.r_roles s /\
  Users.r_created_at r = Users.r_created_at s /\
  Users.r_updated_at r = Users.r_updated_at s.

End Spec.

(** ** The users service: registration, login and profile update *)

Module Accounts.
Import JS JSON Http Users.

(** The outcome of a Joi [schema.validate(req.body)]: the message of the
    first error, or the validated value. Validation itself is the Joi
    package's and is a parameter of the handlers. *)
Inductive validation (A : Type) : Type :=
| Invalid (message : string)
| Valid (value : A).
Arguments Invalid {A} message.
Arguments Valid {A} value.

(** The value of [registerSchema]: [{ email, password, name, role }], the
    role already defaulted. *)
Record registration : Type := Registration {
  g_email : jsstring;
  g_password : jsstring;
  g_name : jsstring;
  g_role : jsstring
}.

(** The value of [loginSchema]: [{ email, password }]. *)
Record credentials : Type := Credentials {
  l_email : jsstring;
  l_password : jsstring
}.

(** The [data] of the success envelopes of [POST /register] and
    [POST /login]. *)
Inductive auth_data : Type :=
| Registered (uid uEmail uName role : jsstring)
| LoggedIn (token uid uEmail uName : jsstring) (uRoles : list jsstring).

(** [users.find(u => u.email === email)] *)
Definition findByEmail (users : list stored_user) (uEmail : jsstring)
  : option stored_user :=
  List.find (fun u => JS.eqb (u_email u) uEmail) users.

(** The handler of [POST /register] runs in two steps, with
    [await bcrypt.hash(password, 10)] between them. The first step, up to
    the [await], validates the body and searches the address in the
    [users] array as it is then: it ends the request with a response, or
    goes on with the validated value. *)
Definition registerCheck (v : validation registration)
    (users : list stored_user) : response auth_data + registration :=
  match v with
  | Invalid message => inl (reject 400 "VALIDATION_ERROR" message)
  | Valid value =>
      match findByEmail users (g_email value) with
      | Some _ =>
          inl (reject 409 "USER_EXISTS"
                 "Пользователь с таким email уже существует")
      | None => inr value
      end
  end.

(** The second step, after the [await]: [users.push(newUser)] on the
    array as it is by then, and the response. [hashedPassword] is what
    [bcrypt.hash] gave, [freshId] what [uuidv4()] gave, and [createdAt],
    [updatedAt] what the two calls of [new Date().toISOString()] gave. *)
Definition registerPush (value : registration)
    (hashedPassword freshId createdAt updatedAt : jsstring)
    (users : list stored_user)
  : list stored_user * response auth_data :=
  let newUser :=
    {| u_id := freshId;
       u_email := g_email value;
       u_passwordHash := hashedPassword;
       u_name := g_name value;
       u_roles := [g_role value];
       u_createdAt := createdAt;
       u_updatedAt := updatedAt |} in
  (users ++ [newUser],
   Response 201
     (Success (Registered (u_id newUser) (u_email newUser)
                 (u_name newUser) (g_role value)))).

(** A run of the handler: the check on [users], the array when the
    request arrives, and the push on [later], the array when the hash is
    there, after what other requests did to it during the [await]. The
    result is the array after the handler's last step and the response. *)
Definition registerAcross (v : validation registration)
    (hashedPassword freshId createdAt updatedAt : jsstring)
    (users later : list stored_user)
  : list stored_user * response auth_data :=
  match registerCheck v users with
  | inl res => (users, res)
  | inr value =>
      registerPush value hashedPassword freshId createdAt updatedAt later
  end.

(** A run during whose [await] no other request changes the array. *)
Definition register (v : validation registration)
    (hashedPassword freshId createdAt updatedAt : jsstring)
    (users : list stored_user)
  : list stored_user * response auth_data :=
  registerAcross v hashedPassword freshId createdAt updatedAt users users.

(** The handler of [POST /login]. [compare] is [bcrypt.compare] and [sign]
    is [jwt.sign] with the process-wide secret and expiry. *)
Definition login (v : validation credentials)
    (compare : jsstring -> jsstring -> bool) (sign : claims -> jsstring)
    (users : list stored_user) : response auth_data :=
  match v with
  | Invalid message => reject 400 "VALIDATION_ERROR" message
  | Valid value =>
      match findByEmail users (l_email value) with
      | None => reject 401 "INVALID_CREDENTIALS" "Неверный email или пароль"
      | Some u =>
          if compare (l_password value) (u_passwordHash u) then
            Response 200
              (Success (LoggedIn (sign (tokenPayload u)) (u_id u) (u_email u)
                          (u_name u) (u_roles u)))
          else reject 401 "INVALID_CREDENTIALS" "Неверный email или пароль"
      end
  end.

(** [a.findIndex(f)], [None] for -1. *)
Fixpoint findIndex {A : Type} (f : A -> bool) (a : list A) : option nat :=
  match a with
  | [] => None
  | x :: a' => if f x then Some O else S <$> findIndex f a'
  end.

(** [users[i].name = name; users[i].updatedAt = now] *)
Definition rename (name now : jsstring) (u : stored_user) : stored_user :=
  {| u_id := u_id u; u_email := u_email u;
     u_passwordHash := u_passwordHash u;
     u_name := name; u_roles := u_roles u;
     u_createdAt := u_createdAt u; u_updatedAt := now |}.

(** The handler of [PUT /profile], after [authenticateToken]. [name] is
    [req.body.name], for a body whose name is a string or is absent, and
    [now] is what [new Date().toISOString()] would give. The result is the
    [users] array after the call and the outcome. Without [req.user] the
    callback of [findIndex] throws on the first element it is given. *)
Definition updateProfileHandler (name : option jsstring) (now : jsstring)
    (users : list stored_user) (req : request)
  : list stored_user * outcome users_data :=
  match user req with
  | None =>
      match users with
      | [] => (users, Respond (reject 404 "USER_NOT_FOUND" "Пользователь не найден"))
      | _ :: _ => (users, Throw)
      end
  | Some me =>
      match findIndex (fun u => JS.eqb (u_id u) (id me)) users with
      | None =>
          (users, Respond (reject 404 "USER_NOT_FOUND" "Пользователь не найден"))
      | Some userIndex =>
          let users' :=
            match name with
            | Some n =>
                if JS.truthy n then alter (rename n now) userIndex users
                else users
            | None => users
            end in
          match users' !! userIndex with
          | Some u =>
              (users', Respond (Response 200 (Success (Profile (withoutPassword u)))))
          | None => (users', Throw)
          end
      end
  end.

(** The route [PUT /profile]: [authenticateToken], then the handler. *)
Definition putProfile (verify : verifier) (name : option jsstring)
    (now : jsstring) (users : list stored_user) (req : request)
  : list stored_user * outcome users_data :=
  match authenticateToken verify req with
  | Next req1 => updateProfileHandler name now users req1
  | Respond res => (users, Respond res)
  | Throw => (users, Throw)
  end.

(** The page and the limit of a listing request, as [GET /] computes
    them: [parseInt] of the query parameter, 1 and 10 when it is absent. *)
Definition pageNum (req : request) : number :=
  match query req !! "page" with Some p => parseInt p | None => Some 1%Z end.

Definition limitNum (req : request) : number :=
  match query req !! "limit" with Some l => parseInt l | None => Some 10%Z end.

(** The users a listing request selects, before pagination. *)
Definition filteredUsers (users : list stored_user) (req : request)
  : list stored_user :=
  match query req !! "role" with
  | Some role =>
      if JS.truthy role
      then List.filter (fun u => existsb (fun r => JS.eqb r role) (u_roles u)) users
      else users
  | None => users
  end.

End Accounts.

(** ** The users service's listing for a token of any payload *)

Module Payloads.
Import JS JSON Http Users.

(** What [jwt.verify] hands to the callback of [authenticateToken]: an
    error, or the payload that was signed, whatever it is; the middleware
    assigns it to [req.user] as it is. Of [req.user] the listing route
    reads [roles] only, which is any JSON value or is absent ([None]); a
    payload that is not an object reads as one without roles. *)
Inductive decoded : Type :=
| Decoded (payload : identity)
| Refused (err : jwt_error).

(** [authenticateToken] of the users service (middleware/auth.js). *)
Definition authenticateToken {D : Type} (verify : jsstring -> decoded)
    (req : request) : outcome D :=
  match bearerToken (headers req) with
  | Some token =>
      if JS.truthy token then
        match verify token with
        | Refused _ =>
            Respond (reject 403 "INVALID_TOKEN" "Неверный или просроченный токен")
        | Decoded payload => Next (setUser req payload)
        end
      else Respond (reject 401 "TOKEN_REQUIRED" "Требуется токен авторизации")
  | None => Respond (reject 401 "TOKEN_REQUIRED" "Требуется токен авторизации")
  end.

(** The route [GET /]: [authenticateToken], [authorizeRoles('admin')],
    then the handler. *)
Definition getUsers (verify : jsstring -> decoded) (users : list stored_user)
    (req : request) : outcome users_data :=
  andThen (authenticateToken verify req) (fun req1 =>
  andThen (Roles.authorizeRoles [js "admin"] req1) (listHandler users)).

(** A verifier whose payloads are the ones [POST /login] signs. *)
Definition typed (verify : verifier) : jsstring -> decoded :=
  fun token =>
    match verify token with
    | Verified c => Decoded (user_of_claims c)
    | Rejected e => Refused e
    end.

End Payloads.

(** ** The orders service: the statements of the repositories (db/queries.js) *)

Module Sql.
Import JS Users.

(** A value given to [pool.query] beside the text of a listing
    statement: a string or a number. *)
Inductive sqlvalue : Type :=
| Text (s : jsstring)
| Num (n : number).

(** [pool.query(text, values)]. The white space of a template literal is
    written as single spaces. *)
Record query (V : Type) : Type := Query {
  text : string;
  values : list V
}.
Arguments Query {V} text values.
Arguments text {V} q.
Arguments values {V} q.

(** The parameters a statement text refers to, in the order of the text:
    each dollar sign followed by digits, as PostgreSQL reads it. The
    state is [None] outside a reference, [Some None] after the dollar sign
    and [Some (Some n)] after the digits of [n]. *)
Definition digit (c : ascii) : option nat :=
  let n := nat_of_ascii c in
  if ((48 <=? n) && (n <=? 57))%nat then Some (n - 48)%nat else None.

Fixpoint placeholders_from (s : string) (st : option (option nat))
  : list nat :=
  let emitted := match st with Some (Some n) => [n] | _ => [] end in
  match s with
  | EmptyString => emitted
  | String c rest =>
      match digit c, st with
      | Some d, Some n =>
          placeholders_from rest (Some (Some (10 * default O n + d)%nat))
      | Some _, None => placeholders_from rest None
      | None, _ =>
          emitted ++
          placeholders_from rest
            (if Ascii.eqb c "$" then Some None else None)
      end
  end.

Definition placeholders (s : string) : list nat := placeholders_from s None.

(** [SELECT COUNT] with the star in brackets, [as total]. *)
Definition selectCount : string :=
  "SELECT COUNT(" +:+ String "*" ") as total".

(** [status] or [severity] of the options, as [if (status)] reads it. *)
Definition given (o : option jsstring) : option jsstring :=
  match o with
  | Some s => if JS.truthy s then Some s else None
  | None => None
  end.

(** [ProjectRepository.findByUserId(userId, { page, limit, status })]: the
    count statement and the rows statement given to [pool.query]. The
    route passes [page] and [limit] as numbers. *)
Definition findByUserId (userId : jsstring) (page limit : number)
    (status : option jsstring) : query sqlvalue * query sqlvalue :=
  let offset := mul (pred page) limit in
  let whereClause := "WHERE user_id = $1" in
  let params := [Text userId] in
  let '(whereClause, params) :=
    match given status with
    | Some s => (whereClause +:+ " AND status = $2", params ++ [Text s])
    | None => (whereClause, params)
    end in
  let countQuery := selectCount +:+ " FROM projects " +:+ whereClause in
  let projectsQuery :=
    "SELECT * FROM projects " +:+ whereClause +:+
    " ORDER BY created_at DESC LIMIT $" +:+ pretty (length params + 1)%nat +:+
    " OFFSET $" +:+ pretty (length params + 2)%nat in
  let params := params ++ [Num limit; Num offset] in
  (Query countQuery
     (take (match given status with Some _ => 2 | None => 1 end) params),
   Query projectsQuery params).

(** [DefectRepository.findByProjectId(projectId, { page, limit, status,
    severity })]. *)
Definition findByProjectId (projectId : jsstring) (page limit : number)
    (status severity : option jsstring) : query sqlvalue * query sqlvalue :=
  let offset := mul (pred page) limit in
  let whereClause := "WHERE project_id = $1" in
  let params := [Text projectId] in
  let paramCount := 2%nat in
  let '(whereClause, params, paramCount) :=
    match given status with
    | Some s =>
        (whereClause +:+ " AND status = $" +:+ pretty paramCount,
         params ++ [Text s], S paramCount)
    | None => (whereClause, params, paramCount)
    end in
  let '(whereClause, params, paramCount) :=
    match given severity with
    | Some s =>
        (whereClause +:+ " AND severity = $" +:+ pretty paramCount,
         params ++ [Text s], S paramCount)
    | None => (whereClause, params, paramCount)
    end in
  let countQuery := selectCount +:+ " FROM defects " +:+ whereClause in
  let defectsQuery :=
    "SELECT * FROM defects " +:+ whereClause +:+
    " ORDER BY created_at DESC LIMIT $" +:+ pretty paramCount +:+
    " OFFSET $" +:+ pretty (paramCount + 1)%nat in
  let params := params ++ [Num limit; Num offset] in
  (Query countQuery (take (paramCount - 2) params),
   Query defectsQuery params).

(** What [update] does: the [findById] it falls back on, or a statement. *)
Inductive statement (V : Type) : Type :=
| FindById (id : V)
| Statement (q : query V).
Arguments FindById {V} id.
Arguments Statement {V} q.

(** [if (x !== undefined) { fields.push(`column = $${paramCount++}`);
    values.push(x); }] *)
Definition set {V : Type} (column : string) (x : option V)
    (acc : list string * list V * nat) : list string * list V * nat :=
  let '(fields, values, paramCount) := acc in
  match x with
  | Some v =>
      (fields ++ [column +:+ " = $" +:+ pretty paramCount], values ++ [v],
       S paramCount)
  | None => acc
  end.

(** The [updates] of a project: [None] is [undefined]. *)
Record project_updates (V : Type) : Type := ProjectUpdates {
  pu_title : option V;
  pu_description : option V;
  pu_address : option V;
  pu_status : option V;
  pu_startDate : option V;
  pu_endDate : option V;
  pu_budget : option V
}.
Arguments ProjectUpdates {V}.
Arguments pu_title {V} p.
Arguments pu_description {V} p.
Arguments pu_address {V} p.
Arguments pu_status {V} p.
Arguments pu_startDate {V} p.
Arguments pu_endDate {V} p.
Arguments pu_budget {V} p.

(** [ProjectRepository.update(id, updates)] *)
Definition updateProject {V : Type} (id : V) (updates : project_updates V)
  : statement V :=
  let acc := ([], [], 1%nat) in
  let acc := set "title" (pu_title updates) acc in
  let acc := set "description" (pu_description updates) acc in
  let acc := set "address" (pu_address updates) acc in
  let acc := set "status" (pu_status updates) acc in
  let acc := set "start_date" (pu_startDate updates) acc in
  let acc := set "end_date" (pu_endDate updates) acc in
  let acc := set "budget" (pu_budget updates) acc in
  let '(fields, values, paramCount) := acc in
  if (length fields =? 0)%nat then FindById id
  else
    Statement (Query
      ("UPDATE projects SET " +:+ String.concat ", " fields +:+
       " WHERE id = $" +:+ pretty paramCount +:+ " RETURNING *")
      (values ++ [id])).

(** The [updates] of a defect. *)
Record defect_updates (V : Type) : Type := DefectUpdates {
  du_title : option V;
  du_description : option V;
  du_severity : option V;
  du_status : option V;
  du_assigneeId : option V;
  du_location : option V
}.
Arguments DefectUpdates {V}.
Arguments du_title {V} d.
Arguments du_description {V} d.
Arguments du_severity {V} d.
Arguments du_status {V} d.
Arguments du_assigneeId {V} d.
Arguments du_location {V} d.

(** [DefectRepository.update(id, updates)] *)
Definition updateDefect {V : Type} (id : V) (updates : defect_updates V)
  : statement V :=
  let acc := ([], [], 1%nat) in
  let acc := set "title" (du_title updates) acc in
  let acc := set "description" (du_description updates) acc in
  let acc := set "severity" (du_severity updates) acc in
  let acc := set "status" (du_status updates) acc in
  let acc := set "assignee_id" (du_assigneeId updates) acc in
  let acc := set "location" (du_location updates) acc in
  let '(fields, values, paramCount) := acc in
  if (length fields =? 0)%nat then FindById id
  else
    Statement (Query
      ("UPDATE defects SET " +:+ String.concat ", " fields +:+
       " WHERE id = $" +:+ pretty paramCount +:+ " RETURNING *")
      (values ++ [id])).

(** The statement [update] is expected to build from the columns that are
    defined, each with its value: the [k]-th assignment names the
    parameter [k], and the id is the last parameter. *)
Definition numbered {V : Type} (table : string) (defined : list (string * V))
    (id : V) : statement V :=
  match defined with
  | [] => FindById id
  | _ =>
      Statement (Query
        ("UPDATE " +:+ table +:+ " SET " +:+
         String.concat ", "
           (imap (fun k column => column +:+ " = $" +:+ pretty (S k))
              (defined.*1)) +:+
         " WHERE id = $" +:+ pretty (S (length defined)) +:+ " RETURNING *")
        (defined.*2 ++ [id]))
  end.

(** A column with its value, when the value is defined. *)
Definition column {V : Type} (name : string) (x : option V)
  : option (string * V) :=
  (fun v => (name, v)) <$> x.

End Sql.

(** ** The orders service: the project and defect routes *)

Module Routes.
Import JS JSON Http.

(** A row that [pool.query] returned: its columns by name. *)
Abbreviation row := (gmap string json).

(** What awaiting a call of a repository gives: its result, or an
    exception. *)
Inductive answer (A : Type) : Type :=
| Fulfilled (result : A)
| Failed.
Arguments Fulfilled {A} result.
Arguments Failed {A}.

(** The repositories, as the routes call them. [findById] of a project
    is also called with the [project_id] column of a defect, whatever
    value that is ([None] is [undefined]); a result [None] is
    [rows[0]] of no rows. The values of an update are of a type [V]. *)
Record repositories (V : Type) : Type := Repositories {
  findProject : option json -> answer (option row);
  updateProject : jsstring -> Sql.project_updates V -> answer (option row);
  deleteProject : jsstring -> answer (option row);
  findDefect : jsstring -> answer (option row);
  updateDefect : jsstring -> Sql.defect_updates V -> answer (option row);
  deleteDefect : jsstring -> answer (option row)
}.
Arguments findProject {V} r.
Arguments updateProject {V} r.
Arguments deleteProject {V} r.
Arguments findDefect {V} r.
Arguments updateDefect {V} r.
Arguments deleteDefect {V} r.

(** The calls that change the database. *)
Inductive write (V : Type) : Type :=
| UpdateProject (key : jsstring) (value : Sql.project_updates V)
| DeleteProject (key : jsstring)
| UpdateDefect (key : jsstring) (value : Sql.defect_updates V)
| DeleteDefect (key : jsstring).
Arguments UpdateProject {V} key value.
Arguments DeleteProject {V} key.
Arguments UpdateDefect {V} key value.
Arguments DeleteDefect {V} key.

(** The [data] of the success envelopes: a row ([None] when [rows[0]] was
    undefined) or [{ message }]. *)
Inductive data : Type :=
| Row (r : option row)
| Message (m : string).

(** [column === req.user.id] *)
Definition same (column : option json) (s : jsstring) : bool :=
  match column with
  | Some (JStr x) => JS.eqb x s
  | _ => false
  end.

(** [a || b] of two tests that can throw ([None]). *)
Definition orElse (a b : option bool) : option bool :=
  match a with
  | Some false => b
  | _ => a
  end.

(** [row.column === req.user.id]; a TypeError without [req.user]. *)
Definition owns (r : row) (column : string) (me : option identity)
  : option bool :=
  match me with
  | Some u => Some (same (r !! column) (id u))
  | None => None
  end.

(** [req.user.roles.includes(role)] *)
Definition hasRole (me : option identity) (role : string) : option bool :=
  match me with
  | Some u =>
      match roles u with
      | Some rs => Roles.includes rs (js role)
      | None => None
      end
  | None => None
  end.

(** [hasAccess] of [GET /projects/:id] and [canUpdate] of
    [PUT /projects/:id], the same expression. *)
Definition hasAccess (project : row) (me : option identity) : option bool :=
  orElse (owns project "user_id" me)
    (orElse (hasRole me "manager") (hasRole me "admin")).

(** [canDelete] of [DELETE /projects/:id] *)
Definition canDelete (project : row) (me : option identity) : option bool :=
  orElse (owns project "user_id" me) (hasRole me "admin").

(** [hasAccess] of [GET /defects/:id] *)
Definition hasDefectAccess (project defect : row) (me : option identity)
  : option bool :=
  orElse (owns project "user_id" me)
    (orElse (owns defect "reporter_id" me)
      (orElse (owns defect "assignee_id" me)
        (orElse (hasRole me "manager") (hasRole me "admin")))).

(** [canUpdate] of [PUT /defects/:id] *)
Definition canUpdateDefect (project defect : row) (me : option identity)
  : option bool :=
  orElse (owns defect "reporter_id" me)
    (orElse (owns defect "assignee_id" me)
      (orElse (owns project "user_id" me)
        (orElse (hasRole me "manager") (hasRole me "admin")))).

(** [canDelete] of [DELETE /defects/:id] *)
Definition canDeleteDefect (project : row) (me : option identity)
  : option bool :=
  orElse (owns project "user_id" me)
    (orElse (hasRole me "manager") (hasRole me "admin")).

(** The response of a [catch] block. *)
Definition databaseError (message : string) : response data :=
  reject 500 "DATABASE_ERROR" message.

Definition projectNotFound : response data :=
  reject 404 "PROJECT_NOT_FOUND" "Проект не найден".

Definition defectNotFound : response data :=
  reject 404 "DEFECT_NOT_FOUND" "Дефект не найден".

Section Handlers.
Context {V : Type}.
Variable repo : repositories V.

(** The handler of [GET /projects/:id]; [key] is [req.params.id]. *)
Definition getProject (key : jsstring) (req : request) : response data :=
  let failed := databaseError "Ошибка при получении проекта" in
  match findProject repo (Some (JStr key)) with
  | Failed => failed
  | Fulfilled None => projectNotFound
  | Fulfilled (Some project) =>
      match hasAccess project (user req) with
      | None => failed
      | Some false => reject 403 "FORBIDDEN" "Нет доступа к этому проекту"
      | Some true => Response 200 (Success (Row (Some project)))
      end
  end.

(** The handler of [PUT /projects/:id]; [v] is what
    [updateSchema.validate(req.body)] gives. The result is the writes that
    were called and the response. *)
Definition putProject (key : jsstring)
    (v : Accounts.validation (Sql.project_updates V)) (req : request)
  : list (write V) * response data :=
  let failed := databaseError "Ошибка при обновлении проекта" in
  match findProject repo (Some (JStr key)) with
  | Failed => ([], failed)
  | Fulfilled None => ([], projectNotFound)
  | Fulfilled (Some project) =>
      match hasAccess project (user req) with
      | None => ([], failed)
      | Some false =>
          ([], reject 403 "FORBIDDEN" "Нет прав на обновление проекта")
      | Some true =>
          match v with
          | Accounts.Invalid message =>
              ([], reject 400 "VALIDATION_ERROR" message)
          | Accounts.Valid value =>
              match updateProject repo key value with
              | Failed => ([UpdateProject key value], failed)
              | Fulfilled updatedProject =>
                  ([UpdateProject key value],
                   Response 200 (Success (Row updatedProject)))
              end
          end
      end
  end.

(** The handler of [DELETE /projects/:id]. *)
Definition removeProject (key : jsstring) (req : request)
  : list (write V) * response data :=
  let failed := databaseError "Ошибка при удалении проекта" in
  match findProject repo (Some (JStr key)) with
  | Failed => ([], failed)
  | Fulfilled None => ([], projectNotFound)
  | Fulfilled (Some project) =>
      match canDelete project (user req) with
      | None => ([], failed)
      | Some false =>
          ([], reject 403 "FORBIDDEN" "Нет прав на удаление проекта")
      | Some true =>
          match deleteProject repo key with
          | Failed => ([DeleteProject key], failed)
          | Fulfilled _ =>
              ([DeleteProject key],
               Response 200 (Success (Message "Проект успешно удален")))
          end
      end
  end.

(** The defect of a request and its project, as the three defect routes
    look them up: a response when a lookup ends the request. *)
Definition defectAndProject (failed : response data) (key : jsstring)
  : response data + row * row :=
  match findDefect repo key with
  | Failed => inl failed
  | Fulfilled None => inl defectNotFound
  | Fulfilled (Some defect) =>
      match findProject repo (defect !! "project_id") with
      | Failed => inl failed
      | Fulfilled None => inl projectNotFound
      | Fulfilled (Some project) => inr (project, defect)
      end
  end.

(** The handler of [GET /defects/:id]. *)
Definition getDefect (key : jsstring) (req : request) : response data :=
  let failed := databaseError "Ошибка при получении дефекта" in
  match defectAndProject failed key with
  | inl res => res
  | inr (project, defect) =>
      match hasDefectAccess project defect (user req) with
      | None => failed
      | Some false => reject 403 "FORBIDDEN" "Нет доступа к этому дефекту"
      | Some true => Response 200 (Success (Row (Some defect)))
      end
  end.

(** The handler of [PUT /defects/:id]; [v] is what
    [updateDefectSchema.validate(req.body)] gives. *)
Definition putDefect (key : jsstring)
    (v : Accounts.validation (Sql.defect_updates V)) (req : request)
  : list (write V) * response data :=
  let failed := databaseError "Ошибка при обновлении дефекта" in
  match v with
  | Accounts.Invalid message => ([], reject 400 "VALIDATION_ERROR" message)
  | Accounts.Valid value =>
      match defectAndProject failed key with
      | inl res => ([], res)
      | inr (project, defect) =>
          match canUpdateDefect project defect (user req) with
          | None => ([], failed)
          | Some false =>
              ([], reject 403 "FORBIDDEN" "Нет прав на обновление дефекта")
          | Some true =>
              match updateDefect repo key value with
              | Failed => ([UpdateDefect key value], failed)
              | Fulfilled updatedDefect =>
                  ([UpdateDefect key value],
                   Response 200 (Success (Row updatedDefect)))
              end
          end
      end
  end.

(** The handler of [DELETE /defects/:id]. *)
Definition removeDefect (key : jsstring) (req : request)
  : list (write V) * response data :=
  let failed := databaseError "Ошибка при удалении дефекта" in
  match defectAndProject failed key with
  | inl res => ([], res)
  | inr (project, _) =>
      match canDeleteDefect project (user req) with
      | None => ([], failed)
      | Some false =>
          ([], reject 403 "FORBIDDEN" "Нет прав на удаление дефекта")
      | Some true =>
          match deleteDefect repo key with
          | Failed => ([DeleteDefect key], failed)
          | Fulfilled _ =>
              ([DeleteDefect key],
               Response 200 (Success (Message "Дефект успешно удален")))
          end
      end
  end.

End Handlers.

(** A route: [authenticateToken] of the orders service, then the
    handler. *)
Definition route {A : Type} (verify : verifier) (handler : request -> A)
    (req : request) : option A :=
  match Orders.authenticateToken (D := data) verify req with
  | Next req1 => Some (handler req1)
  | _ => None
  end.

End Routes.

(** ** The users repository: the listing statements (db/queries.js) *)

Module UsersSql.
Import JS Users Sql.

(** [UserRepository.findAll({ page, limit, role })]: the count statement
    and the rows statement given to [usersPool.query]. The route passes
    [page] and [limit] as numbers. *)
Definition findAll (page limit : number) (role : option jsstring)
  : query sqlvalue * query sqlvalue :=
  let offset := mul (pred page) limit in
  let whereClause := "" in
  let params := [] in
  let '(whereClause, params) :=
    match given role with
    | Some r => ("WHERE $1 = ANY(roles)", params ++ [Text r])
    | None => (whereClause, params)
    end in
  let countQuery := selectCount +:+ " FROM users " +:+ whereClause in
  let usersQuery :=
    "SELECT id, email, name, roles, created_at, updated_at FROM users " +:+
    whereClause +:+
    " ORDER BY created_at DESC LIMIT $" +:+ pretty (length params + 1)%nat +:+
    " OFFSET $" +:+ pretty (length params + 2)%nat in
  let params := params ++ [Num limit; Num offset] in
  (Query countQuery
     (match given role with Some r => [Text r] | None => [] end),
   Query usersQuery params).

End UsersSql.

(** ** The orders service: the project routes over an array, with the
       token check of their own *)

Module Legacy.
Import JS JSON Http.

(** An element of [projects]: [{ id, userId, ...value, status, createdAt,
    updatedAt }], the validated body kept whole. *)
Record project (V : Type) : Type := Project {
  j_id : jsstring;
  j_userId : jsstring;
  j_value : V;
  j_status : jsstring;
  j_createdAt : jsstring;
  j_updatedAt : jsstring
}.
Arguments Project {V}.
Arguments j_id {V} p.
Arguments j_userId {V} p.
Arguments j_value {V} p.
Arguments j_status {V} p.
Arguments j_createdAt {V} p.
Arguments j_updatedAt {V} p.

(** [req.user = { id: 'user-id-from-token' }]: the object has no other
    field, and the routes read no other. *)
Definition tokenUser : identity :=
  {| id := js "user-id-from-token"; email := []; roles := None |}.

(** [authenticateToken] of this file: the token is asked for and is not
    looked at. *)
Definition authenticateToken {D : Type} (req : request) : outcome D :=
  match bearerToken (headers req) with
  | Some token =>
      if JS.truthy token then Next (setUser req tokenUser)
      else Respond (reject 401 "TOKEN_REQUIRED" "Требуется токен авторизации")
  | None => Respond (reject 401 "TOKEN_REQUIRED" "Требуется токен авторизации")
  end.

Section Routes.
Context {V : Type}.

(** [POST /projects]: [v] is what [createProjectSchema.validate(req.body)]
    gives, [freshId] what [uuidv4()] gives, and [createdAt], [updatedAt]
    what the two calls of [new Date().toISOString()] give. The result is
    the [projects] array after the call and the outcome. *)
Definition postProjects (v : Accounts.validation V)
    (freshId createdAt updatedAt : jsstring) (projects : list (project V))
    (req : request) : list (project V) * outcome (project V) :=
  match authenticateToken req with
  | Next req1 =>
      match v with
      | Accounts.Invalid message =>
          (projects, Respond (reject 400 "VALIDATION_ERROR" message))
      | Accounts.Valid value =>
          match user req1 with
          | None => (projects, Throw)
          | Some me =>
              let newProject :=
                {| j_id := freshId; j_userId := id me; j_value := value;
                   j_status := js "draft";
                   j_createdAt := createdAt; j_updatedAt := updatedAt |} in
              (projects ++ [newProject],
               Respond (Response 201 (Success newProject)))
          end
      end
  | Respond res => (projects, Respond res)
  | Throw => (projects, Throw)
  end.

(** [GET /projects/:id]; [key] is [req.params.id]. *)
Definition getProject (key : jsstring) (projects : list (project V))
    (req : request) : outcome (project V) :=
  match authenticateToken req with
  | Next req1 =>
      match List.find (fun p => JS.eqb (j_id p) key) projects with
      | None => Respond (reject 404 "PROJECT_NOT_FOUND" "Проект не найден")
      | Some p =>
          match user req1 with
          | None => Throw
          | Some me =>
              if negb (JS.eqb (j_userId p) (id me))
              then Respond (reject 403 "FORBIDDEN" "Нет доступа к этому проекту")
              else Respond (Response 200 (Success p))
          end
      end
  | Respond res => Respond res
  | Throw => Throw
  end.

End Routes.

End Legacy.

(** * Properties *)

(** ** JSON.parse reads back what JSON.stringify wrote *)

Module JSONFacts.
Import JS JSON.

Lemma hexval_hexdigit d : d < 16 -> hexval (hexdigit d) = Some d.
Proof.
  intros Hd. unfold hexdigit, hexval.
  destruct (N.ltb_spec d 10) as [H|H].
  - replace ((48 <=? 48 + d) && (48 + d <=? 57)) with true
      by (symmetry; apply andb_true_iff; split; apply N.leb_le; lia).
    f_equal. lia.
  - replace ((48 <=? 87 + d) && (87 + d <=? 57)) with false
      by (symmetry; apply andb_false_iff; right; apply N.leb_gt; lia).
    replace ((97 <=? 87 + d) && (87 + d <=? 102)) with true
      by (symmetry; apply andb_true_iff; split; apply N.leb_le; lia).
    f_equal. lia.
Qed.

Lemma hex4_digits c :
  c < 65536 ->
  hex4 (hexdigit (c / 4096 mod 16)) (hexdigit (c / 256 mod 16))
       (hexdigit (c / 16 mod 16)) (hexdigit (c mod 16)) = Some c.
Proof.
  intros Hc. unfold hex4.
  rewrite !hexval_hexdigit by (apply N.mod_lt; lia).
  f_equal.
  pose proof (N.div_mod c 16 ltac:(lia)).
  pose proof (N.div_mod (c / 16) 16 ltac:(lia)).
  pose proof (N.div_mod (c / 256) 16 ltac:(lia)).
  pose proof (N.mod_lt c 16 ltac:(lia)).
  pose proof (N.mod_lt (c / 16) 16 ltac:(lia)).
  pose proof (N.mod_lt (c / 256) 16 ltac:(lia)).
  assert (c / 256 = c / 16 / 16) by (rewrite N.Div0.div_div; reflexivity).
  assert (c / 4096 = c / 256 / 16) by (rewrite N.Div0.div_div; reflexivity).
  assert (c / 4096 < 16) by (apply N.Div0.div_lt_upper_bound; lia).
  rewrite (N.mod_small (c / 4096) 16) by assumption.
  lia.
Qed.

(** Decides the comparisons of code units met while a parser runs over
    the text a printer wrote. *)
Ltac cmp :=
  repeat match goal with
  | |- context [N.eqb ?a ?b] => destruct (N.eqb_spec a b); try lia
  | |- context [N.ltb ?a ?b] => destruct (N.ltb_spec a b); try lia
  | |- context [N.leb ?a ?b] => destruct (N.leb_spec a b); try lia
  end.

Lemma parse_string_escaped c e rest (s : jsstring) r :
  short_escape c = Some e ->
  parse_string rest = Some (s, r) ->
  parse_string (92 :: e :: rest) = Some (c :: s, r).
Proof.
  unfold short_escape. intros He Hrest.
  assert (Hu : (e =? 117) = false /\ unescape e = Some c).
  { revert He.
    repeat match goal with
           | |- context [N.eqb c ?k] =>
               destruct (N.eqb_spec c k);
               [intros [= <-]; subst; split; reflexivity|]
           end.
    intros [=]. }
  destruct Hu as [Hu1 Hu2].
  cbn [parse_string]. change (92 =? 34) with false. change (92 =? 92) with true.
  cbn iota. rewrite Hu1, Hu2, Hrest. reflexivity.
Qed.

Lemma parse_string_uescape c rest (s : jsstring) r :
  c < 65536 ->
  parse_string rest = Some (s, r) ->
  parse_string (uescape c ++ rest) = Some (c :: s, r).
Proof.
  intros Hc Hrest. unfold uescape.
  cbn [app parse_string]. change (92 =? 34) with false.
  change (92 =? 92) with true. change (117 =? 117) with true. cbn iota.
  rewrite hex4_digits, Hrest by assumption. reflexivity.
Qed.

Lemma parse_string_raw c rest (s : jsstring) r :
  short_escape c = None -> 32 <= c ->
  parse_string rest = Some (s, r) ->
  parse_string (c :: rest) = Some (c :: s, r).
Proof.
  unfold short_escape. intros He Hc Hrest.
  assert (Hq : (c =? 34) = false /\ (c =? 92) = false /\ (c <? 32) = false).
  { revert He. cmp; intros; try discriminate; auto. }
  destruct Hq as (H1 & H2 & H3).
  cbn [parse_string]. rewrite H1, H2, H3, Hrest. reflexivity.
Qed.

Lemma low_not_short d : is_low d = true -> short_escape d = None /\ 32 <= d.
Proof.
  unfold is_low, short_escape. intros [H1 H2]%andb_true_iff.
  apply N.leb_le in H1. split; [cmp; reflexivity | lia].
Qed.

Lemma surrogate_bound c : is_high c || is_low c = true -> c < 65536.
Proof.
  unfold is_high, is_low.
  intros [[_ H]%andb_true_iff | [_ H]%andb_true_iff]%orb_true_iff;
    apply N.leb_le in H; lia.
Qed.

(** Reading back the body of a quoted string, by induction on a bound of
    its length: a surrogate pair takes two code units at once. *)
Lemma parse_string_quote_chars_bounded n :
  forall (s : jsstring) rest,
    (length s <= n)%nat ->
    parse_string (quote_chars s ++ 34 :: rest) = Some (s, rest).
Proof.
  induction n as [|n IH]; intros s rest Hlen.
  - destruct s; [reflexivity | simpl in Hlen; lia].
  - destruct s as [|c s]; [reflexivity|].
    simpl in Hlen. cbn [quote_chars].
    destruct (short_escape c) as [e|] eqn:He.
    + cbn [app]. apply (parse_string_escaped c e); [assumption|].
      apply IH. lia.
    + destruct (N.ltb_spec c 32) as [Hc|Hc].
      * rewrite <- app_assoc. apply parse_string_uescape; [lia|].
        apply IH. lia.
      * destruct (is_high c) eqn:Hh.
        -- destruct s as [|d s'].
           ++ apply parse_string_uescape; [|reflexivity].
              apply surrogate_bound. rewrite Hh. reflexivity.
           ++ destruct (is_low d) eqn:Hl.
              ** cbn [app]. apply parse_string_raw; [assumption..|].
                 destruct (low_not_short d Hl).
                 apply parse_string_raw; [assumption..|].
                 apply IH. simpl in Hlen. lia.
              ** rewrite <- app_assoc. apply parse_string_uescape.
                 { apply surrogate_bound. rewrite Hh. reflexivity. }
                 apply IH. lia.
        -- destruct (is_low c) eqn:Hl.
           ++ rewrite <- app_assoc. apply parse_string_uescape.
              { apply surrogate_bound. rewrite Hl, orb_true_r. reflexivity. }
              apply IH. lia.
           ++ cbn [app]. apply parse_string_raw; [assumption..|].
              apply IH. lia.
Qed.

Lemma parse_string_quote_chars (s : jsstring) rest :
  parse_string (quote_chars s ++ 34 :: rest) = Some (s, rest).
Proof. apply (parse_string_quote_chars_bounded (length s)). lia. Qed.


Lemma parse_value_quote fuel (s : jsstring) rest :
  (0 < fuel)%nat ->
  parse_value fuel (quote s ++ rest) = Some (JStr s, rest).
Proof.
  intros Hfuel. destruct fuel as [|fuel]; [lia|].
  unfold quote. cbn [app]. rewrite <- app_assoc. cbn [app].
  cbn [parse_value skip_ws]. change (is_ws 34) with false. cbn iota.
  change (34 =? 34) with true. cbn iota.
  rewrite parse_string_quote_chars. reflexivity.
Qed.

Lemma parse_elements_join (l : list jsstring) :
  forall (s : jsstring) fuel rest,
    (length l + 2 <= fuel)%nat ->
    parse_elements fuel (join_quoted (s :: l) ++ 93 :: rest)
    = Some (List.map JStr (s :: l), rest).
Proof.
  induction l as [|s' l IH]; intros s fuel rest Hfuel.
  - destruct fuel as [|fuel]; [simpl in Hfuel; lia|].
    cbn [join_quoted parse_elements].
    rewrite parse_value_quote by (simpl in Hfuel; lia).
    reflexivity.
  - destruct fuel as [|fuel]; [simpl in Hfuel; lia|].
    change (join_quoted (s :: s' :: l))
      with (quote s ++ 44 :: join_quoted (s' :: l)).
    rewrite <- app_assoc. cbn [parse_elements].
    rewrite parse_value_quote by (simpl in Hfuel; lia).
    change ((44 :: join_quoted (s' :: l)) ++ 93 :: rest)
      with (44 :: (join_quoted (s' :: l) ++ 93 :: rest)).
    cbn [skip_ws]. change (is_ws 44) with false. cbn iota.
    change (44 =? 93) with false. change (44 =? 44) with true. cbn iota.
    rewrite IH by (simpl in Hfuel |- *; lia). reflexivity.
Qed.

Lemma join_quoted_length (l : list jsstring) :
  (length l <= length (join_quoted l))%nat.
Proof.
  induction l as [|s [|s' l] IH]; [simpl; lia| |].
  - unfold join_quoted, quote. simpl. lia.
  - change (join_quoted (s :: s' :: l))
      with (quote s ++ 44 :: join_quoted (s' :: l)).
    rewrite length_app. simpl in IH |- *. lia.
Qed.

Lemma join_quoted_head (s : jsstring) l :
  exists t, join_quoted (s :: l) = 34 :: t.
Proof. destruct l; eexists; reflexivity. Qed.

(** [JSON.parse(JSON.stringify(a))] gives back an array of strings. *)
Lemma parse_stringify_strings (l : list jsstring) :
  parse (stringify_strings l) = Some (JArr (List.map JStr l)).
Proof.
  unfold parse, stringify_strings.
  destruct l as [|s l]; [reflexivity|].
  set (fuel := (2 * length (91%N :: join_quoted (s :: l) ++ [93%N]))%nat).
  replace (fuel + 2)%nat with (S (S fuel)) by lia.
  cbn [parse_value skip_ws]. change (is_ws 91) with false. cbn iota.
  change (91 =? 34) with false. change (91 =? 91) with true. cbn iota.
  destruct (join_quoted_head s l) as [t Ht].
  pose proof (parse_elements_join l s (S fuel) []) as Hp.
  pose proof (join_quoted_length (s :: l)) as Hl.
  rewrite Ht in *. cbn [app skip_ws]. change (is_ws 34) with false. cbn iota.
  cbn [expect]. change (93 =? 34) with false. cbn iota.
  cbn [app] in Hp. rewrite Hp.
  - reflexivity.
  - subst fuel. cbn [length] in Hl |- *. rewrite length_app, Ht.
    cbn [length]. lia.
Qed.

End JSONFacts.

(** ** The fuel of JSON.parse is enough *)

Module FuelFacts.
Import JS JSON.

Lemma skip_ws_length cs : (length (skip_ws cs) <= length cs)%nat.
Proof.
  induction cs as [|c cs IH]; [reflexivity|].
  cbn [skip_ws]. destruct (is_ws c); cbn [length]; lia.
Qed.

Lemma expect_length lit : forall cs rest,
  expect lit cs = Some rest -> (length rest + length lit = length cs)%nat.
Proof.
  induction lit as [|l lit IH]; intros cs rest H.
  - injection H as <-. simpl. lia.
  - destruct cs as [|c cs]; [discriminate|]. cbn [expect] in H.
    destruct (l =? c); [|discriminate].
    apply IH in H. simpl. lia.
Qed.

Lemma parse_string_length_bounded n : forall cs (s : jsstring) rest,
  (length cs <= n)%nat ->
  parse_string cs = Some (s, rest) -> (length rest < length cs)%nat.
Proof.
  induction n as [|n IH]; intros cs s rest Hn H.
  - destruct cs; [discriminate | simpl in Hn; lia].
  - destruct cs as [|c cs]; [discriminate|].
    cbn [parse_string] in H. simpl in Hn.
    destruct (c =? 34); [injection H as _ <-; simpl; lia|].
    destruct (c =? 92).
    + destruct cs as [|e cs]; [discriminate|].
      destruct (e =? 117).
      * destruct cs as [|h1 [|h2 [|h3 [|h4 cs]]]]; try discriminate.
        destruct (hex4 h1 h2 h3 h4); [|discriminate].
        destruct (parse_string cs) as [[s' r]|] eqn:Hp; [|discriminate].
        injection H as _ <-. apply IH in Hp; simpl in *; lia.
      * destruct (unescape e); [|discriminate].
        destruct (parse_string cs) as [[s' r]|] eqn:Hp; [|discriminate].
        injection H as _ <-. apply IH in Hp; simpl in *; lia.
    + destruct (c <? 32); [discriminate|].
      destruct (parse_string cs) as [[s' r]|] eqn:Hp; [|discriminate].
      injection H as _ <-. apply IH in Hp; simpl in *; lia.
Qed.

Lemma parse_string_length cs (s : jsstring) rest :
  parse_string cs = Some (s, rest) -> (length rest < length cs)%nat.
Proof. apply (parse_string_length_bounded (length cs)). lia. Qed.

Lemma take_digits_length cs : forall ds rest,
  take_digits cs = (ds, rest) -> (length ds + length rest = length cs)%nat.
Proof.
  induction cs as [|c cs IH]; intros ds rest H.
  - injection H as <- <-. reflexivity.
  - cbn [take_digits] in H. destruct (is_digit c).
    + destruct (take_digits cs) as [ds' r]. injection H as <- <-.
      specialize (IH ds' r eq_refl). simpl. lia.
    + injection H as <- <-. reflexivity.
Qed.

Lemma parse_frac_length cs fs rest :
  parse_frac cs = Some (fs, rest) -> (length rest <= length cs)%nat.
Proof.
  unfold parse_frac. intros H.
  destruct cs as [|c cs]; [injection H as <- <-; lia|].
  destruct (c =? 46); [|injection H as <- <-; lia].
  destruct (take_digits cs) as [[|d ds] r] eqn:Ht; [discriminate|].
  injection H as <- <-. apply take_digits_length in Ht. simpl in *. lia.
Qed.

Lemma parse_exp_digits_length neg cs x rest :
  parse_exp_digits neg cs = Some (x, rest) -> (length rest <= length cs)%nat.
Proof.
  unfold parse_exp_digits. intros H.
  destruct (take_digits cs) as [[|d ds] r] eqn:Ht; [discriminate|].
  injection H as _ <-. apply take_digits_length in Ht. lia.
Qed.

Lemma parse_exp_length cs x rest :
  parse_exp cs = Some (x, rest) -> (length rest <= length cs)%nat.
Proof.
  unfold parse_exp. intros H.
  destruct cs as [|c cs]; [injection H as <- <-; lia|].
  destruct ((c =? 101) || (c =? 69)); [|injection H as <- <-; lia].
  destruct cs as [|s cs]; [discriminate|].
  destruct (s =? 43); [apply parse_exp_digits_length in H; simpl; lia|].
  destruct (s =? 45); apply parse_exp_digits_length in H; simpl in *; lia.
Qed.

Lemma parse_number_length cs v rest :
  parse_number cs = Some (v, rest) -> (length rest < length cs)%nat.
Proof.
  unfold parse_number. intros H.
  set (sign := match cs with
               | c :: r => if c =? 45 then (true, r) else (false, cs)
               | [] => (false, cs)
               end) in H.
  assert (Hs : (length (snd sign) <= length cs)%nat).
  { subst sign. destruct cs as [|c cs]; [simpl; lia|].
    destruct (c =? 45); simpl; lia. }
  destruct sign as [neg cs1]. cbn [snd] in Hs.
  destruct (take_digits cs1) as [[|d ds] cs2] eqn:Ht; [discriminate|].
  destruct ((d =? 48) && negb (bool_decide (ds = []))); [discriminate|].
  destruct (parse_frac cs2) as [[fs cs3]|] eqn:Hf; [|discriminate].
  destruct (parse_exp cs3) as [[x cs4]|] eqn:He; [|discriminate].
  injection H as _ <-.
  apply take_digits_length in Ht. apply parse_frac_length in Hf.
  apply parse_exp_length in He. simpl in Ht. lia.
Qed.

Lemma parse_literal_length lit v cs w rest :
  parse_literal lit v cs = Some (w, rest) -> (length rest <= length cs)%nat.
Proof.
  unfold parse_literal. destruct (expect lit cs) as [r|] eqn:He; [|discriminate].
  intros [= _ <-]. apply expect_length in He. lia.
Qed.

Lemma value_ok_step f : elements_ok f -> members_ok f -> value_ok (S f).
Proof.
  intros IHe IHm cs v rest H. cbn [parse_value] in H.
  pose proof (skip_ws_length cs) as Hws.
  destruct (skip_ws cs) as [|c rest0] eqn:Hw; [discriminate|].
  cbn [length] in Hws.
  destruct (c =? 34) eqn:E34.
  { destruct (parse_string rest0) as [[s r]|] eqn:Hp; [|discriminate].
    injection H as <- <-. pose proof (parse_string_length _ _ _ Hp).
    split; [lia|]. intros [|f'] Hf; [lia|].
    cbn [parse_value]. rewrite Hw, E34, Hp. reflexivity. }
  destruct (c =? 91) eqn:E91.
  { pose proof (skip_ws_length rest0) as Hws0.
    destruct (expect [93] (skip_ws rest0)) as [rest'|] eqn:Hx.
    - injection H as <- <-. pose proof (expect_length _ _ _ Hx) as Hx'.
      cbn [length] in Hx'.
      split; [lia|]. intros [|f'] Hf; [lia|].
      cbn [parse_value]. rewrite Hw, E34, E91, Hx. reflexivity.
    - destruct (parse_elements f rest0) as [[l r]|] eqn:Hp; [|discriminate].
      injection H as <- <-. destruct (IHe _ _ _ Hp) as [Hlen Hsuff].
      split; [lia|]. intros [|f'] Hf; [lia|].
      cbn [parse_value]. rewrite Hw, E34, E91, Hx, Hsuff by lia. reflexivity. }
  destruct (c =? 123) eqn:E123.
  { pose proof (skip_ws_length rest0) as Hws0.
    destruct (expect [125] (skip_ws rest0)) as [rest'|] eqn:Hx.
    - injection H as <- <-. pose proof (expect_length _ _ _ Hx) as Hx'.
      cbn [length] in Hx'.
      split; [lia|]. intros [|f'] Hf; [lia|].
      cbn [parse_value]. rewrite Hw, E34, E91, E123, Hx. reflexivity.
    - destruct (parse_members f rest0 []) as [[l r]|] eqn:Hp; [|discriminate].
      injection H as <- <-. destruct (IHm _ _ _ _ Hp) as [Hlen Hsuff].
      split; [lia|]. intros [|f'] Hf; [lia|].
      cbn [parse_value].
      rewrite Hw, E34, E91, E123, Hx, Hsuff by lia. reflexivity. }
  destruct (c =? 110) eqn:E110.
  { pose proof (parse_literal_length _ _ _ _ _ H).
    split; [lia|]. intros [|f'] Hf; [lia|].
    cbn [parse_value]. rewrite Hw, E34, E91, E123, E110. assumption. }
  destruct (c =? 116) eqn:E116.
  { pose proof (parse_literal_length _ _ _ _ _ H).
    split; [lia|]. intros [|f'] Hf; [lia|].
    cbn [parse_value]. rewrite Hw, E34, E91, E123, E110, E116. assumption. }
  destruct (c =? 102) eqn:E102.
  { pose proof (parse_literal_length _ _ _ _ _ H).
    split; [lia|]. intros [|f'] Hf; [lia|].
    cbn [parse_value].
    rewrite Hw, E34, E91, E123, E110, E116, E102. assumption. }
  pose proof (parse_number_length _ _ _ H) as Hn. cbn [length] in Hn.
  split; [lia|]. intros [|f'] Hf; [lia|].
  cbn [parse_value]. rewrite Hw, E34, E91, E123, E110, E116, E102. assumption.
Qed.

Lemma elements_ok_step f : value_ok f -> elements_ok f -> elements_ok (S f).
Proof.
  intros IHv IHe cs l rest H. cbn [parse_elements] in H.
  destruct (parse_value f cs) as [[v r]|] eqn:Hv; [|discriminate].
  destruct (IHv _ _ _ Hv) as [Hlen Hsuff].
  pose proof (skip_ws_length r) as Hws.
  destruct (skip_ws r) as [|d r'] eqn:Hw; [discriminate|].
  cbn [length] in Hws.
  destruct (d =? 93) eqn:E93.
  { injection H as <- <-. split; [lia|]. intros [|f'] Hf; [lia|].
    cbn [parse_elements]. rewrite Hsuff by lia. rewrite Hw, E93. reflexivity. }
  destruct (d =? 44) eqn:E44; [|discriminate].
  destruct (parse_elements f r') as [[l' r'']|] eqn:Hp; [|discriminate].
  injection H as <- <-. destruct (IHe _ _ _ Hp) as [Hlen' Hsuff'].
  split; [lia|]. intros [|f'] Hf; [lia|].
  cbn [parse_elements]. rewrite Hsuff by lia.
  rewrite Hw, E93, E44, Hsuff' by lia. reflexivity.
Qed.

Lemma members_ok_step f : value_ok f -> members_ok f -> members_ok (S f).
Proof.
  intros IHv IHm cs acc l rest H. cbn [parse_members] in H.
  pose proof (skip_ws_length cs) as Hws1.
  destruct (expect [34] (skip_ws cs)) as [cs1|] eqn:Hq; [|discriminate].
  pose proof (expect_length _ _ _ Hq) as Hq'. cbn [length] in Hq'.
  destruct (parse_string cs1) as [[k cs2]|] eqn:Hk; [|discriminate].
  pose proof (parse_string_length _ _ _ Hk) as Hk'.
  pose proof (skip_ws_length cs2) as Hws2.
  destruct (expect [58] (skip_ws cs2)) as [cs3|] eqn:Hc; [|discriminate].
  pose proof (expect_length _ _ _ Hc) as Hc'. cbn [length] in Hc'.
  destruct (parse_value f cs3) as [[v r]|] eqn:Hv; [|discriminate].
  destruct (IHv _ _ _ Hv) as [Hlen Hsuff].
  pose proof (skip_ws_length r) as Hws.
  destruct (skip_ws r) as [|d r'] eqn:Hw; [discriminate|].
  cbn [length] in Hws.
  destruct (d =? 125) eqn:E125.
  { injection H as <- <-. split; [lia|]. intros [|f'] Hf; [lia|].
    cbn [parse_members]. rewrite Hq, Hk, Hc, Hsuff by lia.
    rewrite Hw, E125. reflexivity. }
  destruct (d =? 44) eqn:E44; [|discriminate].
  destruct (IHm _ _ _ _ H) as [Hlen' Hsuff'].
  split; [lia|]. intros [|f'] Hf; [lia|].
  cbn [parse_members]. rewrite Hq, Hk, Hc, Hsuff by lia.
  rewrite Hw, E125, E44. apply Hsuff'. lia.
Qed.

Lemma descent_ok f : value_ok f /\ elements_ok f /\ members_ok f.
Proof.
  induction f as [|f (IHv & IHe & IHm)].
  - unfold value_ok, elements_ok, members_ok.
    repeat split; intros; discriminate.
  - auto using value_ok_step, elements_ok_step, members_ok_step.
Qed.

(** Whatever some amount of fuel parses in full, [parse] parses: its fuel
    never runs out on a JSON text. *)
Lemma parse_fuel_enough (text : jsstring) fuel v rest :
  parse_value fuel text = Some (v, rest) -> skip_ws rest = [] ->
  parse text = Some v.
Proof.
  intros H Hrest. destruct (descent_ok fuel) as [Hv _].
  destruct (Hv _ _ _ H) as [Hlen Hsuff].
  unfold parse.
  rewrite (Hsuff (2 * length text + 2)%nat) by lia.
  rewrite Hrest. reflexivity.
Qed.

(** [parse] fails exactly when no amount of fuel parses the text in full. *)
Lemma parse_none_iff (text : jsstring) :
  parse text = None <->
  forall fuel v rest,
    parse_value fuel text = Some (v, rest) -> skip_ws rest <> [].
Proof.
  split.
  - intros Hn fuel v rest H Hrest.
    rewrite (parse_fuel_enough text fuel v rest H Hrest) in Hn. discriminate.
  - intros Hall. unfold parse.
    destruct (parse_value (2 * length text + 2) text) as [[v rest]|] eqn:H;
      [|reflexivity].
    specialize (Hall _ _ _ H).
    destruct (skip_ws rest); [contradiction | reflexivity].
Qed.

End FuelFacts.

(** ** The gateway's allow-list and token check *)

Section EdgeAuthentication.
Import JS JSON Http.
Variable verify : verifier.

(** The allow-list holds the root path, which is a prefix of every path
    that starts with a slash. *)
Lemma isPublic_of_slash (p : jsstring) : Gateway.isPublic (47 :: p) = true.
Proof.
  unfold Gateway.isPublic. apply existsb_exists. exists (js "/"). split.
  - unfold Gateway.publicRoutes. do 3 right. left. reflexivity.
  - apply orb_true_iff. right. reflexivity.
Qed.

(** Past the allow-list, a request that presents no token is refused. *)
Lemma gateway_token_required (req : request) :
  Gateway.isPublic (path req) = false ->
  presentedToken (headers req) = None ->
  Gateway.authenticateToken (D := unit) verify req
  = Respond (reject 401 "TOKEN_REQUIRED" "Требуется токен авторизации").
Proof.
  unfold Gateway.authenticateToken, presentedToken. intros -> Htok.
  destruct (bearerToken (headers req)) as [token|]; [|reflexivity].
  destruct (JS.truthy token); [discriminate | reflexivity].
Qed.

(** Past the allow-list, a token that fails verification is refused. *)
Lemma gateway_token_invalid (req : request) token e :
  Gateway.isPublic (path req) = false ->
  presentedToken (headers req) = Some token ->
  verify token = Rejected e ->
  Gateway.authenticateToken (D := unit) verify req
  = Respond (reject 403 "INVALID_TOKEN" "Неверный или просроченный токен").
Proof.
  unfold Gateway.authenticateToken, presentedToken. intros -> Htok Hv.
  destruct (bearerToken (headers req)) as [t|]; [|discriminate].
  destruct (JS.truthy t); [|discriminate].
  injection Htok as ->. rewrite Hv. reflexivity.
Qed.

End EdgeAuthentication.

(** ** Header propagation through the proxy *)

Section Propagation.
Import JS JSON Http.

Lemma copyHeader_other k k' req (proxyReq : gmap string jsstring) :
  k <> k' -> Gateway.copyHeader k req proxyReq !! k' = proxyReq !! k'.
Proof.
  intros Hne. unfold Gateway.copyHeader.
  destruct (headers req !! k) as [v|]; [|reflexivity].
  destruct (JS.truthy v); [|reflexivity].
  apply lookup_insert_ne. assumption.
Qed.

(** [onProxyReq] leaves every header but the four it sets as the proxy
    prepared it. *)
Lemma forwardIdentity_other k req (proxyReq : gmap string jsstring) :
  k ∉ Gateway.identityHeaders ->
  Gateway.forwardIdentity proxyReq req !! k = proxyReq !! k.
Proof.
  unfold Gateway.identityHeaders. intros Hk. unfold Gateway.forwardIdentity.
  rewrite !copyHeader_other; [reflexivity|..];
    intros <-; apply Hk; rewrite !elem_of_cons; auto.
Qed.

Lemma copyHeader_id k req :
  Gateway.copyHeader k req (headers req) = headers req.
Proof.
  unfold Gateway.copyHeader.
  destruct (headers req !! k) as [v|] eqn:Hk; [|reflexivity].
  destruct (JS.truthy v); [|reflexivity].
  apply insert_id. assumption.
Qed.

(** Starting from the copy of the inbound headers, [onProxyReq] changes
    nothing. *)
Lemma forwardIdentity_id req :
  Gateway.forwardIdentity (headers req) req = headers req.
Proof. unfold Gateway.forwardIdentity. rewrite !copyHeader_id. reflexivity. Qed.

(** A header that the outgoing request holds with its inbound value keeps
    it through [onProxyReq]. *)
Lemma copyHeader_agree k k' req (proxyReq : gmap string jsstring) :
  proxyReq !! k' = headers req !! k' ->
  Gateway.copyHeader k req proxyReq !! k' = headers req !! k'.
Proof.
  intros Hp. unfold Gateway.copyHeader.
  destruct (headers req !! k) as [v|] eqn:Hk; [|exact Hp].
  destruct (JS.truthy v); [|exact Hp].
  destruct (decide (k = k')) as [<-|Hne].
  - rewrite lookup_insert_eq. symmetry. exact Hk.
  - rewrite lookup_insert_ne by exact Hne. exact Hp.
Qed.

Lemma forwardIdentity_agree k req (proxyReq : gmap string jsstring) :
  proxyReq !! k = headers req !! k ->
  Gateway.forwardIdentity proxyReq req !! k = headers req !! k.
Proof.
  intros Hp. unfold Gateway.forwardIdentity.
  do 4 apply copyHeader_agree. exact Hp.
Qed.

(** The library touches the [host] header only. *)
Lemma setupOutgoing_other opts (hs : gmap string jsstring) k :
  k <> "host" -> Gateway.setupOutgoing opts hs !! k = hs !! k.
Proof.
  intros Hk. unfold Gateway.setupOutgoing.
  destruct (Gateway.changeOrigin opts); [|reflexivity].
  apply lookup_insert_ne. congruence.
Qed.

(** Every header that is not of the hop reaches the service with its
    inbound value. *)
Lemma outgoingHeaders_other env svc req k :
  k ∉ Gateway.hopHeaders ->
  Gateway.outgoingHeaders (Gateway.services env svc) req !! k
  = headers req !! k.
Proof.
  intros Hk. unfold Gateway.outgoingHeaders.
  assert (k <> "host") as Hhost
    by (intros ->; apply Hk; unfold Gateway.hopHeaders; left).
  destruct svc; cbn [Gateway.services Gateway.onProxyReq];
    apply forwardIdentity_agree, setupOutgoing_other; exact Hhost.
Qed.

(** The [host] of the outgoing request is the target's. *)
Lemma outgoingHeaders_host env svc req :
  Gateway.outgoingHeaders (Gateway.services env svc) req !! "host"
  = Some (Gateway.authority (Gateway.target (Gateway.services env svc))).
Proof.
  unfold Gateway.outgoingHeaders.
  destruct svc; cbn [Gateway.services Gateway.onProxyReq];
    (rewrite forwardIdentity_other
       by (unfold Gateway.identityHeaders;
           rewrite !elem_of_cons, elem_of_nil;
           intros [|[|[|[|[]]]]]; discriminate));
    unfold Gateway.setupOutgoing; cbn [Gateway.changeOrigin Gateway.target];
    apply lookup_insert_eq.
Qed.

(** None of the headers the gateway derives is a header of the hop. *)
Lemma derived_not_hop k :
  k ∈ ["x-user-id"; "x-user-email"; "x-user-roles"; "x-request-id";
       "authorization"] ->
  k ∉ Gateway.hopHeaders.
Proof.
  unfold Gateway.hopHeaders. rewrite !elem_of_cons, !elem_of_nil.
  intros [->|[->|[->|[->|[->|[]]]]]] [|[|[|[|[]]]]]; discriminate.
Qed.

Lemma inject_lookup_other (c : claims) (hs : gmap string jsstring) k :
  k <> "x-user-id" -> k <> "x-user-email" -> k <> "x-user-roles" ->
  Gateway.inject c hs !! k = hs !! k.
Proof.
  intros H1 H2 H3. unfold Gateway.inject, Gateway.assign.
  destruct (stringify_strings <$> c_roles c).
  - rewrite !lookup_insert_ne by congruence. reflexivity.
  - rewrite lookup_delete_ne, !lookup_insert_ne by congruence. reflexivity.
Qed.

Lemma inject_lookup_id (c : claims) (hs : gmap string jsstring) :
  Gateway.inject c hs !! "x-user-id" = Some (c_id c).
Proof.
  unfold Gateway.inject, Gateway.assign.
  destruct (stringify_strings <$> c_roles c).
  - rewrite !lookup_insert_ne by discriminate. apply lookup_insert_eq.
  - rewrite lookup_delete_ne, lookup_insert_ne by discriminate.
    apply lookup_insert_eq.
Qed.

Lemma inject_lookup_email (c : claims) (hs : gmap string jsstring) :
  Gateway.inject c hs !! "x-user-email" = Some (c_email c).
Proof.
  unfold Gateway.inject, Gateway.assign.
  destruct (stringify_strings <$> c_roles c).
  - rewrite lookup_insert_ne by discriminate. apply lookup_insert_eq.
  - rewrite lookup_delete_ne by discriminate. apply lookup_insert_eq.
Qed.

Lemma inject_lookup_roles (c : claims) (hs : gmap string jsstring) :
  Gateway.inject c hs !! "x-user-roles" = stringify_strings <$> c_roles c.
Proof.
  unfold Gateway.inject, Gateway.assign.
  destruct (c_roles c); cbn [fmap option_fmap option_map].
  - apply lookup_insert_eq.
  - apply lookup_delete_eq.
Qed.

End Propagation.

(** C1. A request to a protected route that presents no bearer token should
    be refused with TOKEN_REQUIRED and status 401 and never be forwarded.
    The code does otherwise: the middleware lets every request whose path
    starts with a slash through, unchanged and whatever its headers, and a
    request for [/api/v1/orders/projects] is handed to the orders proxy
    with the headers it came with (those of the hop apart, which the proxy
    sets itself), be there a token or not. *)
Theorem C1_every_slash_path_bypasses_the_token_check :
  (forall (verify : Http.verifier) p hs q u,
     Gateway.authenticateToken (D := unit) verify (Http.mkRequest (47 :: p) hs q u)
     = Http.Next (Http.mkRequest (47 :: p) hs q u)) /\
  (forall env (verify : Http.verifier) hs q u,
     exists outgoing,
       Gateway.dispatch env verify
         (Http.mkRequest (JS.js "/api/v1/orders/projects") hs q u)
       = Gateway.Proxied Gateway.OrdersService outgoing /\
       forall k, k ∉ Gateway.hopHeaders -> outgoing !! k = hs !! k) /\
  (forall env (verify : Http.verifier),
     exists outgoing,
       Gateway.dispatch env verify
         (Http.mkRequest (JS.js "/api/v1/orders/projects") ∅ ∅ None)
       = Gateway.Proxied Gateway.OrdersService outgoing /\
       forall k, k ∉ Gateway.hopHeaders -> outgoing !! k = None).
Proof.
  assert (Hfwd : forall env (verify : Http.verifier) hs q u,
            exists outgoing,
              Gateway.dispatch env verify
                (Http.mkRequest (JS.js "/api/v1/orders/projects") hs q u)
              = Gateway.Proxied Gateway.OrdersService outgoing /\
              forall k, k ∉ Gateway.hopHeaders -> outgoing !! k = hs !! k).
  { intros env verify hs q u. eexists. split.
    - unfold Gateway.dispatch, Gateway.authenticateToken.
      cbn [Http.path].
      change (Gateway.isPublic (JS.js "/api/v1/orders/projects")) with true.
      cbn iota. cbn [Http.path].
      change (Gateway.mounted (JS.js "/api/v1/users")
                (JS.js "/api/v1/orders/projects")) with false.
      change (Gateway.mounted (JS.js "/api/v1/orders")
                (JS.js "/api/v1/orders/projects")) with true.
      cbn iota. reflexivity.
    - intros k Hk.
      apply (outgoingHeaders_other env Gateway.OrdersService
               (Http.mkRequest (JS.js "/api/v1/orders/projects") hs q u) k Hk). }
  split; [|split].
  - intros verify p hs q u. unfold Gateway.authenticateToken.
    cbn [Http.path]. rewrite isPublic_of_slash. reflexivity.
  - exact Hfwd.
  - intros env verify. destruct (Hfwd env verify ∅ ∅ None) as (out & Hd & Hk).
    exists out. split; [exact Hd|]. intros k Hhop. rewrite (Hk k Hhop).
    apply lookup_empty.
Qed.

(** C2, as the code has it. The proxy's [onProxyReq] only sets the four
    derived headers and removes nothing: whatever else the outgoing request
    holds stays. The outgoing request starts from the inbound headers, and
    every header that is not of the hop reaches the service with its
    inbound value, while [changeOrigin] makes the [host] the target's. For
    a request that the verification callback has authenticated, the
    outgoing request therefore carries the derived identity headers and
    also the client's Authorization header. *)
Theorem C2_proxy_forwards_inbound_headers :
  (forall req proxyReq,
     Gateway.forwardIdentity proxyReq req !! "authorization"
     = proxyReq !! "authorization") /\
  (forall env svc req k,
     k ∉ Gateway.hopHeaders ->
     Gateway.outgoingHeaders (Gateway.services env svc) req !! k
     = Http.headers req !! k) /\
  (forall svc req,
     Gateway.outgoingHeaders (Gateway.services ∅ svc) req !! "host"
     = Some (match svc with
             | Gateway.UsersService => JS.js "localhost:3001"
             | Gateway.OrdersService => JS.js "localhost:3002"
             end)) /\
  (forall env svc (c : Http.claims) req,
     exists req1,
       Gateway.verifyCallback (D := unit) (Http.Verified c) req
       = Http.Next req1 /\
       let out := Gateway.outgoingHeaders (Gateway.services env svc) req1 in
       out !! "x-user-id" = Some (Http.c_id c) /\
       out !! "x-user-email" = Some (Http.c_email c) /\
       out !! "x-user-roles" = JSON.stringify_strings <$> Http.c_roles c /\
       out !! "authorization" = Http.headers req !! "authorization").
Proof.
  split; [|split; [|split]].
  - intros req proxyReq. apply forwardIdentity_other.
    unfold Gateway.identityHeaders. rewrite !elem_of_cons, elem_of_nil.
    intros [|[|[|[|[]]]]]; discriminate.
  - intros env svc req k Hk. apply outgoingHeaders_other. exact Hk.
  - intros svc req. rewrite outgoingHeaders_host. destruct svc; reflexivity.
  - intros env svc c req. eexists. split; [reflexivity|]. intros out.
    subst out.
    rewrite !outgoingHeaders_other
      by (apply derived_not_hop; rewrite !elem_of_cons; auto 6).
    cbn [Http.headers].
    rewrite inject_lookup_id, inject_lookup_email, inject_lookup_roles.
    rewrite inject_lookup_other by discriminate. auto.
Qed.

(** C2 as stated fails: the request that the verification callback has
    authenticated leaves the gateway with the client's bearer token. *)
Lemma C2_authorization_header_is_forwarded :
  let c := Http.mkClaims (JS.js "u1") (JS.js "a@b.com") (JS.js "Ann")
             (Some [JS.js "manager"]) in
  let req := Http.mkRequest (JS.js "/api/v1/orders/projects")
               {[ "authorization" := JS.js "Bearer abc.def.ghi" ]} ∅ None in
  exists req',
    Gateway.verifyCallback (D := unit) (Http.Verified c) req = Http.Next req' /\
    Gateway.outgoingHeaders (Gateway.services ∅ Gateway.OrdersService) req'
      !! "authorization" = Some (JS.js "Bearer abc.def.ghi").
Proof. eexists. split; reflexivity. Qed.

(** ** Re-authentication in the orders service *)

Section ReAuthentication.
Import JS JSON Http.
Context {D : Type}.
Variable verify : verifier.

Lemma truthy_nonempty (s : jsstring) : JS.truthy s = true <-> s <> [].
Proof. destruct s; simpl; split; congruence. Qed.

Lemma truthy_empty (s : jsstring) : JS.truthy s = false <-> s = [].
Proof. destruct s; simpl; split; congruence. Qed.

(** [h || ''] is the header, or the empty string when it is absent. *)
Lemma emailOf_default (hs : gmap string jsstring) :
  Orders.emailOf hs = default [] (hs !! "x-user-email").
Proof.
  unfold Orders.emailOf. destruct (hs !! "x-user-email") as [[|c e]|]; reflexivity.
Qed.

Lemma userFromHeaders_parsed (hs : gmap string jsstring) xid r v :
  hs !! "x-user-roles" = Some r -> r <> [] -> parse r = Some v ->
  Orders.userFromHeaders hs xid
  = Some {| id := xid; email := Orders.emailOf hs; roles := Some v |}.
Proof.
  intros Hr Hne Hp. unfold Orders.userFromHeaders.
  rewrite Hr, Hp. apply truthy_nonempty in Hne. rewrite Hne. reflexivity.
Qed.

Lemma userFromHeaders_default (hs : gmap string jsstring) xid :
  hs !! "x-user-roles" = None \/ hs !! "x-user-roles" = Some [] ->
  Orders.userFromHeaders hs xid
  = Some {| id := xid; email := Orders.emailOf hs; roles := Some Orders.engineer |}.
Proof.
  unfold Orders.userFromHeaders. intros [-> | ->]; reflexivity.
Qed.

Lemma userFromHeaders_malformed (hs : gmap string jsstring) xid r :
  hs !! "x-user-roles" = Some r -> r <> [] -> parse r = None ->
  Orders.userFromHeaders hs xid = None.
Proof.
  intros Hr Hne Hp. unfold Orders.userFromHeaders.
  rewrite Hr, Hp. apply truthy_nonempty in Hne. rewrite Hne. reflexivity.
Qed.

Lemma headersPath_some (hs : gmap string jsstring) xid :
  hs !! "x-user-id" = Some xid -> xid <> [] ->
  Orders.headersPath hs = Orders.userFromHeaders hs xid.
Proof.
  intros Hx Hne. unfold Orders.headersPath. rewrite Hx.
  apply truthy_nonempty in Hne. rewrite Hne. reflexivity.
Qed.

(** The headers path reads three headers only. *)
Lemma headersPath_ext (hs hs' : gmap string jsstring) :
  hs !! "x-user-id" = hs' !! "x-user-id" ->
  hs !! "x-user-email" = hs' !! "x-user-email" ->
  hs !! "x-user-roles" = hs' !! "x-user-roles" ->
  Orders.headersPath hs = Orders.headersPath hs'.
Proof.
  intros Hid Hemail Hroles.
  unfold Orders.headersPath, Orders.userFromHeaders, Orders.emailOf.
  rewrite Hid, Hemail, Hroles. reflexivity.
Qed.

(** The headers path gives nothing exactly when the subject header is
    absent or empty, or the roles header is there and is not JSON. *)
Lemma headersPath_none (hs : gmap string jsstring) :
  Orders.headersPath hs = None <->
  (hs !! "x-user-id" = None \/ hs !! "x-user-id" = Some []) \/
  (exists r, hs !! "x-user-roles" = Some r /\ r <> [] /\ parse r = None).
Proof.
  unfold Orders.headersPath, Orders.userFromHeaders. split.
  - destruct (hs !! "x-user-id") as [[|c xid]|]; cbn [JS.truthy]; auto.
    destruct (hs !! "x-user-roles") as [[|d r]|]; cbn [JS.truthy];
      try discriminate.
    destruct (parse (d :: r)) eqn:Hp; [discriminate|].
    intros _. right. exists (d :: r). auto.
  - intros [[-> | ->] | (r & Hr & Hne & Hp)]; [reflexivity..|].
    destruct (hs !! "x-user-id") as [[|c xid]|]; cbn [JS.truthy]; auto.
    rewrite Hr, Hp. apply truthy_nonempty in Hne. rewrite Hne. reflexivity.
Qed.

Lemma tokenOrDefault_verified (req : request) token decoded :
  presentedToken (headers req) = Some token ->
  verify token = Verified decoded ->
  Orders.tokenOrDefault (D := D) verify req
  = Next (setUser req (Orders.userFromToken decoded)).
Proof.
  unfold presentedToken, Orders.tokenOrDefault. intros Ht Hv.
  destruct (bearerToken (headers req)) as [t|]; [|discriminate].
  destruct (JS.truthy t); [|discriminate].
  injection Ht as ->. rewrite Hv. reflexivity.
Qed.

Lemma tokenOrDefault_default (req : request) :
  presentedToken (headers req) = None \/
  (exists token e,
     presentedToken (headers req) = Some token /\ verify token = Rejected e) ->
  Orders.tokenOrDefault (D := D) verify req
  = Next (setUser req Orders.defaultUser).
Proof.
  unfold presentedToken, Orders.tokenOrDefault.
  destruct (bearerToken (headers req)) as [t|].
  - destruct (JS.truthy t).
    + intros [Hn | (token & e & Ht & Hv)]; [discriminate|].
      injection Ht as ->. rewrite Hv. reflexivity.
    + reflexivity.
  - reflexivity.
Qed.

(** The middleware never denies: it always calls [next()] with some
    identity. *)
Lemma orders_never_denies (req : request) :
  exists u, Orders.authenticateToken (D := D) verify req = Next (setUser req u).
Proof.
  unfold Orders.authenticateToken, Orders.tokenOrDefault.
  destruct (Orders.headersPath (headers req)) as [u|]; [eauto|].
  destruct (bearerToken (headers req)) as [t|]; [|eauto].
  destruct (JS.truthy t); [|eauto].
  destruct (verify t); eauto.
Qed.

End ReAuthentication.

(** C3, as the code has it. The orders service's [authenticateToken] tries
    three strategies in order and always lets the request proceed:
    (1) when [x-user-id] is non-empty and [x-user-roles] is absent, empty or
    valid JSON, the identity is built from the headers, whatever the
    Authorization header holds and whatever its verification would say;
    (2) otherwise, that is when [x-user-id] is absent or empty or
    [x-user-roles] is not valid JSON, a presented token that verifies gives
    the identity; (3) otherwise the fixed placeholder identity with the role
    engineer is assigned. *)
Theorem C3_three_strategies_in_order :
  forall (verify : Http.verifier) (req : Http.request),
    let hs := Http.headers req in
    let result := Orders.authenticateToken (D := unit) verify req in
    (forall xid, hs !! "x-user-id" = Some xid -> xid <> [] ->
       (forall r v, hs !! "x-user-roles" = Some r -> r <> [] ->
          JSON.parse r = Some v ->
          result = Http.Next (Http.setUser req
                     (Http.mkIdentity xid (Orders.emailOf hs) (Some v)))) /\
       (hs !! "x-user-roles" = None \/ hs !! "x-user-roles" = Some [] ->
          result = Http.Next (Http.setUser req
                     (Http.mkIdentity xid (Orders.emailOf hs) (Some Orders.engineer))))) /\
    (Orders.headersPath hs = None <->
       (hs !! "x-user-id" = None \/ hs !! "x-user-id" = Some []) \/
       (exists r, hs !! "x-user-roles" = Some r /\ r <> [] /\
                  JSON.parse r = None)) /\
    (Orders.headersPath hs = None ->
       forall token decoded,
         Http.presentedToken hs = Some token ->
         verify token = Http.Verified decoded ->
         result = Http.Next (Http.setUser req (Orders.userFromToken decoded))) /\
    (Orders.headersPath hs = None ->
       Http.presentedToken hs = None \/
       (exists token e, Http.presentedToken hs = Some token /\
                        verify token = Http.Rejected e) ->
       result = Http.Next (Http.setUser req Orders.defaultUser)) /\
    (exists u, result = Http.Next (Http.setUser req u)).
Proof.
  intros verify req hs result. subst hs result.
  unfold Orders.authenticateToken. repeat split.
  - intros r v Hr Hne Hp.
    rewrite (headersPath_some _ xid) by assumption.
    rewrite (userFromHeaders_parsed _ xid r v) by assumption. reflexivity.
  - intros Hr. rewrite (headersPath_some _ xid) by assumption.
    rewrite userFromHeaders_default by assumption. reflexivity.
  - apply headersPath_none.
  - apply headersPath_none.
  - intros Hh token decoded Ht Hv. rewrite Hh.
    apply (tokenOrDefault_verified verify req token); assumption.
  - intros Hh Ht. rewrite Hh. apply tokenOrDefault_default. assumption.
  - apply (orders_never_denies verify req).
Qed.

(** C3 as stated fails: with a non-empty [x-user-id] and an [x-user-roles]
    header that is not JSON the headers do not win. Without a token the
    placeholder identity is assigned, and with a valid token the identity
    is the token's. *)
Lemma C3_malformed_roles_header_falls_through :
  let hs : gmap string jsstring :=
    {[ "x-user-id" := JS.js "u1"; "x-user-roles" := JS.js "manager" ]} in
  let direct := Http.mkRequest (JS.js "/api/v1/orders/projects") hs ∅ None in
  let withToken := Http.mkRequest (JS.js "/api/v1/orders/projects")
                     (<["authorization" := JS.js "Bearer t2"]> hs) ∅ None in
  let other := Http.mkClaims (JS.js "u2") (JS.js "b@c.org") (JS.js "Bob")
                 (Some [JS.js "admin"]) in
  Orders.authenticateToken (D := unit)
    (fun _ => Http.Rejected Http.JsonWebTokenError) direct
  = Http.Next (Http.setUser direct Orders.defaultUser) /\
  Orders.authenticateToken (D := unit) (fun _ => Http.Verified other) withToken
  = Http.Next (Http.setUser withToken
      (Http.mkIdentity (JS.js "u2") (JS.js "b@c.org")
         (Some (JSON.JArr [JSON.JStr (JS.js "admin")])))).
Proof. split; vm_compute; reflexivity. Qed.

(** The three strategies at work: headers with a JSON role list win over a
    token that does not verify; headers without roles get the baseline
    role; without headers a token that verifies gives the identity; and
    without headers and with a token that does not verify the placeholder
    identity is assigned. *)
Lemma C3_strategies_at_work :
  let bad : Http.verifier := fun _ => Http.Rejected Http.JsonWebTokenError in
  let bob := Http.mkClaims (JS.js "u2") (JS.js "b@c.org") (JS.js "Bob")
               (Some [JS.js "admin"]) in
  let good : Http.verifier := fun _ => Http.Verified bob in
  let hs : gmap string jsstring :=
    {[ "x-user-id" := JS.js "u1"; "x-user-email" := JS.js "a@b.com";
       "x-user-roles" := JSON.stringify_strings [JS.js "manager"];
       "authorization" := JS.js "Bearer bad" ]} in
  let req := Http.mkRequest (JS.js "/api/v1/orders/projects") hs ∅ None in
  let bare := Http.mkRequest (JS.js "/api/v1/orders/projects")
                {[ "x-user-id" := JS.js "u1" ]} ∅ None in
  let direct := Http.mkRequest (JS.js "/api/v1/orders/projects")
                  {[ "authorization" := JS.js "Bearer t" ]} ∅ None in
  Orders.authenticateToken (D := unit) bad req
  = Http.Next (Http.setUser req
      (Http.mkIdentity (JS.js "u1") (Orders.emailOf hs)
         (Some (JSON.JArr [JSON.JStr (JS.js "manager")])))) /\
  Orders.authenticateToken (D := unit) bad bare
  = Http.Next (Http.setUser bare
      (Http.mkIdentity (JS.js "u1") (Orders.emailOf (Http.headers bare))
         (Some Orders.engineer))) /\
  Orders.authenticateToken (D := unit) good direct
  = Http.Next (Http.setUser direct (Orders.userFromToken bob)) /\
  Orders.authenticateToken (D := unit) bad direct
  = Http.Next (Http.setUser direct Orders.defaultUser).
Proof.
  intros bad bob good hs req bare direct.
  pose proof (C3_three_strategies_in_order bad req) as (H1 & _).
  pose proof (C3_three_strategies_in_order bad bare) as (H2 & _).
  pose proof (C3_three_strategies_in_order good direct) as (_ & _ & H3 & _).
  pose proof (C3_three_strategies_in_order bad direct) as (_ & _ & _ & H4 & _).
  split; [|split; [|split]].
  - refine (proj1 (H1 (JS.js "u1") _ _)
              (JSON.stringify_strings [JS.js "manager"]) _ _ _ _);
      solve [reflexivity | discriminate].
  - refine (proj2 (H2 (JS.js "u1") _ _) _);
      solve [reflexivity | discriminate | left; reflexivity].
  - refine (H3 _ (JS.js "t") bob _ _); reflexivity.
  - refine (H4 _ _); [reflexivity|].
    right. exists (JS.js "t"), Http.JsonWebTokenError. split; reflexivity.
Defined.

(** ** Token verification failures *)

Section TokenFailures.
Import JS JSON Http.
Variable verify : verifier.

Lemma users_token_required (req : request) :
  presentedToken (headers req) = None ->
  Users.authenticateToken (D := unit) verify req
  = Respond (reject 401 "TOKEN_REQUIRED" "Требуется токен авторизации").
Proof.
  unfold Users.authenticateToken, presentedToken. intros Htok.
  destruct (bearerToken (headers req)) as [token|]; [|reflexivity].
  destruct (JS.truthy token); [discriminate | reflexivity].
Qed.

Lemma users_token_invalid (req : request) token e :
  presentedToken (headers req) = Some token ->
  verify token = Rejected e ->
  Users.authenticateToken (D := unit) verify req
  = Respond (reject 403 "INVALID_TOKEN" "Неверный или просроченный токен").
Proof.
  unfold Users.authenticateToken, presentedToken. intros Htok Hv.
  destruct (bearerToken (headers req)) as [t|]; [|discriminate].
  destruct (JS.truthy t); [|discriminate].
  injection Htok as ->. rewrite Hv. reflexivity.
Qed.

Lemma users_token_verified (req : request) token c :
  presentedToken (headers req) = Some token ->
  verify token = Verified c ->
  Users.authenticateToken (D := Users.users_data) verify req
  = Next (setUser req (user_of_claims c)).
Proof.
  unfold Users.authenticateToken, presentedToken. intros Htok Hv.
  destruct (bearerToken (headers req)) as [t|]; [|discriminate].
  destruct (JS.truthy t); [|discriminate].
  injection Htok as ->. rewrite Hv. reflexivity.
Qed.

End TokenFailures.

(** C4, as the code has it. Token verification does not tell its failure
    kinds apart: whatever error [jwt.verify] reports (expired, bad
    signature, not yet valid), the gateway's callback and the users
    service's middleware answer 403 with the one code INVALID_TOKEN; a
    request that presents no token is answered 401 with TOKEN_REQUIRED.
    The gateway's middleware does the same for a path outside its
    allow-list. *)
Theorem C4_verification_failures_are_collapsed :
  (forall e req,
     Gateway.verifyCallback (D := unit) (Http.Rejected e) req
     = Http.Respond (Http.reject 403 "INVALID_TOKEN"
                       "Неверный или просроченный токен")) /\
  (forall (verify : Http.verifier) req token e,
     Http.presentedToken (Http.headers req) = Some token ->
     verify token = Http.Rejected e ->
     Users.authenticateToken (D := unit) verify req
     = Http.Respond (Http.reject 403 "INVALID_TOKEN"
                       "Неверный или просроченный токен") /\
     (Gateway.isPublic (Http.path req) = false ->
      Gateway.authenticateToken (D := unit) verify req
      = Http.Respond (Http.reject 403 "INVALID_TOKEN"
                        "Неверный или просроченный токен"))) /\
  (forall (verify : Http.verifier) req,
     Http.presentedToken (Http.headers req) = None ->
     Users.authenticateToken (D := unit) verify req
     = Http.Respond (Http.reject 401 "TOKEN_REQUIRED"
                       "Требуется токен авторизации") /\
     (Gateway.isPublic (Http.path req) = false ->
      Gateway.authenticateToken (D := unit) verify req
      = Http.Respond (Http.reject 401 "TOKEN_REQUIRED"
                        "Требуется токен авторизации"))).
Proof.
  split; [|split].
  - reflexivity.
  - intros verify req token e Ht Hv. split.
    + apply (users_token_invalid verify req token e); assumption.
    + intros Hp. apply (gateway_token_invalid verify req token e); assumption.
  - intros verify req Ht. split.
    + apply users_token_required. assumption.
    + intros Hp. apply gateway_token_required; assumption.
Qed.

(** C4 as stated fails: an expired token is answered with INVALID_TOKEN,
    not TOKEN_EXPIRED, and with status 403, not 401, by the users service
    and by the gateway's verification callback. *)
Lemma C4_expired_token_is_invalid_token_403 :
  let verify : Http.verifier := fun _ => Http.Rejected Http.TokenExpiredError in
  let req := Http.mkRequest (JS.js "/api/v1/users/profile")
               {[ "authorization" := JS.js "Bearer expired.token.x" ]} ∅ None in
  Http.errorCode (Users.authenticateToken (D := unit) verify req)
  = Some "INVALID_TOKEN" /\
  Http.statusOf (Users.authenticateToken (D := unit) verify req) = Some 403 /\
  Http.errorCode (Gateway.verifyCallback (D := unit)
                    (verify (JS.js "expired.token.x")) req)
  = Some "INVALID_TOKEN" /\
  Http.statusOf (Gateway.verifyCallback (D := unit)
                   (verify (JS.js "expired.token.x")) req) = Some 403.
Proof. repeat split; vm_compute; reflexivity. Qed.

(** The collapse at work: an expired token and a forged one get the same
    answer from the users service; so they do from the gateway when the
    request target is not a path that starts with a slash; and a request
    without a token is answered 401 by both. *)
Lemma C4_failures_at_work :
  let expired : Http.verifier := fun _ => Http.Rejected Http.TokenExpiredError in
  let forged : Http.verifier := fun _ => Http.Rejected Http.JsonWebTokenError in
  let hs : gmap string jsstring :=
    {[ "authorization" := JS.js "Bearer some.token.x" ]} in
  let req := Http.mkRequest (JS.js "/api/v1/users/profile") hs ∅ None in
  let star := Http.mkRequest (JS.js "*") hs ∅ None in
  let bare := Http.mkRequest (JS.js "*") ∅ ∅ None in
  Users.authenticateToken (D := unit) expired req
  = Users.authenticateToken (D := unit) forged req /\
  Gateway.authenticateToken (D := unit) expired star
  = Gateway.authenticateToken (D := unit) forged star /\
  Http.statusOf (Users.authenticateToken (D := unit) expired bare) = Some 401 /\
  Http.statusOf (Gateway.authenticateToken (D := unit) expired bare) = Some 401.
Proof.
  intros expired forged hs req star bare.
  pose proof C4_verification_failures_are_collapsed as (_ & Hbad & Hnone).
  split; [|split; [|split]].
  - rewrite (proj1 (Hbad expired req (JS.js "some.token.x")
                      Http.TokenExpiredError eq_refl eq_refl)).
    rewrite (proj1 (Hbad forged req (JS.js "some.token.x")
                      Http.JsonWebTokenError eq_refl eq_refl)).
    reflexivity.
  - rewrite (proj2 (Hbad expired star (JS.js "some.token.x")
                      Http.TokenExpiredError eq_refl eq_refl) eq_refl).
    rewrite (proj2 (Hbad forged star (JS.js "some.token.x")
                      Http.JsonWebTokenError eq_refl eq_refl) eq_refl).
    reflexivity.
  - rewrite (proj1 (Hnone expired bare eq_refl)). reflexivity.
  - rewrite (proj2 (Hnone expired bare eq_refl) eq_refl). reflexivity.
Defined.

(** ** The role gate *)

Section RoleGate.
Import JS JSON Http.

Lemma eqb_sym (s t : jsstring) : JS.eqb s t = JS.eqb t s.
Proof.
  unfold JS.eqb. destruct (decide (s = t)) as [->|Hne].
  - reflexivity.
  - rewrite !bool_decide_eq_false_2; congruence.
Qed.

Lemma includes_strings (claimRoles : list jsstring) role :
  Roles.includes (roles_value claimRoles) role
  = Some (existsb (JS.eqb role) claimRoles).
Proof.
  unfold Roles.includes, roles_value. f_equal.
  induction claimRoles as [|s l IH]; [reflexivity|].
  cbn [List.map existsb]. rewrite IH, (eqb_sym s role). reflexivity.
Qed.

(** On a list of role names, [some] computes the intersection test. *)
Lemma some_strings (requiredRoles claimRoles : list jsstring) :
  Roles.some requiredRoles (roles_value claimRoles)
  = Some (Spec.intersects claimRoles requiredRoles).
Proof.
  unfold Spec.intersects.
  induction requiredRoles as [|r l IH]; [reflexivity|].
  cbn [Roles.some existsb]. rewrite includes_strings.
  destruct (existsb (JS.eqb r) claimRoles); [reflexivity|].
  rewrite IH. reflexivity.
Qed.

(** Every response of the gate is a 403 with the code FORBIDDEN. *)
Lemma authorizeRoles_denial {D : Type} requiredRoles (req : request)
    (res : response D) :
  Roles.authorizeRoles requiredRoles req = Respond res ->
  status res = 403 /\ exists message, body res = Failure "FORBIDDEN" message.
Proof.
  unfold Roles.authorizeRoles.
  destruct (user req) as [u|]; [|intros [= <-]; eauto].
  destruct (roles u) as [rs|]; [|intros [= <-]; eauto].
  destruct (truthy_value rs); cbn [negb]; [|intros [= <-]; eauto].
  destruct (Roles.some requiredRoles rs) as [[|]|]; try discriminate.
  intros [= <-]; eauto.
Qed.

(** Without required roles every request is denied. *)
Lemma authorizeRoles_nil {D : Type} (req : request) :
  exists message,
    Roles.authorizeRoles (D := D) [] req
    = Respond (reject 403 "FORBIDDEN" message).
Proof.
  unfold Roles.authorizeRoles.
  destruct (user req) as [u|]; [|eauto].
  destruct (roles u) as [rs|]; [|eauto].
  destruct (truthy_value rs); cbn [negb Roles.some]; eauto.
Qed.

End RoleGate.

(** C5, as the code has it. For a caller whose roles are a list of role
    names the gate lets the request through exactly when that list
    intersects the required roles, and otherwise answers 403 with the code
    FORBIDDEN; every response of the gate is such a denial; and with an
    empty set of required roles the gate denies every request. *)
Theorem C5_role_gate_is_intersection :
  (forall requiredRoles claimRoles (req : Http.request) u,
     Http.user req = Some u ->
     Http.roles u = Some (Http.roles_value claimRoles) ->
     Roles.authorizeRoles (D := unit) requiredRoles req
     = if Spec.intersects claimRoles requiredRoles
       then Http.Next req
       else Http.Respond (Http.reject 403 "FORBIDDEN" "Недостаточно прав")) /\
  (forall requiredRoles (req : Http.request) (res : Http.response unit),
     Roles.authorizeRoles requiredRoles req = Http.Respond res ->
     Http.status res = 403 /\
     exists message, Http.body res = Http.Failure "FORBIDDEN" message) /\
  (forall req : Http.request,
     exists message,
       Roles.authorizeRoles (D := unit) [] req
       = Http.Respond (Http.reject 403 "FORBIDDEN" message)).
Proof.
  split; [|split].
  - intros requiredRoles claimRoles req u Hu Hr.
    unfold Roles.authorizeRoles. rewrite Hu, Hr.
    cbn [JSON.truthy_value Http.roles_value negb].
    change (JSON.JArr (List.map JSON.JStr claimRoles))
      with (Http.roles_value claimRoles).
    rewrite some_strings.
    destruct (Spec.intersects claimRoles requiredRoles); reflexivity.
  - intros requiredRoles req res. apply authorizeRoles_denial.
  - intros req. apply authorizeRoles_nil.
Qed.

(** C5 as stated fails: with no required role the specification's gate
    allows an administrator, the code's gate answers 403 FORBIDDEN. *)
Lemma C5_empty_requirement_denies :
  let admin := Http.mkIdentity (JS.js "u1") (JS.js "a@b.com")
                 (Some (Http.roles_value [JS.js "admin"])) in
  let req := Http.mkRequest (JS.js "/api/v1/users") ∅ ∅ (Some admin) in
  Spec.allowed [JS.js "admin"] [] = true /\
  Roles.authorizeRoles (D := unit) [] req
  = Http.Respond (Http.reject 403 "FORBIDDEN" "Недостаточно прав").
Proof. split; reflexivity. Qed.

(** The gate at work on the listing route's requirement: a manager is
    denied with 403 FORBIDDEN, an administrator passes. *)
Lemma C5_gate_at_work :
  let manager := Http.mkIdentity (JS.js "u1") (JS.js "a@b.com")
                   (Some (Http.roles_value [JS.js "manager"])) in
  let admin := Http.mkIdentity (JS.js "u2") (JS.js "b@c.org")
                 (Some (Http.roles_value [JS.js "engineer"; JS.js "admin"])) in
  let req := Http.mkRequest (JS.js "/api/v1/users") ∅ ∅ (Some manager) in
  let req' := Http.mkRequest (JS.js "/api/v1/users") ∅ ∅ (Some admin) in
  Roles.authorizeRoles (D := unit) [JS.js "admin"] req
  = Http.Respond (Http.reject 403 "FORBIDDEN" "Недостаточно прав") /\
  Roles.authorizeRoles (D := unit) [JS.js "admin"] req' = Http.Next req' /\
  Http.status (Http.reject (D := unit) 403 "FORBIDDEN" "Недостаточно прав") = 403.
Proof.
  intros manager admin req req'.
  pose proof C5_role_gate_is_intersection as (Hgate & Hdeny & _).
  assert (Hm : Roles.authorizeRoles (D := unit) [JS.js "admin"] req
               = Http.Respond (Http.reject 403 "FORBIDDEN" "Недостаточно прав")).
  { apply (Hgate [JS.js "admin"] [JS.js "manager"] req manager); reflexivity. }
  split; [|split].
  - exact Hm.
  - apply (Hgate [JS.js "admin"] [JS.js "engineer"; JS.js "admin"] req' admin);
      reflexivity.
  - apply (Hdeny [JS.js "admin"] req _ Hm).
Defined.

(** ** The round trip of an identity through the headers *)

Section RoundTrip.
Import JS JSON Http.

Lemma stringify_strings_truthy (rs : list jsstring) :
  JS.truthy (stringify_strings rs) = true.
Proof. reflexivity. Qed.

(** The headers path reads back the claim set that [inject] wrote. *)
Lemma userFromHeaders_inject cid cemail cname (rs : list jsstring)
    (base : gmap string jsstring) :
  let c := mkClaims cid cemail cname (Some rs) in
  Orders.userFromHeaders (Gateway.inject c base) cid = Some (user_of_claims c).
Proof.
  intros c. unfold Orders.userFromHeaders, Orders.emailOf.
  rewrite inject_lookup_roles, inject_lookup_email.
  cbn [c_roles c_email c fmap option_fmap option_map].
  rewrite stringify_strings_truthy, JSONFacts.parse_stringify_strings.
  unfold user_of_claims. cbn [c_roles c_email c_id fmap option_fmap option_map].
  destruct cemail; reflexivity.
Qed.

End RoundTrip.

(** C6. For every claim set (subject id, email, list of roles): the orders
    service's headers path, run on the headers the gateway injected,
    rebuilds the claim set; and when the subject id is non-empty, which is
    what makes the orders service take the headers path, the request that
    the gateway's verification callback annotated and the proxy forwarded
    is given that same identity by the orders service's middleware. The
    hop from the proxy to the service is taken to deliver the header values
    as they were set. *)
Theorem C6_propagation_round_trip :
  forall cid cemail cname (rs : list jsstring),
    let c := Http.mkClaims cid cemail cname (Some rs) in
    (forall base : gmap string jsstring,
       Orders.userFromHeaders (Gateway.inject c base) cid
       = Some (Http.user_of_claims c)) /\
    (cid <> [] ->
     forall env svc (verify : Http.verifier) req p q,
       exists req1,
         Gateway.verifyCallback (D := unit) (Http.Verified c) req
         = Http.Next req1 /\
         let received :=
           Http.mkRequest p
             (Gateway.outgoingHeaders (Gateway.services env svc) req1) q None in
         Orders.authenticateToken (D := unit) verify received
         = Http.Next (Http.setUser received (Http.user_of_claims c))).
Proof.
  intros cid cemail cname rs c. split.
  - intros base. apply userFromHeaders_inject.
  - intros Hid env svc verify req p q. eexists. split; [reflexivity|].
    intros received. subst received.
    unfold Orders.authenticateToken. cbn [Http.headers].
    rewrite (headersPath_ext _ (Gateway.inject c (Http.headers req)))
      by (apply outgoingHeaders_other, derived_not_hop;
          rewrite !elem_of_cons; auto 6).
    rewrite (headersPath_some _ cid) by (auto using inject_lookup_id).
    rewrite (userFromHeaders_inject cid cemail cname rs). reflexivity.
Qed.

(** The round trip on the specification's example. *)
Lemma C6_round_trip_of_the_example :
  let c := Http.mkClaims (JS.js "u1") (JS.js "a@b.com") (JS.js "Ann")
             (Some [JS.js "manager"]) in
  let req := Http.mkRequest (JS.js "/api/v1/orders/projects")
               {[ "authorization" := JS.js "Bearer abc.def.ghi" ]} ∅ None in
  exists req1,
    Gateway.verifyCallback (D := unit) (Http.Verified c) req = Http.Next req1 /\
    let received :=
      Http.mkRequest (JS.js "/api/v1/orders/projects")
        (Gateway.outgoingHeaders (Gateway.services ∅ Gateway.OrdersService) req1)
        ∅ None in
    Orders.authenticateToken (D := unit)
      (fun _ => Http.Rejected Http.JsonWebTokenError) received
    = Http.Next (Http.setUser received
        (Http.mkIdentity (JS.js "u1") (JS.js "a@b.com")
           (Some (JSON.JArr [JSON.JStr (JS.js "manager")])))).
Proof.
  intros c req.
  apply (proj2 (C6_propagation_round_trip (JS.js "u1") (JS.js "a@b.com")
                  (JS.js "Ann") [JS.js "manager"])).
  discriminate.
Defined.

(** ** Request correlation *)

(** C7. The request-id middleware reuses a non-empty inbound [x-request-id]
    verbatim and otherwise takes a generated identifier (the tracer's, or a
    fresh UUID); the chosen identifier is non-empty as long as
    [crypto.randomUUID()] returns a non-empty string, and it is written to
    the request's headers and to the response's headers. *)
Theorem C7_request_id_is_assigned :
  forall (tracerId : option jsstring) (uuid : jsstring) (req : Http.request)
         (resHeaders : gmap string jsstring),
    uuid <> [] ->
    let requestId := Gateway.chooseRequestId tracerId uuid req in
    let result := Gateway.requestIdMiddleware tracerId uuid req resHeaders in
    (forall h, Http.headers req !! "x-request-id" = Some h -> h <> [] ->
               requestId = h) /\
    (JS.truthy_opt (Http.headers req !! "x-request-id") = false ->
       requestId = (if JS.truthy_opt tracerId then default uuid tracerId
                    else uuid)) /\
    requestId <> [] /\
    Http.headers (fst result) !! "x-request-id" = Some requestId /\
    snd result !! "x-request-id" = Some requestId.
Proof.
  intros tracerId uuid req resHeaders Huuid requestId result.
  subst requestId result. unfold Gateway.requestIdMiddleware.
  cbn [fst snd Http.setHeaders Http.headers]. rewrite !lookup_insert_eq.
  unfold Gateway.chooseRequestId.
  repeat split.
  - intros h -> Hne. apply truthy_nonempty in Hne. rewrite Hne. reflexivity.
  - destruct (Http.headers req !! "x-request-id") as [[|c h]|];
      cbn [JS.truthy_opt JS.truthy]; try discriminate;
      intros _; destruct tracerId as [[|d t]|]; reflexivity.
  - destruct (Http.headers req !! "x-request-id") as [[|c h]|];
      cbn [JS.truthy]; try discriminate;
      destruct tracerId as [[|d t]|]; cbn [JS.truthy];
      solve [assumption | discriminate].
Qed.

(** The middleware on a request with a correlation header and on one
    without. *)
Lemma C7_request_id_reused_or_generated :
  let uuid := JS.js "3b241101-e2bb-4255-8caf-4136c566a962" in
  let given := Http.mkRequest (JS.js "/health")
                 {[ "x-request-id" := JS.js "req-42" ]} ∅ None in
  let bare := Http.mkRequest (JS.js "/health") ∅ ∅ None in
  snd (Gateway.requestIdMiddleware None uuid given ∅) !! "x-request-id"
  = Some (Gateway.chooseRequestId None uuid given) /\
  Gateway.chooseRequestId None uuid given = JS.js "req-42" /\
  Gateway.chooseRequestId None uuid bare = uuid.
Proof.
  intros uuid given bare.
  pose proof (C7_request_id_is_assigned None uuid given ∅
                ltac:(discriminate)) as Hgiven.
  pose proof (C7_request_id_is_assigned None uuid bare ∅
                ltac:(discriminate)) as Hbare.
  split; [apply Hgiven|]. split.
  - apply (proj1 Hgiven (JS.js "req-42")); [reflexivity | discriminate].
  - apply (proj1 (proj2 Hbare)). reflexivity.
Defined.

(** ** Roles after authentication *)

Section RolesAfterAuthentication.
Import JS JSON Http.

Lemma nonEmptyRoles_engineer : Spec.nonEmptyRoles (Some Orders.engineer) = true.
Proof. reflexivity. Qed.



End RolesAfterAuthentication.




(** ** Upstream failures *)

(** C9, as the code has it. Neither service's proxy options set an error
    handler or a timeout, so an upstream failure is answered by the proxy
    library's own handler: a gateway-failure status (504 for a refused or
    reset connection or an unknown host) with a plain-text body, without
    the error envelope and without any error code. *)
Theorem C9_upstream_failure_left_to_the_library :
  forall env svc e req,
    Gateway.onError (Gateway.services env svc) = None /\
    Gateway.timeout (Gateway.services env svc) = None /\
    Gateway.proxyTimeout (Gateway.services env svc) = None /\
    Gateway.upstreamFailure (Gateway.services env svc) e req
    = inr (Gateway.defaultErrorHandler e req) /\
    (e <> Gateway.OtherError ->
     Gateway.pf_status (Gateway.defaultErrorHandler e req) = 504).
Proof.
  intros env svc e req. destruct svc; repeat split;
    destruct e; try reflexivity; intros H; contradiction H; reflexivity.
Qed.

(** C9 as stated fails: for an orders service that refuses the connection
    the gateway's answer is the library's plain-text 504, which carries no
    error envelope, hence no code UPSTREAM_UNAVAILABLE. *)
Lemma C9_refused_connection_has_no_error_code :
  let req := Http.mkRequest (JS.js "/api/v1/orders/projects")
               {[ "host" := JS.js "localhost:3000" ]} ∅ None in
  Gateway.upstreamFailure (Gateway.services ∅ Gateway.OrdersService)
    Gateway.ECONNREFUSED req
  = inr (Gateway.ProxyFailure 504 (Some (JS.js "localhost:3000"))
           (JS.js "/api/v1/orders/projects")) /\
  Gateway.failureCode
    (Gateway.upstreamFailure (Gateway.services ∅ Gateway.OrdersService)
       Gateway.ECONNREFUSED req) = None.
Proof. split; reflexivity. Qed.

(** The status of the library's answer for an unknown host. *)
Lemma C9_unknown_host_is_504 :
  let req := Http.mkRequest (JS.js "/api/v1/users/profile") ∅ ∅ None in
  Gateway.pf_status (Gateway.defaultErrorHandler Gateway.ENOTFOUND req) = 504.
Proof.
  intros req.
  apply (C9_upstream_failure_left_to_the_library ∅ Gateway.UsersService
           Gateway.ENOTFOUND req).
  discriminate.
Defined.

(** ** The password hash never leaves the users service *)

Section PasswordHash.
Import JS JSON Http.

Lemma sameButHash_withoutPassword (u v : Users.stored_user) :
  Spec.sameButHash u v <-> Users.withoutPassword u = Users.withoutPassword v.
Proof.
  unfold Spec.sameButHash, Users.withoutPassword. split.
  - intros (-> & -> & -> & -> & -> & ->). reflexivity.
  - intros [=]. auto 7.
Qed.

Lemma sameRowButHash_select (r s : Users.row) :
  Spec.sameRowButHash r s <-> Users.select r = Users.select s.
Proof.
  unfold Spec.sameRowButHash, Users.select. split.
  - intros (-> & -> & -> & -> & -> & ->). reflexivity.
  - intros [=]. auto 7.
Qed.

(** Two lists related element by element stay so under a filter that
    cannot tell related elements apart. *)
Lemma Forall2_filter_same {A : Type} (R : A -> A -> Prop) (f : A -> bool)
    (l1 l2 : list A) :
  (forall x y, R x y -> f x = f y) ->
  Forall2 R l1 l2 -> Forall2 R (List.filter f l1) (List.filter f l2).
Proof.
  intros Hf. induction 1 as [|x y l1 l2 Hxy _ IH]; [constructor|].
  cbn [List.filter]. rewrite (Hf x y Hxy).
  destruct (f y); [constructor|]; assumption.
Qed.

Lemma Forall2_find_same {A : Type} (R : A -> A -> Prop) (f : A -> bool)
    (l1 l2 : list A) :
  (forall x y, R x y -> f x = f y) ->
  Forall2 R l1 l2 -> option_Forall2 R (List.find f l1) (List.find f l2).
Proof.
  intros Hf. induction 1 as [|x y l1 l2 Hxy _ IH]; [constructor|].
  cbn [List.find]. rewrite (Hf x y Hxy).
  destruct (f y); [constructor|]; assumption.
Qed.

Lemma Forall2_map_same {A B : Type} (R : A -> A -> Prop) (g : A -> B)
    (l1 l2 : list A) :
  (forall x y, R x y -> g x = g y) ->
  Forall2 R l1 l2 -> List.map g l1 = List.map g l2.
Proof.
  intros Hg. induction 1 as [|x y l1 l2 Hxy _ IH]; [reflexivity|].
  cbn [List.map]. rewrite (Hg x y Hxy), IH. reflexivity.
Qed.

Lemma Forall2_slice {A : Type} (R : A -> A -> Prop) (l1 l2 : list A) i j :
  Forall2 R l1 l2 -> Forall2 R (Users.slice l1 i j) (Users.slice l2 i j).
Proof.
  intros H. unfold Users.slice. rewrite (Forall2_length _ _ _ H).
  apply Forall2_take, Forall2_drop, H.
Qed.

Variable verify : verifier.
Variables users1 users2 : list Users.stored_user.
Hypothesis Hsame : Forall2 Spec.sameButHash users1 users2.

Lemma profileHandler_same (req : request) :
  Users.profileHandler users1 req = Users.profileHandler users2 req.
Proof.
  unfold Users.profileHandler. destruct (user req) as [me|]; [|reflexivity].
  pose proof (Forall2_find_same Spec.sameButHash
                (fun u => JS.eqb (Users.u_id u) (id me)) users1 users2) as Hf.
  destruct Hf as [u v Huv|]; [|assumption| |reflexivity].
  - intros x y (Hid & _). rewrite Hid. reflexivity.
  - apply sameButHash_withoutPassword in Huv. rewrite Huv. reflexivity.
Qed.

Lemma listHandler_same (req : request) :
  Users.listHandler users1 req = Users.listHandler users2 req.
Proof.
  unfold Users.listHandler.
  set (filtered1 := match query req !! "role" with
                    | Some role => if JS.truthy role then _ else users1
                    | None => users1 end).
  set (filtered2 := match query req !! "role" with
                    | Some role => if JS.truthy role then _ else users2
                    | None => users2 end).
  assert (Hf : Forall2 Spec.sameButHash filtered1 filtered2).
  { subst filtered1 filtered2.
    destruct (query req !! "role") as [role|]; [|assumption].
    destruct (JS.truthy role); [|assumption].
    apply Forall2_filter_same; [|assumption].
    intros x y (_ & _ & _ & Hr & _). rewrite Hr. reflexivity. }
  rewrite (Forall2_length _ _ _ Hf).
  match goal with
  | |- context [List.map _ (Users.slice filtered1 ?i ?j)] =>
      rewrite (Forall2_map_same Spec.sameButHash Users.withoutPassword
                 (Users.slice filtered1 i j) (Users.slice filtered2 i j))
  end.
  - reflexivity.
  - intros x y. apply sameButHash_withoutPassword.
  - apply Forall2_slice, Hf.
Qed.

End PasswordHash.

(** C10. The profile and the listing routes of the users service answer
    two stores that differ only in password hashes alike, for every
    request and every outcome of token verification, and so does the
    repository's [findById] for two tables that differ only in the
    [password_hash] column: no response depends on a stored hash. *)
Theorem C10_responses_do_not_depend_on_password_hashes :
  forall (verify : Http.verifier) (users1 users2 : list Users.stored_user)
         (table1 table2 : list Users.row) (req : Http.request) uid,
    Forall2 Spec.sameButHash users1 users2 ->
    Forall2 Spec.sameRowButHash table1 table2 ->
    Users.getProfile verify users1 req = Users.getProfile verify users2 req /\
    Users.getUsers verify users1 req = Users.getUsers verify users2 req /\
    Users.findById table1 uid = Users.findById table2 uid.
Proof.
  intros verify users1 users2 table1 table2 req uid Husers Htable.
  repeat split.
  - unfold Users.getProfile.
    destruct (Users.authenticateToken verify req) as [req1| |]; try reflexivity.
    apply profileHandler_same. assumption.
  - unfold Users.getUsers.
    destruct (Users.authenticateToken verify req) as [req1| |]; try reflexivity.
    cbn [Users.andThen].
    destruct (Roles.authorizeRoles [JS.js "admin"] req1) as [req2| |];
      try reflexivity.
    apply listHandler_same. assumption.
  - unfold Users.findById.
    pose proof (Forall2_find_same Spec.sameRowButHash
                  (fun r => JS.eqb (Users.r_id r) uid) table1 table2) as Hf.
    destruct Hf as [r s Hrs|]; [|assumption| |reflexivity].
    + intros x y (Hid & _). rewrite Hid. reflexivity.
    + apply sameRowButHash_select in Hrs. cbn. rewrite Hrs. reflexivity.
Qed.

(** Two stores that hold the same administrator under different password
    hashes answer her profile request and her listing request alike. *)
Lemma C10_same_answers_for_different_hashes :
  let ann (hash : jsstring) :=
    Users.StoredUser (JS.js "u1") (JS.js "a@b.com") hash (JS.js "Ann")
      [JS.js "admin"] (JS.js "2024-01-01T00:00:00.000Z")
      (JS.js "2024-01-01T00:00:00.000Z") in
  let row (hash : jsstring) :=
    Users.Row (JS.js "u1") (JS.js "a@b.com") hash (JS.js "Ann")
      [JS.js "admin"] (JS.js "2024-01-01") (JS.js "2024-01-01") in
  let verify : Http.verifier := fun _ =>
    Http.Verified (Users.tokenPayload (ann (JS.js "$2b$10$first"))) in
  let req := Http.mkRequest (JS.js "/api/v1/users/profile")
               {[ "authorization" := JS.js "Bearer t" ]}
               {[ "page" := JS.js "1" ]} None in
  Users.getProfile verify [ann (JS.js "$2b$10$first")] req
  = Users.getProfile verify [ann (JS.js "$2b$10$second")] req /\
  Users.getUsers verify [ann (JS.js "$2b$10$first")] req
  = Users.getUsers verify [ann (JS.js "$2b$10$second")] req /\
  Users.findById [row (JS.js "$2b$10$first")] (JS.js "u1")
  = Users.findById [row (JS.js "$2b$10$second")] (JS.js "u1").
Proof.
  intros ann row verify req.
  apply C10_responses_do_not_depend_on_password_hashes.
  - repeat constructor.
  - repeat constructor.
Defined.

(** * Further properties of the code *)

(** ** The bearer token *)

Section BearerToken.
Import JS JSON Http.

Lemma split_no_separator sep (s : jsstring) :
  sep ∉ s -> JS.split sep s = [s].
Proof.
  induction s as [|c s IH]; intros Hs; [reflexivity|].
  cbn [JS.split]. destruct (N.eqb_spec c sep) as [->|Hc].
  - exfalso. apply Hs. left.
  - rewrite IH; [reflexivity|]. intros Hin. apply Hs. right. assumption.
Qed.

Lemma split_at_separator sep (a b : jsstring) :
  sep ∉ a -> JS.split sep (a ++ sep :: b) = a :: JS.split sep b.
Proof.
  induction a as [|c a IH]; intros Ha.
  - cbn [app JS.split]. rewrite N.eqb_refl. reflexivity.
  - cbn [app JS.split]. destruct (N.eqb_spec c sep) as [->|Hc].
    + exfalso. apply Ha. left.
    + rewrite IH; [reflexivity|]. intros Hin. apply Ha. right. assumption.
Qed.

(** No piece of a split holds the separator. *)
Lemma split_pieces sep (s : jsstring) :
  Forall (fun piece => sep ∉ piece) (JS.split sep s).
Proof.
  induction s as [|c s IH].
  - constructor; [|constructor]. apply not_elem_of_nil.
  - cbn [JS.split]. destruct (N.eqb_spec c sep) as [->|Hc].
    + constructor; [apply not_elem_of_nil | assumption].
    + destruct (JS.split sep s) as [|h t].
      * constructor; [|constructor]. intros Hin.
        apply list_elem_of_singleton in Hin. congruence.
      * inversion IH as [|? ? Hh Ht]; subst. constructor; [|assumption].
        intros [Heq|Hin]%elem_of_cons; [congruence | contradiction].
Qed.

(** A header made of a scheme word, a space and a token presents the
    token. *)
Lemma presentedToken_of_header (hs : gmap string jsstring) scheme token :
  32 ∉ scheme -> 32 ∉ token -> token <> [] ->
  hs !! "authorization" = Some (scheme ++ 32 :: token) ->
  presentedToken hs = Some token.
Proof.
  unfold presentedToken, bearerToken. intros Hs Ht Hne ->.
  replace (JS.truthy (scheme ++ 32 :: token)) with true
    by (destruct scheme; reflexivity).
  rewrite split_at_separator, split_no_separator by assumption.
  cbn [lookup list_lookup].
  apply truthy_nonempty in Hne. rewrite Hne. reflexivity.
Qed.

End BearerToken.

(** X1. The token that the middlewares hand to [jwt.verify] is never empty
    and never holds a space; and for a header made of a scheme word, one
    space and a non-empty token without spaces, it is that token, whatever
    the scheme word is. *)
Theorem X1_presented_token :
  forall hs : gmap string jsstring,
    (forall token, Http.presentedToken hs = Some token ->
                   token <> [] /\ 32 ∉ token) /\
    (forall scheme token,
       32 ∉ scheme -> 32 ∉ token -> token <> [] ->
       hs !! "authorization" = Some (scheme ++ 32 :: token) ->
       Http.presentedToken hs = Some token).
Proof.
  intros hs. unfold Http.presentedToken, Http.bearerToken. split.
  - intros token. destruct (hs !! "authorization") as [a|]; [|discriminate].
    destruct (JS.truthy a) eqn:Ha.
    + destruct (JS.split 32 a !! 1%nat) as [t|] eqn:Ht; [|discriminate].
      destruct (JS.truthy t) eqn:Htr; [|discriminate].
      intros [= <-]. split; [apply truthy_nonempty; assumption|].
      pose proof (split_pieces 32 a) as Hall.
      rewrite Forall_lookup in Hall. apply (Hall _ _ Ht).
    + rewrite Ha. discriminate.
  - intros scheme token. apply presentedToken_of_header.
Qed.

(** The extraction on a Bearer header and on a Basic header. *)
Lemma X1_scheme_is_not_checked :
  Http.presentedToken {[ "authorization" := JS.js "Bearer abc.def.ghi" ]}
  = Some (JS.js "abc.def.ghi") /\
  Http.presentedToken {[ "authorization" := JS.js "Basic dXNlcjpwdw" ]}
  = Some (JS.js "dXNlcjpwdw") /\
  JS.js "abc.def.ghi" <> [].
Proof.
  split; [|split].
  - apply (proj2 (X1_presented_token _) (JS.js "Bearer") (JS.js "abc.def.ghi"));
      [compute_done | compute_done | discriminate | reflexivity].
  - apply (proj2 (X1_presented_token _) (JS.js "Basic") (JS.js "dXNlcjpwdw"));
      [compute_done | compute_done | discriminate | reflexivity].
  - apply (proj1 (X1_presented_token
                    {[ "authorization" := JS.js "Bearer abc.def.ghi" ]})
             (JS.js "abc.def.ghi")).
    reflexivity.
Defined.

(** ** Routing and correlation at the gateway *)

Section GatewayRouting.
Import JS JSON Http.

Lemma lower_slash c : lower c = 47 -> c = 47.
Proof.
  unfold lower. destruct ((65 <=? c) && (c <=? 90)) eqn:Hc; [|auto].
  apply andb_true_iff in Hc as [H1 _]. apply N.leb_le in H1. lia.
Qed.

Lemma mounted_cons m mount c p :
  Gateway.mounted (m :: mount) (c :: p) = true ->
  lower m = lower c /\ Gateway.mounted mount p = true.
Proof.
  cbn [Gateway.mounted]. intros [H1 H2]%andb_true_iff.
  apply N.eqb_eq in H1. auto.
Qed.

(** A path mounted under a prefix that starts with a slash starts with a
    slash. *)
Lemma mounted_slash mount p :
  Gateway.mounted (47 :: mount) p = true -> exists p', p = 47 :: p'.
Proof.
  destruct p as [|c p]; [discriminate|].
  intros [Hc _]%mounted_cons. symmetry in Hc. apply lower_slash in Hc.
  subst. eauto.
Qed.

(** No path is mounted under both services. *)
Lemma mounts_exclusive p :
  Gateway.mounted (js "/api/v1/orders") p = true ->
  Gateway.mounted (js "/api/v1/users") p = false.
Proof.
  intros Ho. destruct (Gateway.mounted (js "/api/v1/users") p) eqn:Hu;
    [exfalso | reflexivity].
  change (js "/api/v1/orders")
    with ([47; 97; 112; 105; 47; 118; 49; 47] ++ js "orders") in Ho.
  change (js "/api/v1/users")
    with ([47; 97; 112; 105; 47; 118; 49; 47] ++ js "users") in Hu.
  cbn [app] in Ho, Hu.
  do 8 (destruct p as [|? p]; [discriminate|];
        apply mounted_cons in Ho as [_ Ho];
        apply mounted_cons in Hu as [_ Hu]).
  destruct p as [|c p]; [discriminate|].
  apply mounted_cons in Ho as [Ho _]. apply mounted_cons in Hu as [Hu _].
  rewrite <- Ho in Hu. discriminate.
Qed.

(** For a path that starts with a slash the gateway only routes: it hands
    the request to a proxy, or answers 404. *)
Lemma dispatch_slash env (verify : verifier) (req : request) p :
  path req = 47 :: p ->
  Gateway.dispatch env verify req
  = if Gateway.mounted (js "/api/v1/users") (path req)
    then Gateway.Proxied Gateway.UsersService
           (Gateway.outgoingHeaders (Gateway.services env Gateway.UsersService)
              req)
    else if Gateway.mounted (js "/api/v1/orders") (path req)
         then Gateway.Proxied Gateway.OrdersService
                (Gateway.outgoingHeaders
                   (Gateway.services env Gateway.OrdersService) req)
         else Gateway.NotFound (headers req !! "x-request-id").
Proof.
  intros Hp. unfold Gateway.dispatch, Gateway.authenticateToken.
  rewrite Hp, isPublic_of_slash. cbn iota. rewrite Hp. reflexivity.
Qed.

End GatewayRouting.

(** X2. Correlation end to end: for a request whose path starts with a
    slash, the identifier that the request-id middleware writes to the
    response is the [x-request-id] the internal service receives with the
    proxied request, and the one in the gateway's 404 answer. *)
Theorem X2_request_id_reaches_the_upstream :
  forall env (verify : Http.verifier) tracerId uuid (req : Http.request)
         (resHeaders : gmap string jsstring) p,
    Http.path req = 47 :: p ->
    let tagged := Gateway.requestIdMiddleware tracerId uuid req resHeaders in
    let requestId := snd tagged !! "x-request-id" in
    match Gateway.dispatch env verify (fst tagged) with
    | Gateway.Proxied _ outgoing => outgoing !! "x-request-id" = requestId
    | Gateway.NotFound rid => rid = requestId
    | _ => False
    end /\
    requestId = Some (Gateway.chooseRequestId tracerId uuid req).
Proof.
  intros env verify tracerId uuid req resHeaders p Hp tagged requestId.
  subst tagged requestId. unfold Gateway.requestIdMiddleware. cbn [fst snd].
  rewrite (dispatch_slash env verify _ p) by exact Hp.
  cbn [Http.setHeaders Http.headers Http.path].
  rewrite !lookup_insert_eq.
  split; [|reflexivity].
  assert ("x-request-id" ∉ Gateway.hopHeaders) as Hhop
    by (apply derived_not_hop; rewrite !elem_of_cons; auto 6).
  destruct (Gateway.mounted (JS.js "/api/v1/users") (Http.path req)).
  { rewrite (outgoingHeaders_other _ _ _ _ Hhop). apply lookup_insert_eq. }
  destruct (Gateway.mounted (JS.js "/api/v1/orders") (Http.path req)).
  { rewrite (outgoingHeaders_other _ _ _ _ Hhop). apply lookup_insert_eq. }
  reflexivity.
Qed.

(** The identifier of a request to the users service that brought its
    own. *)
Lemma X2_request_id_threaded :
  let req := Http.mkRequest (JS.js "/api/v1/users/profile")
               {[ "x-request-id" := JS.js "req-42" ]} ∅ None in
  let tagged := Gateway.requestIdMiddleware None (JS.js "fresh") req ∅ in
  match Gateway.dispatch ∅ (fun _ => Http.Rejected Http.JsonWebTokenError)
          (fst tagged) with
  | Gateway.Proxied _ outgoing =>
      outgoing !! "x-request-id" = snd tagged !! "x-request-id"
  | Gateway.NotFound rid => rid = snd tagged !! "x-request-id"
  | _ => False
  end.
Proof.
  intros req tagged.
  apply (proj1 (X2_request_id_reaches_the_upstream ∅
                  (fun _ => Http.Rejected Http.JsonWebTokenError)
                  None (JS.js "fresh") req ∅
                  (JS.js "api/v1/users/profile") eq_refl)).
Defined.

(** X3. Identity headers that the client itself sends pass the gateway and
    are trusted: for a request routed to the orders service that carries a
    non-empty [x-user-id] and a JSON [x-user-roles], the outgoing request
    holds both headers, the [x-user-email] and the Authorization header
    with their inbound values, and the orders service authenticates the
    request it receives as that subject with those roles, whatever the
    Authorization header holds. *)
Theorem X3_client_identity_headers_are_trusted :
  forall env (gatewayVerify ordersVerify : Http.verifier) (req : Http.request)
         xid r v,
    Gateway.mounted (JS.js "/api/v1/orders") (Http.path req) = true ->
    Http.headers req !! "x-user-id" = Some xid -> xid <> [] ->
    Http.headers req !! "x-user-roles" = Some r -> r <> [] ->
    JSON.parse r = Some v ->
    exists outgoing,
      Gateway.dispatch env gatewayVerify req
      = Gateway.Proxied Gateway.OrdersService outgoing /\
      outgoing !! "x-user-id" = Some xid /\
      outgoing !! "x-user-roles" = Some r /\
      outgoing !! "x-user-email" = Http.headers req !! "x-user-email" /\
      outgoing !! "authorization" = Http.headers req !! "authorization" /\
      forall p q,
        let received := Http.mkRequest p outgoing q None in
        Orders.authenticateToken (D := unit) ordersVerify received
        = Http.Next (Http.setUser received
            (Http.mkIdentity xid (Orders.emailOf (Http.headers req)) (Some v))).
Proof.
  intros env gatewayVerify ordersVerify req xid r v Hm Hx Hxne Hr Hrne Hp.
  assert (forall k,
             k ∈ ["x-user-id"; "x-user-email"; "x-user-roles"; "x-request-id";
                  "authorization"] ->
             Gateway.outgoingHeaders
               (Gateway.services env Gateway.OrdersService) req !! k
             = Http.headers req !! k) as Hout
    by (intros k Hk; apply outgoingHeaders_other, derived_not_hop, Hk).
  eexists. split; [|split; [|split; [|split; [|split]]]].
  - destruct (mounted_slash _ _ Hm) as [p' Hpath].
    rewrite (dispatch_slash env gatewayVerify req p') by exact Hpath.
    rewrite (mounts_exclusive _ Hm), Hm. reflexivity.
  - rewrite Hout by (rewrite !elem_of_cons; auto 6). exact Hx.
  - rewrite Hout by (rewrite !elem_of_cons; auto 6). exact Hr.
  - apply Hout. rewrite !elem_of_cons; auto 6.
  - apply Hout. rewrite !elem_of_cons; auto 6.
  - intros p q received. subst received.
    unfold Orders.authenticateToken. cbn [Http.headers].
    rewrite (headersPath_ext _ (Http.headers req))
      by (apply Hout; rewrite !elem_of_cons; auto 6).
    rewrite (headersPath_some _ xid) by assumption.
    rewrite (userFromHeaders_parsed _ xid r v) by assumption. reflexivity.
Qed.

(** A client that names itself administrator. *)
Lemma X3_self_declared_administrator :
  let hs : gmap string jsstring :=
    {[ "x-user-id" := JS.js "mallory";
       "x-user-roles" := JSON.stringify_strings [JS.js "admin"] ]} in
  let req := Http.mkRequest (JS.js "/api/v1/orders/projects") hs ∅ None in
  exists outgoing,
    Gateway.dispatch ∅ (fun _ => Http.Rejected Http.JsonWebTokenError) req
    = Gateway.Proxied Gateway.OrdersService outgoing /\
    let received :=
      Http.mkRequest (JS.js "/api/v1/orders/projects") outgoing ∅ None in
    Orders.authenticateToken (D := unit)
      (fun _ => Http.Rejected Http.JsonWebTokenError) received
    = Http.Next (Http.setUser received
        (Http.mkIdentity (JS.js "mallory") (Orders.emailOf hs)
           (Some (JSON.JArr [JSON.JStr (JS.js "admin")])))).
Proof.
  intros hs req.
  destruct (X3_client_identity_headers_are_trusted ∅
              (fun _ => Http.Rejected Http.JsonWebTokenError)
              (fun _ => Http.Rejected Http.JsonWebTokenError)
              req (JS.js "mallory") (JSON.stringify_strings [JS.js "admin"])
              (JSON.JArr [JSON.JStr (JS.js "admin")])
              eq_refl eq_refl ltac:(discriminate) eq_refl
              ltac:(discriminate) eq_refl)
    as (outgoing & Hd & _ & _ & _ & _ & Ha).
  exists outgoing. split; [exact Hd|].
  apply (Ha (JS.js "/api/v1/orders/projects") ∅).
Defined.

(** ** The role gate on roles that are not a list *)

Section RoleGateValues.
Import JS JSON Http.

Lemma some_string (requiredRoles : list jsstring) (s : jsstring) :
  Roles.some requiredRoles (JStr s)
  = Some (existsb (JS.includes s) requiredRoles).
Proof.
  induction requiredRoles as [|r l IH]; [reflexivity|].
  cbn [Roles.some Roles.includes existsb].
  destruct (JS.includes s r); [reflexivity | exact IH].
Qed.

End RoleGateValues.

(** X4. When the caller's roles are a non-empty string instead of a list,
    the gate searches it for substrings: the request passes exactly when
    some required role occurs somewhere in the string. When the roles are
    a number other than zero, [true] or an object, and at least one role
    is required, the middleware throws. *)
Theorem X4_role_gate_on_other_values :
  forall requiredRoles (req : Http.request) u,
    Http.user req = Some u ->
    (forall s, Http.roles u = Some (JSON.JStr s) -> s <> [] ->
       Roles.authorizeRoles (D := unit) requiredRoles req
       = if existsb (JS.includes s) requiredRoles
         then Http.Next req
         else Http.Respond (Http.reject 403 "FORBIDDEN" "Недостаточно прав")) /\
    (forall v role,
       Http.roles u = Some v -> JSON.truthy_value v = true ->
       Roles.includes v role = None ->
       Roles.authorizeRoles (D := unit) (role :: requiredRoles) req
       = Http.Throw).
Proof.
  intros requiredRoles req u Hu. unfold Roles.authorizeRoles. rewrite Hu.
  split.
  - intros s -> Hs. cbn [JSON.truthy_value].
    apply truthy_nonempty in Hs. rewrite Hs. cbn [negb].
    rewrite some_string.
    destruct (existsb (JS.includes s) requiredRoles); reflexivity.
  - intros v role -> Hv Hi. rewrite Hv. cbn [negb Roles.some].
    rewrite Hi. reflexivity.
Qed.

(** A role string that merely contains the word passes the gate, and a
    number for roles makes it throw. *)
Lemma X4_substring_passes :
  let req (rs : JSON.json) :=
    Http.mkRequest (JS.js "/api/v1/users") ∅ ∅
      (Some (Http.mkIdentity (JS.js "u1") [] (Some rs))) in
  Roles.authorizeRoles (D := unit) [JS.js "admin"]
    (req (JSON.JStr (JS.js "not-an-administrator")))
  = Http.Next (req (JSON.JStr (JS.js "not-an-administrator"))) /\
  Roles.authorizeRoles (D := unit) [JS.js "admin"] (req (JSON.JNum 7 0))
  = Http.Throw.
Proof.
  intros req. split.
  - apply (proj1 (X4_role_gate_on_other_values [JS.js "admin"]
                    (req (JSON.JStr (JS.js "not-an-administrator"))) _ eq_refl)
             (JS.js "not-an-administrator") eq_refl).
    discriminate.
  - apply (proj2 (X4_role_gate_on_other_values []
                    (req (JSON.JNum 7 0)) _ eq_refl)
             (JSON.JNum 7 0) (JS.js "admin") eq_refl eq_refl eq_refl).
Defined.

(** ** Accounts: registration, login and the profile *)

Section AccountsFacts.
Import JS JSON Http Users Accounts.

Lemma eqb_true (s t : jsstring) : JS.eqb s t = true <-> s = t.
Proof. unfold JS.eqb. apply bool_decide_eq_true. Qed.

Lemma eqb_false (s t : jsstring) : JS.eqb s t = false <-> s <> t.
Proof. unfold JS.eqb. apply bool_decide_eq_false. Qed.

Lemma find_none_key {A : Type} (key : A -> jsstring) (l : list A) k :
  List.find (fun x => JS.eqb (key x) k) l = None <-> k ∉ key <$> l.
Proof.
  induction l as [|x l IH]; cbn [List.find fmap list_fmap].
  - split; [intros _; apply not_elem_of_nil | reflexivity].
  - destruct (JS.eqb (key x) k) eqn:Hx.
    + apply eqb_true in Hx. split; [discriminate|].
      intros Hn. exfalso. apply Hn. rewrite <- Hx. left.
    + apply eqb_false in Hx. rewrite IH. rewrite not_elem_of_cons.
      split; [auto | intros [_ H]; exact H].
Qed.

Lemma find_some_key {A : Type} (key : A -> jsstring) (l : list A) k x :
  List.find (fun x => JS.eqb (key x) k) l = Some x -> key x = k /\ x ∈ l.
Proof.
  induction l as [|y l IH]; cbn [List.find]; [discriminate|].
  destruct (JS.eqb (key y) k) eqn:Hy.
  - intros [= <-]. apply eqb_true in Hy. split; [assumption | left].
  - intros H. destruct (IH H). split; [assumption | right; assumption].
Qed.

(** Past a list without the key, the search finds the first hit of what
    follows. *)
Lemma find_app_fresh {A : Type} (key : A -> jsstring) (l l' : list A) k :
  k ∉ key <$> l ->
  List.find (fun x => JS.eqb (key x) k) (l ++ l')
  = List.find (fun x => JS.eqb (key x) k) l'.
Proof.
  induction l as [|y l IH]; intros Hk; [reflexivity|].
  cbn [app List.find]. cbn [fmap list_fmap] in Hk.
  apply not_elem_of_cons in Hk as [Hy Hl].
  assert (JS.eqb (key y) k = false) as -> by (apply eqb_false; congruence).
  apply IH. assumption.
Qed.

(** A hit in a list is the hit in the list with more put after it. *)
Lemma find_app_found {A : Type} (f : A -> bool) (l l' : list A) x :
  List.find f l = Some x -> List.find f (l ++ l') = Some x.
Proof.
  induction l as [|y l IH]; cbn [app List.find]; [discriminate|].
  destruct (f y); [auto | exact IH].
Qed.

End AccountsFacts.

(** X5. Registration checks the address before it awaits the hash and
    pushes after it. It answers 409 exactly when the address is stored at
    the time of the check, never touches a stored user, and appends one
    user, with the body's address, exactly when it answers 201. The
    stored addresses stay distinct when the address is still absent at
    the time of the push, as it is when nothing ran during the [await];
    but two registrations of one address that both pass the check before
    either pushes are both answered 201 and leave the address twice. *)
Theorem X5_register_checks_before_the_hash :
  forall (v : Accounts.validation Accounts.registration)
         hashedPassword freshId createdAt updatedAt
         (users later : list Users.stored_user),
    let after := fst (Accounts.registerAcross v hashedPassword freshId
                        createdAt updatedAt users later) in
    let res := snd (Accounts.registerAcross v hashedPassword freshId
                      createdAt updatedAt users later) in
    ((after = users /\ Http.status res <> 201) \/
     (exists value u,
        v = Accounts.Valid value /\ after = later ++ [u] /\
        Users.u_email u = Accounts.g_email value /\ Http.status res = 201)) /\
    (forall value, v = Accounts.Valid value ->
       (Http.status res = 409 <->
        Accounts.g_email value ∈ Users.u_email <$> users) /\
       (Http.status res = 201 ->
        NoDup (Users.u_email <$> later) ->
        Accounts.g_email value ∉ Users.u_email <$> later ->
        NoDup (Users.u_email <$> after))) /\
    (NoDup (Users.u_email <$> users) ->
     NoDup (Users.u_email <$>
              fst (Accounts.register v hashedPassword freshId createdAt
                     updatedAt users))) /\
    (forall value hashedPassword' freshId' createdAt' updatedAt',
       v = Accounts.Valid value ->
       Accounts.g_email value ∉ Users.u_email <$> users ->
       let first := Accounts.registerAcross v hashedPassword freshId
                      createdAt updatedAt users users in
       let second := Accounts.registerAcross v hashedPassword' freshId'
                       createdAt' updatedAt' users (fst first) in
       Http.status (snd first) = 201 /\ Http.status (snd second) = 201 /\
       ~ NoDup (Users.u_email <$> fst second)).
Proof.
  intros v hashedPassword freshId createdAt updatedAt users later after res.
  assert (forall (l : list Users.stored_user) e u,
             NoDup (Users.u_email <$> l) -> Users.u_email u = e ->
             e ∉ Users.u_email <$> l ->
             NoDup (Users.u_email <$> (l ++ [u]))) as Hpush.
  { intros l e u Hnodup He Hfresh. rewrite fmap_app. apply NoDup_app.
    split; [assumption|]. split; [|apply NoDup_singleton].
    intros e' He' Hin. cbn in Hin. apply list_elem_of_singleton in Hin.
    subst. contradiction. }
  subst after res.
  unfold Accounts.register, Accounts.registerAcross, Accounts.registerCheck,
    Accounts.registerPush, Accounts.findByEmail.
  destruct v as [message|value]; cbn [fst snd].
  { split; [left; split; [reflexivity | discriminate]|].
    split; [discriminate|]. split; [auto | discriminate]. }
  destruct (List.find _ users) as [u|] eqn:Hfind; cbn [fst snd].
  - pose proof Hfind as Hfound. apply find_some_key in Hfound as [Hu Hin].
    split; [left; split; [reflexivity | discriminate]|].
    split; [|split; [auto|]].
    + intros value' [= <-]. split; [|discriminate].
      split; [intros _ | reflexivity].
      rewrite <- Hu. apply list_elem_of_fmap. eauto.
    + intros value' h' i' c' d' [= <-] Hfresh. exfalso. apply Hfresh.
      rewrite <- Hu. apply list_elem_of_fmap. eauto.
  - apply find_none_key in Hfind.
    split; [right; eexists _, _; repeat split; reflexivity|].
    split; [|split].
    + intros value' [= <-]. split.
      * split; [discriminate | contradiction].
      * intros _ Hnodup Hfresh. apply Hpush with (e := Accounts.g_email value);
          [assumption | reflexivity | assumption].
    + intros Hnodup. apply Hpush with (e := Accounts.g_email value);
        [assumption | reflexivity | assumption].
    + intros value' h' i' c' d' [= <-] _.
      cbn [fst snd Http.status].
      split; [reflexivity|]. split; [reflexivity|].
      rewrite !fmap_app. cbn [fmap list_fmap Users.u_email].
      intros Hnodup. rewrite <- app_assoc in Hnodup.
      apply NoDup_app in Hnodup as (_ & _ & Hnodup).
      apply NoDup_cons in Hnodup as [Hnotin _].
      apply Hnotin. left.
Qed.

(** A second registration under an address that is taken, and two
    registrations that race. *)
Lemma X5_refused_after_and_accepted_beside :
  let ann := Users.StoredUser (JS.js "u1") (JS.js "a@b.com") (JS.js "$2b$10$h")
               (JS.js "Ann") [JS.js "engineer"] (JS.js "t0") (JS.js "t0") in
  let again := Accounts.Valid
                 (Accounts.Registration (JS.js "a@b.com") (JS.js "secret1")
                    (JS.js "Eve") (JS.js "admin")) in
  let first := Accounts.registerAcross again (JS.js "$2b$10$x") (JS.js "u2")
                 (JS.js "t1") (JS.js "t1") [] [] in
  let second := Accounts.registerAcross again (JS.js "$2b$10$y") (JS.js "u3")
                  (JS.js "t2") (JS.js "t2") [] (fst first) in
  Http.status (snd (Accounts.registerAcross again (JS.js "$2b$10$x")
                      (JS.js "u2") (JS.js "t1") (JS.js "t1") [ann] [ann]))
  = 409 /\
  Http.status (snd first) = 201 /\ Http.status (snd second) = 201 /\
  (NoDup (Users.u_email <$> fst second) -> False).
Proof.
  intros ann again first second. split.
  - pose proof (X5_register_checks_before_the_hash again (JS.js "$2b$10$x")
                  (JS.js "u2") (JS.js "t1") (JS.js "t1") [ann] [ann])
      as (_ & H409 & _).
    apply (H409 _ eq_refl). compute_done.
  - pose proof (X5_register_checks_before_the_hash again (JS.js "$2b$10$x")
                  (JS.js "u2") (JS.js "t1") (JS.js "t1") [] [])
      as (_ & _ & _ & Hrace).
    apply (Hrace _ (JS.js "$2b$10$y") (JS.js "u3") (JS.js "t2") (JS.js "t2")
             eq_refl).
    apply not_elem_of_nil.
Defined.

(** X6. A login that fails on the credentials gets one and the same
    answer, 401 INVALID_CREDENTIALS, whether the address is unknown or the
    password is wrong. *)
Theorem X6_login_failures_look_alike :
  forall (value : Accounts.credentials) compare sign
         (users : list Users.stored_user),
    Http.status (Accounts.login (Accounts.Valid value) compare sign users)
    <> 200 ->
    Accounts.login (Accounts.Valid value) compare sign users
    = Http.reject 401 "INVALID_CREDENTIALS" "Неверный email или пароль".
Proof.
  intros value compare sign users. unfold Accounts.login.
  destruct (Accounts.findByEmail users (Accounts.l_email value)) as [u|];
    [|reflexivity].
  destruct (compare _ _); [|reflexivity].
  intros H. contradiction H. reflexivity.
Qed.

(** An unknown address and a wrong password are answered alike. *)
Lemma X6_unknown_address_and_wrong_password :
  let ann := Users.StoredUser (JS.js "u1") (JS.js "a@b.com") (JS.js "$2b$10$h")
               (JS.js "Ann") [JS.js "engineer"] (JS.js "t0") (JS.js "t0") in
  let compare (password hash : jsstring) := JS.eqb password (JS.js "right") in
  let sign (c : Http.claims) := JS.js "token" in
  Accounts.login
    (Accounts.Valid (Accounts.Credentials (JS.js "nobody@b.com") (JS.js "right")))
    compare sign [ann]
  = Accounts.login
      (Accounts.Valid (Accounts.Credentials (JS.js "a@b.com") (JS.js "wrong")))
      compare sign [ann].
Proof.
  intros ann compare sign.
  rewrite (X6_login_failures_look_alike
             (Accounts.Credentials (JS.js "nobody@b.com") (JS.js "right"))
             compare sign [ann]) by discriminate.
  rewrite (X6_login_failures_look_alike
             (Accounts.Credentials (JS.js "a@b.com") (JS.js "wrong"))
             compare sign [ann]) by discriminate.
  reflexivity.
Defined.

(** X7. Register, then log in. After a registration that was answered
    201, a login with the same address and password succeeds when the
    address was still absent from the array at the time of the push, as
    it is when nothing ran during the [await], and [bcrypt.compare]
    accepts the password against the hash that [bcrypt.hash] gave; the
    token is signed over the new user's id, address, name and single
    role. When another registration of the address got into the array
    during the [await], the login meets that earlier user instead: it is
    answered as it would be without the new user. *)
Theorem X7_register_then_login :
  forall (value : Accounts.registration) hashedPassword freshId createdAt
         updatedAt compare sign (users later : list Users.stored_user),
    Http.status (snd (Accounts.registerAcross (Accounts.Valid value)
                        hashedPassword freshId createdAt updatedAt
                        users later)) = 201 ->
    let after := fst (Accounts.registerAcross (Accounts.Valid value)
                        hashedPassword freshId createdAt updatedAt
                        users later) in
    let credentials :=
      Accounts.Valid (Accounts.Credentials (Accounts.g_email value)
                        (Accounts.g_password value)) in
    (Accounts.g_email value ∉ Users.u_email <$> later ->
     compare (Accounts.g_password value) hashedPassword = true ->
     Accounts.login credentials compare sign after
     = Http.Response 200
         (Http.Success
            (Accounts.LoggedIn
               (sign (Http.mkClaims freshId (Accounts.g_email value)
                        (Accounts.g_name value)
                        (Some [Accounts.g_role value])))
               freshId (Accounts.g_email value) (Accounts.g_name value)
               [Accounts.g_role value]))) /\
    (Accounts.g_email value ∈ Users.u_email <$> later ->
     Accounts.login credentials compare sign after
     = Accounts.login credentials compare sign later).
Proof.
  intros value hashedPassword freshId createdAt updatedAt compare sign users
    later.
  unfold Accounts.registerAcross, Accounts.registerCheck, Accounts.registerPush.
  destruct (Accounts.findByEmail users (Accounts.g_email value)) as [u|];
    cbn [fst snd]; [discriminate|].
  intros _. cbv zeta.
  unfold Accounts.login, Accounts.findByEmail.
  cbn [Accounts.l_email Accounts.l_password]. split.
  - intros Hfresh Hcompare. rewrite find_app_fresh by assumption.
    cbn [List.find Users.u_email].
    assert (JS.eqb (Accounts.g_email value) (Accounts.g_email value) = true)
      as -> by (apply eqb_true; reflexivity).
    cbn [Users.u_passwordHash]. rewrite Hcompare. reflexivity.
  - intros Htaken.
    destruct (List.find (fun u => JS.eqb (Users.u_email u)
                                    (Accounts.g_email value)) later)
      as [u|] eqn:Hfind.
    + rewrite (find_app_found _ later _ u Hfind). reflexivity.
    + apply find_none_key in Hfind. contradiction.
Qed.

(** Registration and login of a first user. *)
Lemma X7_first_user_logs_in :
  let value := Accounts.Registration (JS.js "a@b.com") (JS.js "secret1")
                 (JS.js "Ann") (JS.js "engineer") in
  let compare (password hash : jsstring) :=
    JS.eqb hash (JS.js "hash-of-" ++ password) in
  let sign (c : Http.claims) := JS.js "token-of-" ++ Http.c_id c in
  Http.status
    (Accounts.login
       (Accounts.Valid (Accounts.Credentials (Accounts.g_email value)
                          (Accounts.g_password value)))
       compare sign
       (fst (Accounts.registerAcross (Accounts.Valid value)
               (JS.js "hash-of-secret1") (JS.js "u1") (JS.js "t1") (JS.js "t1")
               [] []))) = 200.
Proof.
  intros value compare sign.
  rewrite (proj1 (X7_register_then_login value (JS.js "hash-of-secret1")
                    (JS.js "u1") (JS.js "t1") (JS.js "t1") compare sign [] []
                    eq_refl) (not_elem_of_nil _) eq_refl).
  reflexivity.
Defined.

Section ProfileFacts.
Import JS JSON Http Users Accounts.

(** The users service's middleware lets a request through only with a
    token that verifies, and then leaves the token's claims in
    [req.user]. *)
Lemma users_auth_next {D : Type} (verify : verifier) (req req1 : request) :
  Users.authenticateToken (D := D) verify req = Next req1 ->
  exists token c,
    presentedToken (headers req) = Some token /\
    verify token = Verified c /\ req1 = setUser req (user_of_claims c).
Proof.
  unfold Users.authenticateToken, presentedToken.
  destruct (bearerToken (headers req)) as [t|]; [|discriminate].
  destruct (JS.truthy t); [|discriminate].
  destruct (verify t) as [c|e] eqn:Hv; [|discriminate].
  intros [= <-]. eauto.
Qed.

Lemma users_auth_verified {D : Type} (verify : verifier) (req : request)
    token c :
  presentedToken (headers req) = Some token ->
  verify token = Verified c ->
  Users.authenticateToken (D := D) verify req
  = Next (setUser req (user_of_claims c)).
Proof.
  unfold Users.authenticateToken, presentedToken. intros Htok Hv.
  destruct (bearerToken (headers req)) as [t|]; [|discriminate].
  destruct (JS.truthy t); [|discriminate].
  injection Htok as ->. rewrite Hv. reflexivity.
Qed.

Lemma findIndex_some {A : Type} (f : A -> bool) (l : list A) i :
  findIndex f l = Some i ->
  exists x, l !! i = Some x /\ f x = true /\ List.find f l = Some x /\
            forall k w, (k < i)%nat -> l !! k = Some w -> f w = false.
Proof.
  revert i. induction l as [|y l IH]; intros i; cbn [findIndex List.find];
    [discriminate|].
  destruct (f y) eqn:Hy.
  - intros [= <-]. exists y. repeat split; auto. intros k w Hk. lia.
  - destruct (findIndex f l) as [j|] eqn:Hj; [|discriminate].
    intros [= <-]. destruct (IH j eq_refl) as (x & Hx & Hfx & Hfind & Hbefore).
    exists x. repeat split; auto.
    intros [|k] w Hk Hw; [injection Hw as <-; assumption|].
    apply (Hbefore k w); [lia | exact Hw].
Qed.

Lemma findIndex_none {A : Type} (f : A -> bool) (l : list A) :
  findIndex f l = None <-> List.find f l = None.
Proof.
  induction l as [|y l IH]; cbn [findIndex List.find]; [tauto|].
  destruct (f y); [split; discriminate|].
  destruct (findIndex f l); cbn; [|tauto].
  split; [discriminate|]. intros H. apply IH in H. discriminate.
Qed.

Lemma fmap_alter_same {A B : Type} (key : A -> B) (g : A -> A) i (l : list A) :
  (forall x, key (g x) = key x) -> key <$> alter g i l = key <$> l.
Proof.
  intros Hg. revert i. induction l as [|y l IH]; intros [|i]; cbn;
    rewrite ?Hg, ?IH; reflexivity.
Qed.

(** Altering the first hit by a function that keeps the key leaves it the
    first hit. *)
Lemma find_alter_first {A : Type} (f : A -> bool) (g : A -> A) i (l : list A) :
  (forall x, f (g x) = f x) -> findIndex f l = Some i ->
  List.find f (alter g i l) = g <$> List.find f l.
Proof.
  intros Hg. revert i. induction l as [|y l IH]; intros i;
    cbn [findIndex List.find]; [discriminate|].
  destruct (f y) eqn:Hy.
  - intros [= <-]. cbn. rewrite Hg, Hy. reflexivity.
  - destruct (findIndex f l) as [j|] eqn:Hj; [|discriminate].
    intros [= <-]. cbn. rewrite Hy. apply IH. reflexivity.
Qed.

(** What the profile update does to the store: nothing, or it renames the
    first user with the caller's id. *)
Lemma updateProfileHandler_store name now (users : list stored_user)
    (req : request) :
  fst (updateProfileHandler name now users req) = users \/
  exists me n i,
    user req = Some me /\ name = Some n /\ n <> [] /\
    findIndex (fun u => JS.eqb (u_id u) (id me)) users = Some i /\
    fst (updateProfileHandler name now users req)
    = alter (rename n now) i users.
Proof.
  unfold updateProfileHandler.
  destruct (user req) as [me|]; [|destruct users; left; reflexivity].
  destruct (findIndex _ users) as [i|] eqn:Hi; [|left; reflexivity].
  destruct name as [n|].
  - destruct (JS.truthy n) eqn:Hn.
    + right. exists me, n, i. apply truthy_nonempty in Hn.
      repeat split; auto.
      destruct (alter (rename n now) i users !! i); reflexivity.
    + left. destruct (users !! i); reflexivity.
  - left. destruct (users !! i); reflexivity.
Qed.

End ProfileFacts.



(** X9. A profile update changes nothing in the store but the name and
    the update time of one user, the first one with the id of the verified
    token, and only for a non-empty name: the number of users, and every
    id, address, password hash, role list and creation time stay. *)
Theorem X9_profile_update_frame :
  forall (verify : Http.verifier) name now (users : list Users.stored_user)
         (req : Http.request),
    let after := fst (Accounts.putProfile verify name now users req) in
    length after = length users /\
    Users.u_id <$> after = Users.u_id <$> users /\
    Users.u_email <$> after = Users.u_email <$> users /\
    Users.u_passwordHash <$> after = Users.u_passwordHash <$> users /\
    Users.u_roles <$> after = Users.u_roles <$> users /\
    Users.u_createdAt <$> after = Users.u_createdAt <$> users /\
    (forall j u u',
       users !! j = Some u -> after !! j = Some u' -> u' <> u ->
       exists token c n,
         Http.presentedToken (Http.headers req) = Some token /\
         verify token = Http.Verified c /\
         Users.u_id u = Http.c_id c /\
         name = Some n /\ n <> [] /\ u' = Accounts.rename n now u /\
         forall k w, (k < j)%nat -> users !! k = Some w ->
                     Users.u_id w <> Http.c_id c).
Proof.
  intros verify name now users req after. subst after.
  unfold Accounts.putProfile.
  destruct (Users.authenticateToken verify req) as [req1| |] eqn:Hauth;
    cbn [fst]; try (repeat split; try reflexivity; intros; congruence).
  destruct (users_auth_next verify req req1 Hauth) as (token & c & Ht & Hv & ->).
  destruct (updateProfileHandler_store name now users
              (Http.setUser req (Http.user_of_claims c)))
    as [-> | (me & n & i & Hme & -> & Hn & Hi & ->)];
    [repeat split; try reflexivity; intros; congruence|].
  injection Hme as <-. cbn [Http.id Http.user_of_claims] in Hi.
  destruct (findIndex_some _ _ _ Hi) as (x & Hx & Hfx & _ & Hbefore).
  apply eqb_true in Hfx.
  split; [apply length_alter|].
  repeat (split; [apply fmap_alter_same; reflexivity|]).
  intros j u u' Hu Hu' Hne.
  destruct (decide (i = j)) as [<-|Hij].
  - rewrite list_lookup_alter_eq, Hu in Hu'. injection Hu' as <-.
    rewrite Hx in Hu. injection Hu as ->.
    exists token, c, n. repeat split; auto.
    intros k w Hk Hw. apply eqb_false. apply (Hbefore k w Hk Hw).
  - rewrite list_lookup_alter_ne in Hu' by assumption. congruence.
Qed.

(** A rename by the first of two users. *)
Lemma X9_rename_leaves_the_rest :
  let ann := Users.StoredUser (JS.js "u1") (JS.js "a@b.com") (JS.js "$2b$10$a")
               (JS.js "Ann") [JS.js "engineer"] (JS.js "t0") (JS.js "t0") in
  let bob := Users.StoredUser (JS.js "u2") (JS.js "b@c.org") (JS.js "$2b$10$b")
               (JS.js "Bob") [JS.js "admin"] (JS.js "t0") (JS.js "t0") in
  let verify : Http.verifier := fun _ =>
    Http.Verified (Users.tokenPayload ann) in
  let req := Http.mkRequest (JS.js "/api/v1/users/profile")
               {[ "authorization" := JS.js "Bearer t" ]} ∅ None in
  let after := fst (Accounts.putProfile verify (Some (JS.js "Anna"))
                      (JS.js "t9") [ann; bob] req) in
  Users.u_passwordHash <$> after = [JS.js "$2b$10$a"; JS.js "$2b$10$b"] /\
  after !! 1%nat = Some bob /\
  after !! 0%nat = Some (Accounts.rename (JS.js "Anna") (JS.js "t9") ann).
Proof.
  intros ann bob verify req after.
  pose proof (X9_profile_update_frame verify (Some (JS.js "Anna")) (JS.js "t9")
                [ann; bob] req) as (_ & _ & _ & Hhash & _ & _ & Hchanged).
  split; [exact Hhash|]. split; [reflexivity|].
  destruct (Hchanged 0%nat ann (Accounts.rename (JS.js "Anna") (JS.js "t9") ann)
              eq_refl eq_refl ltac:(discriminate))
    as (token & c & n & _ & _ & _ & _ & _ & _ & _).
  reflexivity.
Defined.

(** X10. Update, then read: after a profile update with a non-empty name
    by a caller whose id is in the store, [GET /profile] with the same
    token answers what the update answered, a profile with the new name
    and the new update time and without any other change. *)
Theorem X10_profile_update_then_read :
  forall (verify : Http.verifier) n now (users : list Users.stored_user)
         (req : Http.request) token c u,
    n <> [] ->
    Http.presentedToken (Http.headers req) = Some token ->
    verify token = Http.Verified c ->
    List.find (fun u => JS.eqb (Users.u_id u) (Http.c_id c)) users = Some u ->
    let result := Accounts.putProfile verify (Some n) now users req in
    snd result
    = Http.Respond (Http.Response 200 (Http.Success (Users.Profile
        (Users.withoutPassword (Accounts.rename n now u))))) /\
    Users.getProfile verify (fst result) req = snd result.
Proof.
  intros verify n now users req token c u Hn Htok Hv Hfind result.
  subst result. unfold Accounts.putProfile, Users.getProfile.
  rewrite (users_auth_verified verify req token c Htok Hv).
  cbn [Users.andThen]. unfold Accounts.updateProfileHandler, Users.profileHandler.
  cbn [Http.user Http.setUser Http.id Http.user_of_claims].
  destruct (Accounts.findIndex
              (fun u0 => JS.eqb (Users.u_id u0) (Http.c_id c)) users)
    as [i|] eqn:Hi.
  - destruct (findIndex_some _ _ _ Hi) as (x & Hx & _ & Hfx & _).
    rewrite Hfind in Hfx. injection Hfx as <-.
    apply truthy_nonempty in Hn. rewrite Hn.
    rewrite list_lookup_alter_eq, Hx. cbn [fmap option_fmap option_map fst snd].
    split; [reflexivity|].
    rewrite (find_alter_first _ (Accounts.rename n now) i users) by auto.
    rewrite Hfind. reflexivity.
  - apply findIndex_none in Hi. congruence.
Qed.

(** The new name is read back. *)
Lemma X10_new_name_is_read_back :
  let ann := Users.StoredUser (JS.js "u1") (JS.js "a@b.com") (JS.js "$2b$10$a")
               (JS.js "Ann") [JS.js "engineer"] (JS.js "t0") (JS.js "t0") in
  let verify : Http.verifier := fun _ =>
    Http.Verified (Users.tokenPayload ann) in
  let req := Http.mkRequest (JS.js "/api/v1/users/profile")
               {[ "authorization" := JS.js "Bearer t" ]} ∅ None in
  let result := Accounts.putProfile verify (Some (JS.js "Anna")) (JS.js "t9")
                  [ann] req in
  Users.getProfile verify (fst result) req = snd result.
Proof.
  intros ann verify req result.
  apply (X10_profile_update_then_read verify (JS.js "Anna") (JS.js "t9") [ann]
           req (JS.js "t") (Users.tokenPayload ann) ann);
    [discriminate | reflexivity..].
Defined.

(** X11. [GET /profile] answers a profile only to a request whose token
    verifies, and the profile is then that of a stored user with the id in
    the token: nobody reads another user's profile. *)
Theorem X11_profile_is_the_callers :
  forall (verify : Http.verifier) (users : list Users.stored_user)
         (req : Http.request) p,
    Users.getProfile verify users req
    = Http.Respond (Http.Response 200 (Http.Success (Users.Profile p))) ->
    exists token c u,
      Http.presentedToken (Http.headers req) = Some token /\
      verify token = Http.Verified c /\
      u ∈ users /\ Users.u_id u = Http.c_id c /\
      p = Users.withoutPassword u.
Proof.
  intros verify users req p. unfold Users.getProfile.
  destruct (Users.authenticateToken verify req) as [req1|res|] eqn:Hauth;
    cbn [Users.andThen]; [| |discriminate].
  - destruct (users_auth_next verify req req1 Hauth) as (token & c & Ht & Hv & ->).
    unfold Users.profileHandler.
    cbn [Http.user Http.setUser Http.id Http.user_of_claims].
    destruct (List.find _ users) as [u|] eqn:Hfind; [|discriminate].
    intros [= <-]. apply find_some_key in Hfind as [Hid Hin].
    exists token, c, u. auto.
  - unfold Users.authenticateToken in Hauth.
    destruct (Http.bearerToken (Http.headers req)) as [t|];
      [destruct (JS.truthy t); [destruct (verify t)|]|];
      try discriminate; injection Hauth as <-; discriminate.
Qed.

(** The profile that the second of two users reads is their own. *)
Lemma X11_second_user_reads_own_profile :
  let ann := Users.StoredUser (JS.js "u1") (JS.js "a@b.com") (JS.js "$2b$10$a")
               (JS.js "Ann") [JS.js "engineer"] (JS.js "t0") (JS.js "t0") in
  let bob := Users.StoredUser (JS.js "u2") (JS.js "b@c.org") (JS.js "$2b$10$b")
               (JS.js "Bob") [JS.js "admin"] (JS.js "t0") (JS.js "t0") in
  let verify : Http.verifier := fun _ =>
    Http.Verified (Users.tokenPayload bob) in
  let req := Http.mkRequest (JS.js "/api/v1/users/profile")
               {[ "authorization" := JS.js "Bearer t" ]} ∅ None in
  exists token c u,
    Http.presentedToken (Http.headers req) = Some token /\
    verify token = Http.Verified c /\
    u ∈ [ann; bob] /\ Users.u_id u = Http.c_id c /\
    Users.withoutPassword bob = Users.withoutPassword u.
Proof.
  intros ann bob verify req.
  exact (X11_profile_is_the_callers verify [ann; bob] req
           (Users.withoutPassword bob) eq_refl).
Defined.

Section ListingAccess.
Import JS JSON Http Users.

(** On the payloads that login signs the two token checks agree. *)
Lemma authenticateToken_typed {D : Type} (verify : verifier) (req : request) :
  Payloads.authenticateToken (D := D) (Payloads.typed verify) req
  = Users.authenticateToken verify req.
Proof.
  unfold Payloads.authenticateToken, Users.authenticateToken, Payloads.typed.
  destruct (bearerToken (headers req)) as [t|]; [|reflexivity].
  destruct (JS.truthy t); [|reflexivity].
  destruct (verify t); reflexivity.
Qed.

Lemma getUsers_typed (verify : verifier) users (req : request) :
  Payloads.getUsers (Payloads.typed verify) users req
  = Users.getUsers verify users req.
Proof.
  unfold Payloads.getUsers, Users.getUsers.
  rewrite authenticateToken_typed. reflexivity.
Qed.

Lemma existsb_elem (r : jsstring) (rs : list jsstring) :
  existsb (JS.eqb r) rs = true <-> r ∈ rs.
Proof.
  rewrite existsb_exists, list_elem_of_In. split.
  - intros (x & Hin & Heq). apply eqb_true in Heq. subst x. exact Hin.
  - intros Hin. exists r. split; [exact Hin | apply eqb_true; reflexivity].
Qed.

(** An array holds a string exactly when [includes] finds it. *)
Lemma existsb_string (l : list json) (role : jsstring) :
  existsb (fun v => match v with
                    | JStr s => JS.eqb s role
                    | _ => false
                    end) l = true
  <-> JStr role ∈ l.
Proof.
  rewrite existsb_exists, list_elem_of_In. split.
  - intros ([| | | s | |] & Hin & Heq); try discriminate.
    apply eqb_true in Heq. subst s. exact Hin.
  - intros Hin. exists (JStr role).
    split; [exact Hin | apply eqb_true; reflexivity].
Qed.

(** The route, by the token and the payload's roles. *)
Lemma getUsers_by_roles (verify : jsstring -> Payloads.decoded) users
    (req : request) :
  Payloads.getUsers verify users req
  = match presentedToken (headers req) with
    | None =>
        Respond (reject 401 "TOKEN_REQUIRED" "Требуется токен авторизации")
    | Some token =>
        match verify token with
        | Payloads.Refused _ =>
            Respond (reject 403 "INVALID_TOKEN" "Неверный или просроченный токен")
        | Payloads.Decoded me =>
            match roles me with
            | None => Respond (reject 403 "FORBIDDEN" "Доступ запрещен")
            | Some rs =>
                if negb (truthy_value rs)
                then Respond (reject 403 "FORBIDDEN" "Доступ запрещен")
                else
                  match Roles.includes rs (js "admin") with
                  | None => Throw
                  | Some true => listHandler users (setUser req me)
                  | Some false =>
                      Respond (reject 403 "FORBIDDEN" "Недостаточно прав")
                  end
            end
        end
    end.
Proof.
  unfold Payloads.getUsers, Payloads.authenticateToken, presentedToken.
  destruct (bearerToken (headers req)) as [t|]; [|reflexivity].
  destruct (JS.truthy t); [|reflexivity].
  destruct (verify t) as [me|e]; [|reflexivity].
  cbn [andThen]. unfold Roles.authorizeRoles. cbn [user setUser].
  destruct (roles me) as [rs|]; [|reflexivity].
  destruct (negb (truthy_value rs)); [reflexivity|].
  cbn [Roles.some].
  destruct (Roles.includes rs (js "admin")) as [[|]|]; reflexivity.
Qed.

End ListingAccess.

(** X12. [GET /] of the users service, for a token of any payload. It
    answers 200 only for a token that verifies and whose payload's roles
    are a list that holds the string admin, or a string in which admin
    occurs; for a payload that login signed, whose roles are a list of
    role names, exactly when the list holds admin. It throws exactly when
    the roles are a value other than a list or a string that counts as
    true (a number but zero, [true], an object), and it never passes the
    request on. *)
Theorem X12_listing_is_for_administrators :
  forall (verify : jsstring -> Payloads.decoded)
         (users : list Users.stored_user) (req : Http.request),
    let answer := Payloads.getUsers verify users req in
    (Http.statusOf answer = Some 200 ->
     exists token me rs,
       Http.presentedToken (Http.headers req) = Some token /\
       verify token = Payloads.Decoded me /\
       Http.roles me = Some rs /\
       ((exists l, rs = JSON.JArr l /\ JSON.JStr (JS.js "admin") ∈ l) \/
        (exists s, rs = JSON.JStr s /\
                   JS.includes s (JS.js "admin") = true))) /\
    (forall token (c : Http.claims) l,
        Http.presentedToken (Http.headers req) = Some token ->
        verify token = Payloads.Decoded (Http.user_of_claims c) ->
        Http.c_roles c = Some l ->
        (Http.statusOf answer = Some 200 <-> JS.js "admin" ∈ l) /\
        (Http.statusOf answer = Some 200 \/ Http.statusOf answer = Some 403)) /\
    (answer = Http.Throw <->
     exists token me rs,
       Http.presentedToken (Http.headers req) = Some token /\
       verify token = Payloads.Decoded me /\
       Http.roles me = Some rs /\
       JSON.truthy_value rs = true /\
       (forall l, rs <> JSON.JArr l) /\ (forall s, rs <> JSON.JStr s)) /\
    (forall req1, answer <> Http.Next req1).
Proof.
  intros verify users req answer. subst answer.
  rewrite getUsers_by_roles.
  split; [|split; [|split]].
  - destruct (Http.presentedToken (Http.headers req)) as [token|];
      [|discriminate].
    destruct (verify token) as [me|e] eqn:Hv; [|discriminate].
    destruct (Http.roles me) as [rs|] eqn:Hrs; [|discriminate].
    destruct (negb (JSON.truthy_value rs)); [discriminate|].
    destruct (Roles.includes rs (JS.js "admin")) as [[|]|] eqn:Hin;
      try discriminate.
    intros _. exists token, me, rs. repeat split; auto.
    destruct rs as [| | | s | l |]; try discriminate.
    + right. exists s. split; [reflexivity|].
      cbn [Roles.includes] in Hin. congruence.
    + left. exists l. split; [reflexivity|].
      cbn [Roles.includes] in Hin. injection Hin as Hin.
      apply existsb_string. exact Hin.
  - intros token c l Ht Hv Hl. rewrite Ht, Hv.
    unfold Http.user_of_claims. cbn [Http.roles]. rewrite Hl.
    cbn [fmap option_fmap option_map].
    change (negb (JSON.truthy_value (Http.roles_value l))) with false.
    cbn iota. rewrite includes_strings.
    destruct (existsb (JS.eqb (JS.js "admin")) l) eqn:Hadmin.
    + apply existsb_elem in Hadmin.
      split; [split; [auto | reflexivity] | left; reflexivity].
    + split; [|right; reflexivity].
      split; [discriminate|].
      intros Hin. apply existsb_elem in Hin. congruence.
  - split.
    + destruct (Http.presentedToken (Http.headers req)) as [token|];
        [|discriminate].
      destruct (verify token) as [me|e] eqn:Hv; [|discriminate].
      destruct (Http.roles me) as [rs|] eqn:Hrs; [|discriminate].
      destruct (JSON.truthy_value rs) eqn:Htruthy; cbn [negb];
        [|discriminate].
      destruct (Roles.includes rs (JS.js "admin")) as [[|]|] eqn:Hin;
        try discriminate.
      intros _. exists token, me, rs. repeat split; auto.
      * intros l ->. discriminate.
      * intros s ->. discriminate.
    + intros (token & me & rs & -> & -> & -> & -> & Harr & Hstr).
      cbn [negb].
      destruct rs as [| | | s | l |]; try reflexivity.
      * contradiction (Hstr s). reflexivity.
      * contradiction (Harr l). reflexivity.
  - intros req1.
    destruct (Http.presentedToken (Http.headers req)) as [token|];
      [|discriminate].
    destruct (verify token) as [me|e]; [|discriminate].
    destruct (Http.roles me) as [rs|]; [|discriminate].
    destruct (negb (JSON.truthy_value rs)); [discriminate|].
    destruct (Roles.includes rs (JS.js "admin")) as [[|]|]; discriminate.
Qed.

(** A token whose payload has the roles 7 makes the route throw. *)
Lemma X12_numeric_roles_throw :
  let me := Http.mkIdentity (JS.js "u1") (JS.js "a@b.com")
              (Some (JSON.JNum 7 0)) in
  let verify := fun _ : jsstring => Payloads.Decoded me in
  let req := Http.mkRequest (JS.js "/api/v1/users")
               {[ "authorization" := JS.js "Bearer t" ]} ∅ None in
  Payloads.getUsers verify [] req = Http.Throw.
Proof.
  intros me verify req.
  apply (proj1 (proj2 (proj2 (X12_listing_is_for_administrators verify [] req)))).
  exists (JS.js "t"), me, (JSON.JNum 7 0).
  repeat split; try reflexivity; discriminate.
Defined.

(** ** The listing of users *)

Section ListingFacts.
Import Http Users.

Lemma listHandler_listing (users : list stored_user) (req : request) :
  listHandler users req
  = Respond (Response 200 (Success (Listing
      (withoutPassword <$>
         slice (Accounts.filteredUsers users req)
           (mul (pred (Accounts.pageNum req)) (Accounts.limitNum req))
           (mul (Accounts.pageNum req) (Accounts.limitNum req)))
      {| pg_page := Accounts.pageNum req;
         pg_limit := Accounts.limitNum req;
         pg_total := length (Accounts.filteredUsers users req);
         pg_totalPages :=
           ceilDiv (length (Accounts.filteredUsers users req))
             (Accounts.limitNum req) |}))).
Proof. reflexivity. Qed.

(** A page of [l] elements, for a page number and a limit from 1. *)
Lemma slice_page {A : Type} (a : list A) (p l : Z) :
  (1 <= p)%Z -> (1 <= l)%Z ->
  slice a (Some ((p - 1) * l)%Z) (Some (p * l)%Z)
  = take (Z.to_nat l) (drop (Z.to_nat ((p - 1) * l)) a).
Proof.
  intros Hp Hl. unfold slice.
  assert (0 <= (p - 1) * l)%Z as Hs by nia.
  assert (0 < p * l)%Z as He by nia.
  destruct (Z.ltb_spec ((p - 1) * l) 0); [lia|].
  destruct (Z.ltb_spec (p * l) 0); [lia|].
  destruct (Z.le_gt_cases (Z.of_nat (length a)) ((p - 1) * l)) as [Hge|Hlt].
  - rewrite (Z.min_r ((p - 1) * l)) by lia.
    rewrite (Z.min_r (p * l)) by nia.
    rewrite !drop_ge by lia. rewrite !take_nil. reflexivity.
  - rewrite (Z.min_l ((p - 1) * l)) by lia.
    rewrite <- (take_ge (drop (Z.to_nat ((p - 1) * l)) a)
                  (length a - Z.to_nat ((p - 1) * l)))
      by (rewrite length_drop; lia).
    rewrite !take_take. f_equal. lia.
Qed.

Lemma slice_sublist {A : Type} (a : list A) (i j : number) :
  slice a i j `sublist_of` a.
Proof.
  unfold slice. etransitivity; [apply sublist_take | apply sublist_drop].
Qed.

Lemma filteredUsers_sublist (users : list stored_user) (req : request) :
  Accounts.filteredUsers users req `sublist_of` users.
Proof.
  unfold Accounts.filteredUsers.
  destruct (_ !! "role") as [role|]; [|reflexivity].
  destruct (JS.truthy role); [|reflexivity].
  induction users as [|u users IH]; cbn [List.filter]; [constructor|].
  destruct (existsb _ (u_roles u)); [apply sublist_skip | apply sublist_cons];
    exact IH.
Qed.

Lemma filteredUsers_role (users : list stored_user) (req : request) u role :
  u ∈ Accounts.filteredUsers users req ->
  query req !! "role" = Some role -> role <> [] -> role ∈ u_roles u.
Proof.
  unfold Accounts.filteredUsers. intros Hin Hrole Hne.
  rewrite Hrole in Hin. apply truthy_nonempty in Hne. rewrite Hne in Hin.
  apply list_elem_of_In, filter_In in Hin as [_ Hex].
  apply existsb_exists in Hex as (r & Hr & Heq).
  apply eqb_true in Heq. subst r. apply list_elem_of_In. exact Hr.
Qed.

End ListingFacts.

(** X13. Pages: for a page number and a limit from 1 whose product is at
    most 2^53, [GET /] lists the users of the page, at most [limit] of
    them and in the order of the store; the pages up to [totalPages] are
    not empty and the ones after are; and the user at index [i] of the
    selection is at index [i mod limit] of page [i / limit + 1]. Up to
    2^53 the numbers of the handler are exact integers, as they are here;
    beyond, [parseInt] and the products round, or give Infinity, and the
    statement is not made. The array is one of JavaScript, of fewer than
    2^32 elements. *)
Theorem X13_listing_pages :
  forall (users : list Users.stored_user) (req : Http.request) (p l : Z),
    Accounts.pageNum req = Some p ->
    Accounts.limitNum req = Some l ->
    (1 <= p)%Z -> (1 <= l)%Z -> (p * l <= 2 ^ 53)%Z ->
    (Z.of_nat (length users) < 2 ^ 32)%Z ->
    let selected := Users.withoutPassword <$> Accounts.filteredUsers users req in
    let n := Z.of_nat (length selected) in
    exists listed t,
      Users.listHandler users req
      = Http.Respond (Http.Response 200 (Http.Success (Users.Listing listed
          {| Users.pg_page := Some p; Users.pg_limit := Some l;
             Users.pg_total := length selected;
             Users.pg_totalPages := Some t |}))) /\
      listed = take (Z.to_nat l) (drop (Z.to_nat ((p - 1) * l)) selected) /\
      (length listed <= Z.to_nat l)%nat /\
      ((t - 1) * l < n <= t * l)%Z /\
      (listed = [] <-> (t < p)%Z) /\
      (forall i : nat,
          p = (Z.of_nat i / l + 1)%Z ->
          listed !! Z.to_nat (Z.of_nat i mod l) = selected !! i).
Proof.
  intros users req p l Hpage Hlimit Hp Hl _ _ selected n.
  assert (0 <= n)%Z as Hn by (subst n; lia).
  exists (take (Z.to_nat l) (drop (Z.to_nat ((p - 1) * l)) selected)),
         (- (- n / l))%Z.
  assert ((- (- n / l) - 1) * l < n <= - (- n / l) * l)%Z as Hceil.
  { pose proof (Z.div_mod (- n) l ltac:(lia)) as Hdm.
    pose proof (Z.mod_pos_bound (- n) l ltac:(lia)). nia. }
  split; [|split; [reflexivity|split; [|split; [exact Hceil|split]]]].
  - rewrite listHandler_listing, Hpage, Hlimit.
    cbn [Users.pred Users.mul Users.ceilDiv].
    rewrite slice_page by assumption.
    rewrite fmap_take, fmap_drop.
    destruct (Z.eqb_spec l 0); [lia|].
    subst n selected. rewrite length_fmap. reflexivity.
  - rewrite length_take. lia.
  - split.
    + intros Hnil. apply (f_equal length) in Hnil.
      rewrite length_take, length_drop in Hnil. cbn [length] in Hnil.
      assert (0 <= (p - 1) * l)%Z as Hs by nia.
      assert (n <= (p - 1) * l)%Z as Hle by (subst n; lia).
      nia.
    + intros Hlt. rewrite drop_ge; [apply take_nil|].
      assert (n <= (p - 1) * l)%Z by nia. subst n. lia.
  - intros i ->.
    pose proof (Z.div_mod (Z.of_nat i) l ltac:(lia)) as Hdm.
    pose proof (Z.mod_pos_bound (Z.of_nat i) l ltac:(lia)) as Hmod.
    rewrite lookup_take_lt by lia. rewrite lookup_drop. f_equal. nia.
Qed.

(** The second page of three users, two to a page. *)
Lemma X13_second_page :
  let mk := fun i => Users.StoredUser (JS.js i) (JS.js "a@b.com") (JS.js "h")
                       (JS.js "N") [JS.js "engineer"] (JS.js "t0") (JS.js "t0") in
  let users := [mk "u1"; mk "u2"; mk "u3"] in
  let req := Http.mkRequest (JS.js "/api/v1/users")
               ∅ {[ "page" := JS.js "2"; "limit" := JS.js "2" ]} None in
  exists listed t,
    Users.listHandler users req
    = Http.Respond (Http.Response 200 (Http.Success (Users.Listing listed
        {| Users.pg_page := Some 2%Z; Users.pg_limit := Some 2%Z;
           Users.pg_total := 3; Users.pg_totalPages := Some t |}))) /\
    listed = [Users.withoutPassword (mk "u3")] /\ t = 2%Z.
Proof.
  intros mk users req.
  destruct (X13_listing_pages users req 2 2 eq_refl eq_refl ltac:(lia)
              ltac:(lia) ltac:(vm_compute; discriminate)
              ltac:(vm_compute; reflexivity))
    as (listed & t & Hres & Hlisted & _ & Ht & _).
  exists listed, t. split; [exact Hres|]. split; [exact Hlisted|].
  change ((t - 1) * 2 < 3 <= t * 2)%Z in Ht. lia.
Defined.

(** X14. Whatever the query, [GET /] answers 200 with a list whose every
    record is a stored user without the password hash; with a non-empty
    [role] parameter every listed user has that role; and no more users
    are listed than [total] counts, which is no more than the store
    holds. *)
Theorem X14_listing_is_sound :
  forall (users : list Users.stored_user) (req : Http.request),
    exists listed pg,
      Users.listHandler users req
      = Http.Respond (Http.Response 200
          (Http.Success (Users.Listing listed pg))) /\
      (forall p, p ∈ listed ->
         exists u, u ∈ users /\ p = Users.withoutPassword u /\
           forall role, Http.query req !! "role" = Some role ->
                        role <> [] -> role ∈ Users.u_roles u) /\
      (length listed <= Users.pg_total pg <= length users)%nat.
Proof.
  intros users req. eexists _, _.
  split; [apply listHandler_listing|]. cbn [Users.pg_total]. split.
  - intros p Hp. apply list_elem_of_fmap in Hp as (u & -> & Hu).
    pose proof (elem_of_sublist _ _ _ Hu (slice_sublist _ _ _)) as Hsel.
    exists u. split; [|split; [reflexivity|]].
    + exact (elem_of_sublist _ _ _ Hsel (filteredUsers_sublist users req)).
    + intros role Hrole Hne.
      exact (filteredUsers_role users req u role Hsel Hrole Hne).
  - rewrite length_fmap. split.
    + apply sublist_length, slice_sublist.
    + apply sublist_length, filteredUsers_sublist.
Qed.

(** X15. A limit that is 0 or not a number lists nobody: the answer is
    still a 200, with an empty list and [totalPages] written as null. *)
Theorem X15_limit_zero_or_not_a_number :
  forall (users : list Users.stored_user) (req : Http.request),
    Accounts.limitNum req = None \/ Accounts.limitNum req = Some 0%Z ->
    Users.listHandler users req
    = Http.Respond (Http.Response 200 (Http.Success (Users.Listing []
        {| Users.pg_page := Accounts.pageNum req;
           Users.pg_limit := Accounts.limitNum req;
           Users.pg_total := length (Accounts.filteredUsers users req);
           Users.pg_totalPages := None |}))).
Proof.
  intros users req Hlimit. rewrite listHandler_listing.
  destruct Hlimit as [-> | ->]; destruct (Accounts.pageNum req) as [p|];
    cbn [Users.pred Users.mul Users.ceilDiv Z.eqb]; unfold Users.slice;
    rewrite ?Z.mul_0_r; cbn [Z.ltb Z.compare]; rewrite ?Z.sub_diag;
    try reflexivity.
  all: rewrite Z.min_l by lia; reflexivity.
Qed.

(** The query [limit=0] and the query [limit=abc]. *)
Lemma X15_limit_zero_and_letters :
  let u := Users.StoredUser (JS.js "u1") (JS.js "a@b.com") (JS.js "h")
             (JS.js "N") [JS.js "engineer"] (JS.js "t0") (JS.js "t0") in
  let req := fun l => Http.mkRequest (JS.js "/api/v1/users")
                        ∅ {[ "limit" := JS.js l ]} None in
  Users.listHandler [u] (req "0")
  = Http.Respond (Http.Response 200 (Http.Success (Users.Listing []
      {| Users.pg_page := Some 1%Z; Users.pg_limit := Some 0%Z;
         Users.pg_total := 1; Users.pg_totalPages := None |}))) /\
  Users.listHandler [u] (req "abc")
  = Http.Respond (Http.Response 200 (Http.Success (Users.Listing []
      {| Users.pg_page := Some 1%Z; Users.pg_limit := None;
         Users.pg_total := 1; Users.pg_totalPages := None |}))).
Proof.
  intros u req. split.
  - rewrite (X15_limit_zero_or_not_a_number [u] (req "0") (or_intror eq_refl)).
    reflexivity.
  - rewrite (X15_limit_zero_or_not_a_number [u] (req "abc") (or_introl eq_refl)).
    reflexivity.
Defined.

(** X16. A negative limit is not refused: on page 1 the limit [-k] lists
    all the selected users but the last [k]. *)
Theorem X16_negative_limit :
  forall (users : list Users.stored_user) (req : Http.request) (k : Z),
    Accounts.pageNum req = Some 1%Z ->
    Accounts.limitNum req = Some (- k)%Z ->
    (1 <= k)%Z ->
    let selected := Accounts.filteredUsers users req in
    exists pg,
      Users.listHandler users req
      = Http.Respond (Http.Response 200 (Http.Success (Users.Listing
          (Users.withoutPassword <$>
             take (length selected - Z.to_nat k) selected) pg))).
Proof.
  intros users req k Hpage Hlimit Hk selected. eexists.
  rewrite listHandler_listing, Hpage, Hlimit.
  cbn [Users.pred Users.mul]. fold selected.
  assert (Users.slice selected (Some ((1 - 1) * - k)%Z) (Some (1 * - k)%Z)
          = take (length selected - Z.to_nat k) selected) as ->;
    [|reflexivity].
  unfold Users.slice.
  change ((1 - 1) * - k)%Z with 0%Z. cbn [Z.ltb Z.compare].
  destruct (Z.ltb_spec (1 * - k) 0); [|lia].
  replace (0 `min` Z.of_nat (length selected))%Z with 0%Z by lia.
  cbn [Z.to_nat drop]. f_equal. lia.
Qed.

(** The query [limit=-1] on two users. *)
Lemma X16_limit_minus_one :
  let mk := fun i => Users.StoredUser (JS.js i) (JS.js "a@b.com") (JS.js "h")
                       (JS.js "N") [JS.js "engineer"] (JS.js "t0") (JS.js "t0") in
  let users := [mk "u1"; mk "u2"] in
  let req := Http.mkRequest (JS.js "/api/v1/users")
               ∅ {[ "limit" := JS.js "-1" ]} None in
  exists pg,
    Users.listHandler users req
    = Http.Respond (Http.Response 200 (Http.Success (Users.Listing
        [Users.withoutPassword (mk "u1")] pg))).
Proof.
  intros mk users req.
  exact (X16_negative_limit users req 1 eq_refl eq_refl ltac:(lia)).
Defined.

(** ** The statements of the orders repositories *)

(** X17. [update] of both repositories: without a defined field no UPDATE
    is built and the row is only read; otherwise the statement sets
    exactly the defined columns, the [k]-th assignment names the parameter
    [k] and the [k]-th value is that column's, the id is the last value,
    and the text refers to the parameters 1 to the number of values, in
    order. *)
Theorem X17_update_statements_are_numbered :
  forall (V : Type) (key : V),
    (forall u : Sql.project_updates V,
        let defined := omap id
          [Sql.column "title" (Sql.pu_title u);
           Sql.column "description" (Sql.pu_description u);
           Sql.column "address" (Sql.pu_address u);
           Sql.column "status" (Sql.pu_status u);
           Sql.column "start_date" (Sql.pu_startDate u);
           Sql.column "end_date" (Sql.pu_endDate u);
           Sql.column "budget" (Sql.pu_budget u)] in
        Sql.updateProject key u = Sql.numbered "projects" defined key /\
        match Sql.updateProject key u with
        | Sql.FindById _ => defined = []
        | Sql.Statement q =>
            Sql.placeholders (Sql.text q) = seq 1 (length (Sql.values q))
        end) /\
    (forall u : Sql.defect_updates V,
        let defined := omap id
          [Sql.column "title" (Sql.du_title u);
           Sql.column "description" (Sql.du_description u);
           Sql.column "severity" (Sql.du_severity u);
           Sql.column "status" (Sql.du_status u);
           Sql.column "assignee_id" (Sql.du_assigneeId u);
           Sql.column "location" (Sql.du_location u)] in
        Sql.updateDefect key u = Sql.numbered "defects" defined key /\
        match Sql.updateDefect key u with
        | Sql.FindById _ => defined = []
        | Sql.Statement q =>
            Sql.placeholders (Sql.text q) = seq 1 (length (Sql.values q))
        end).
Proof.
  intros V i. split.
  - intros [[t|] [d|] [a|] [s|] [sd|] [ed|] [b|]]; split; vm_compute; reflexivity.
  - intros [[t|] [d|] [sv|] [s|] [a|] [l|]]; split; vm_compute; reflexivity.
Qed.

(** X18. [ProjectRepository.findByUserId]: both statements select by the
    caller's id as parameter 1, and each is given as many values as its
    text refers to parameters, numbered from 1 in order. *)
Theorem X18_project_listing_statements :
  forall (userId : jsstring) (page limit : Users.number)
         (status : option jsstring),
    let '(countQuery, projectsQuery) :=
      Sql.findByUserId userId page limit status in
    Sql.placeholders (Sql.text countQuery)
    = seq 1 (length (Sql.values countQuery)) /\
    Sql.placeholders (Sql.text projectsQuery)
    = seq 1 (length (Sql.values projectsQuery)) /\
    Sql.values countQuery !! 0%nat = Some (Sql.Text userId) /\
    Sql.values projectsQuery !! 0%nat = Some (Sql.Text userId) /\
    Sql.values projectsQuery
    = Sql.values countQuery ++
      [Sql.Num limit; Sql.Num (Users.mul (Users.pred page) limit)].
Proof.
  intros userId page limit status. unfold Sql.findByUserId.
  destruct (Sql.given status) as [s|]; repeat split; vm_compute; reflexivity.
Qed.

(** X19. [DefectRepository.findByProjectId]: the rows statement is given
    as many values as its text refers to parameters, but the count
    statement is always given one value fewer: its text refers to the
    parameters 1 to [n + 1] and it comes with [n] values. *)
Theorem X19_defect_count_statement_is_one_value_short :
  forall (projectId : jsstring) (page limit : Users.number)
         (status severity : option jsstring),
    let '(countQuery, defectsQuery) :=
      Sql.findByProjectId projectId page limit status severity in
    Sql.placeholders (Sql.text defectsQuery)
    = seq 1 (length (Sql.values defectsQuery)) /\
    Sql.placeholders (Sql.text countQuery)
    = seq 1 (S (length (Sql.values countQuery))) /\
    Sql.values defectsQuery !! 0%nat = Some (Sql.Text projectId).
Proof.
  intros projectId page limit status severity. unfold Sql.findByProjectId.
  destruct (Sql.given status) as [s|], (Sql.given severity) as [v|];
    repeat split; vm_compute; reflexivity.
Qed.

(** ** Access to projects and defects in the orders service *)

Section RouteFacts.
Import JS JSON Http Routes.

Lemma same_true (column : option json) (s : jsstring) :
  same column s = true <-> column = Some (JStr s).
Proof.
  unfold same. destruct column as [[| | | x | |]|];
    try (split; [discriminate | intros [=]]).
  rewrite eqb_true. split; [intros ->; reflexivity | intros [=]; assumption].
Qed.

Lemma hasRole_strings (me : identity) (rs : list jsstring) (role : string) :
  roles me = Some (roles_value rs) ->
  hasRole (Some me) role = Some (existsb (JS.eqb (js role)) rs).
Proof. intros Hrs. unfold hasRole. rewrite Hrs. apply includes_strings. Qed.

Lemma orElse_some (a b : bool) : orElse (Some a) (Some b) = Some (a || b).
Proof. destruct a; reflexivity. Qed.

(** The five tests on a caller whose roles are a list of role names. *)
Lemma hasAccess_strings (project : row) (me : identity) rs :
  roles me = Some (roles_value rs) ->
  hasAccess project (Some me)
  = Some (same (project !! "user_id") (id me)
          || (existsb (JS.eqb (js "manager")) rs
              || existsb (JS.eqb (js "admin")) rs)).
Proof.
  intros Hrs. unfold hasAccess, owns.
  rewrite !(hasRole_strings me rs) by exact Hrs.
  rewrite !orElse_some. reflexivity.
Qed.

Lemma canDelete_strings (project : row) (me : identity) rs :
  roles me = Some (roles_value rs) ->
  canDelete project (Some me)
  = Some (same (project !! "user_id") (id me)
          || existsb (JS.eqb (js "admin")) rs).
Proof.
  intros Hrs. unfold canDelete, owns.
  rewrite !(hasRole_strings me rs) by exact Hrs.
  rewrite !orElse_some. reflexivity.
Qed.

Lemma hasDefectAccess_strings (project defect : row) (me : identity) rs :
  roles me = Some (roles_value rs) ->
  hasDefectAccess project defect (Some me)
  = Some (same (project !! "user_id") (id me)
          || (same (defect !! "reporter_id") (id me)
              || (same (defect !! "assignee_id") (id me)
                  || (existsb (JS.eqb (js "manager")) rs
                      || existsb (JS.eqb (js "admin")) rs)))).
Proof.
  intros Hrs. unfold hasDefectAccess, owns.
  rewrite !(hasRole_strings me rs) by exact Hrs.
  rewrite !orElse_some. reflexivity.
Qed.

Lemma canUpdateDefect_strings (project defect : row) (me : identity) rs :
  roles me = Some (roles_value rs) ->
  canUpdateDefect project defect (Some me)
  = Some (same (defect !! "reporter_id") (id me)
          || (same (defect !! "assignee_id") (id me)
              || (same (project !! "user_id") (id me)
                  || (existsb (JS.eqb (js "manager")) rs
                      || existsb (JS.eqb (js "admin")) rs)))).
Proof.
  intros Hrs. unfold canUpdateDefect, owns.
  rewrite !(hasRole_strings me rs) by exact Hrs.
  rewrite !orElse_some. reflexivity.
Qed.

Lemma canDeleteDefect_strings (project : row) (me : identity) rs :
  roles me = Some (roles_value rs) ->
  canDeleteDefect project (Some me)
  = Some (same (project !! "user_id") (id me)
          || (existsb (JS.eqb (js "manager")) rs
              || existsb (JS.eqb (js "admin")) rs)).
Proof.
  intros Hrs. unfold canDeleteDefect, owns.
  rewrite !(hasRole_strings me rs) by exact Hrs.
  rewrite !orElse_some. reflexivity.
Qed.

(** The lookups of a defect route that finds both rows. *)
Lemma defectAndProject_found {V : Type} (repo : repositories V) failed key
    project defect :
  findDefect repo key = Fulfilled (Some defect) ->
  findProject repo (defect !! "project_id") = Fulfilled (Some project) ->
  defectAndProject repo failed key = inr (project, defect).
Proof. intros Hd Hp. unfold defectAndProject. rewrite Hd, Hp. reflexivity. Qed.

Lemma defectAndProject_inr {V : Type} (repo : repositories V) failed key
    project defect :
  defectAndProject repo failed key = inr (project, defect) ->
  findDefect repo key = Fulfilled (Some defect) /\
  findProject repo (defect !! "project_id") = Fulfilled (Some project).
Proof.
  unfold defectAndProject.
  destruct (findDefect repo key) as [[d|]|]; try discriminate.
  destruct (findProject repo (d !! "project_id")) as [[p|]|] eqn:Hp;
    try discriminate.
  intros [= <- <-]. auto.
Qed.

End RouteFacts.

(** Booleans of the access tests as propositions. *)
Ltac access_props :=
  repeat match goal with
    | H : (_ || _)%bool = true |- _ =>
        apply orb_true_iff in H; destruct H as [H|H]
    | H : (_ || _)%bool = false |- _ =>
        apply orb_false_iff in H; destruct H
    | H : Routes.same _ _ = true |- _ => apply same_true in H
    | H : existsb (JS.eqb _) _ = true |- _ => apply existsb_elem in H
    | H : Routes.same ?c ?s = false |- _ =>
        assert (c <> Some (JSON.JStr s))
          by (intros Heq; apply same_true in Heq; congruence);
        clear H
    | H : existsb (JS.eqb ?r) ?rs = false |- _ =>
        assert (r ∉ rs)
          by (intros Hin; apply existsb_elem in Hin; congruence);
        clear H
    end.

(** X20. Who may read, update and delete a project. For a caller whose
    roles are a list of role names and a project the repository finds:
    the project is read, and a valid update is passed to the repository,
    exactly when the caller's id is the project's [user_id] or the roles
    hold manager or admin; the project is deleted exactly when the
    caller's id is its [user_id] or the roles hold admin. Everybody else
    gets a 403 and nothing is written. *)
Theorem X20_project_access :
  forall (V : Type) (repo : Routes.repositories V) (key : jsstring)
         (req : Http.request) (me : Http.identity) (rs : list jsstring)
         (project : Routes.row) (value : Sql.project_updates V),
    Http.user req = Some me ->
    Http.roles me = Some (Http.roles_value rs) ->
    Routes.findProject repo (Some (JSON.JStr key))
    = Routes.Fulfilled (Some project) ->
    let owner := project !! "user_id" = Some (JSON.JStr (Http.id me)) in
    let manager := JS.js "manager" ∈ rs in
    let admin := JS.js "admin" ∈ rs in
    (owner \/ manager \/ admin ->
     Routes.getProject repo key req
     = Http.Response 200 (Http.Success (Routes.Row (Some project))) /\
     fst (Routes.putProject repo key (Accounts.Valid value) req)
     = [Routes.UpdateProject key value]) /\
    (~ (owner \/ manager \/ admin) ->
     Http.status (Routes.getProject repo key req) = 403 /\
     Routes.putProject repo key (Accounts.Valid value) req
     = ([], Http.reject 403 "FORBIDDEN" "Нет прав на обновление проекта")) /\
    (owner \/ admin ->
     fst (Routes.removeProject repo key req) = [Routes.DeleteProject key]) /\
    (~ (owner \/ admin) ->
     Routes.removeProject repo key req
     = ([], Http.reject 403 "FORBIDDEN" "Нет прав на удаление проекта")).
Proof.
  intros V repo key req me rs project value Hme Hrs Hfound owner manager admin.
  unfold Routes.getProject, Routes.putProject, Routes.removeProject.
  rewrite Hfound, Hme.
  rewrite (hasAccess_strings project me rs Hrs).
  rewrite (canDelete_strings project me rs Hrs).
  subst owner manager admin.
  split; [|split; [|split]].
  - intros Hyes.
    destruct (_ || (_ || _))%bool eqn:Hb; [|access_props; tauto].
    split; [reflexivity|].
    destruct (Routes.updateProject repo key value); reflexivity.
  - intros Hno.
    destruct (_ || (_ || _))%bool eqn:Hb; [access_props; tauto|].
    split; reflexivity.
  - intros Hyes.
    destruct (Routes.same _ _ || existsb (JS.eqb (JS.js "admin")) rs)%bool
      eqn:Hb; [|access_props; tauto].
    destruct (Routes.deleteProject repo key); reflexivity.
  - intros Hno.
    destruct (Routes.same _ _ || existsb (JS.eqb (JS.js "admin")) rs)%bool
      eqn:Hb; [access_props; tauto|].
    reflexivity.
Qed.

(** A manager who does not own the project reads and updates it, and is
    refused its deletion. *)
Lemma X20_manager_cannot_delete :
  let project : Routes.row := {[ "user_id" := JSON.JStr (JS.js "u1") ]} in
  let repo : Routes.repositories jsstring :=
    {| Routes.findProject := fun _ => Routes.Fulfilled (Some project);
       Routes.updateProject := fun _ _ => Routes.Fulfilled (Some project);
       Routes.deleteProject := fun _ => Routes.Fulfilled None;
       Routes.findDefect := fun _ => Routes.Fulfilled None;
       Routes.updateDefect := fun _ _ => Routes.Fulfilled None;
       Routes.deleteDefect := fun _ => Routes.Fulfilled None |} in
  let me := Http.mkIdentity (JS.js "u2") (JS.js "m@b.com")
              (Some (Http.roles_value [JS.js "manager"])) in
  let req := Http.mkRequest (JS.js "/api/v1/orders/projects/p1") ∅ ∅ (Some me) in
  let value := Sql.ProjectUpdates (Some (JS.js "New title")) None None None
                 None None None in
  Routes.getProject repo (JS.js "p1") req
  = Http.Response 200 (Http.Success (Routes.Row (Some project))) /\
  fst (Routes.putProject repo (JS.js "p1") (Accounts.Valid value) req)
  = [Routes.UpdateProject (JS.js "p1") value] /\
  Routes.removeProject repo (JS.js "p1") req
  = ([], Http.reject 403 "FORBIDDEN" "Нет прав на удаление проекта").
Proof.
  intros project repo me req value.
  destruct (X20_project_access jsstring repo (JS.js "p1") req me
              [JS.js "manager"] project value eq_refl eq_refl eq_refl)
    as (Hyes & _ & _ & Hno).
  destruct (Hyes (or_intror (or_introl (list_elem_of_here _ _)))) as [Hget Hput].
  split; [exact Hget|]. split; [exact Hput|].
  apply Hno. intros [Howner | Hadmin].
  - vm_compute in Howner. discriminate Howner.
  - apply existsb_elem in Hadmin. vm_compute in Hadmin. discriminate Hadmin.
Defined.

(** X21. Who may read, update and delete a defect. For a caller whose
    roles are a list of role names, and a defect and its project that the
    repositories find: the defect is read, and a valid update is passed to
    the repository, exactly when the caller's id is the project's
    [user_id], the defect's [reporter_id] or its [assignee_id], or the
    roles hold manager or admin; the defect is deleted exactly when the
    caller's id is the project's [user_id] or the roles hold manager or
    admin. So its reporter may change a defect and may not delete it. *)
Theorem X21_defect_access :
  forall (V : Type) (repo : Routes.repositories V) (key : jsstring)
         (req : Http.request) (me : Http.identity) (rs : list jsstring)
         (project defect : Routes.row) (value : Sql.defect_updates V),
    Http.user req = Some me ->
    Http.roles me = Some (Http.roles_value rs) ->
    Routes.findDefect repo key = Routes.Fulfilled (Some defect) ->
    Routes.findProject repo (defect !! "project_id")
    = Routes.Fulfilled (Some project) ->
    let owner := project !! "user_id" = Some (JSON.JStr (Http.id me)) in
    let reporter := defect !! "reporter_id" = Some (JSON.JStr (Http.id me)) in
    let assignee := defect !! "assignee_id" = Some (JSON.JStr (Http.id me)) in
    let manager := JS.js "manager" ∈ rs in
    let admin := JS.js "admin" ∈ rs in
    (owner \/ reporter \/ assignee \/ manager \/ admin ->
     Routes.getDefect repo key req
     = Http.Response 200 (Http.Success (Routes.Row (Some defect))) /\
     fst (Routes.putDefect repo key (Accounts.Valid value) req)
     = [Routes.UpdateDefect key value]) /\
    (~ (owner \/ reporter \/ assignee \/ manager \/ admin) ->
     Http.status (Routes.getDefect repo key req) = 403 /\
     Routes.putDefect repo key (Accounts.Valid value) req
     = ([], Http.reject 403 "FORBIDDEN" "Нет прав на обновление дефекта")) /\
    (owner \/ manager \/ admin ->
     fst (Routes.removeDefect repo key req) = [Routes.DeleteDefect key]) /\
    (~ (owner \/ manager \/ admin) ->
     Routes.removeDefect repo key req
     = ([], Http.reject 403 "FORBIDDEN" "Нет прав на удаление дефекта")).
Proof.
  intros V repo key req me rs project defect value Hme Hrs Hdefect Hproject
    owner reporter assignee manager admin.
  unfold Routes.getDefect, Routes.putDefect, Routes.removeDefect.
  rewrite !(defectAndProject_found repo _ key project defect Hdefect Hproject).
  rewrite Hme.
  rewrite (hasDefectAccess_strings project defect me rs Hrs).
  rewrite (canUpdateDefect_strings project defect me rs Hrs).
  rewrite (canDeleteDefect_strings project me rs Hrs).
  subst owner reporter assignee manager admin.
  split; [|split; [|split]].
  - intros Hyes. split.
    + destruct (_ || (_ || _))%bool eqn:Hb; [reflexivity|].
      access_props; tauto.
    + destruct (Routes.same (defect !! "reporter_id") _ || _)%bool eqn:Hb;
        [|access_props; tauto].
      destruct (Routes.updateDefect repo key value); reflexivity.
  - intros Hno. split.
    + destruct (_ || (_ || _))%bool eqn:Hb; [access_props; tauto|].
      reflexivity.
    + destruct (Routes.same (defect !! "reporter_id") _ || _)%bool eqn:Hb;
        [access_props; tauto|].
      reflexivity.
  - intros Hyes.
    destruct (_ || (_ || _))%bool eqn:Hb; [|access_props; tauto].
    destruct (Routes.deleteDefect repo key); reflexivity.
  - intros Hno.
    destruct (_ || (_ || _))%bool eqn:Hb; [access_props; tauto|].
    reflexivity.
Qed.

(** The engineer who reported a defect changes it and is refused its
    deletion. *)
Lemma X21_reporter_cannot_delete :
  let project : Routes.row := {[ "user_id" := JSON.JStr (JS.js "u1") ]} in
  let defect : Routes.row :=
    {[ "project_id" := JSON.JStr (JS.js "p1");
       "reporter_id" := JSON.JStr (JS.js "u2");
       "assignee_id" := JSON.JNull ]} in
  let repo : Routes.repositories jsstring :=
    {| Routes.findProject := fun _ => Routes.Fulfilled (Some project);
       Routes.updateProject := fun _ _ => Routes.Fulfilled None;
       Routes.deleteProject := fun _ => Routes.Fulfilled None;
       Routes.findDefect := fun _ => Routes.Fulfilled (Some defect);
       Routes.updateDefect := fun _ _ => Routes.Fulfilled (Some defect);
       Routes.deleteDefect := fun _ => Routes.Fulfilled None |} in
  let me := Http.mkIdentity (JS.js "u2") (JS.js "e@b.com")
              (Some (Http.roles_value [JS.js "engineer"])) in
  let req := Http.mkRequest (JS.js "/api/v1/orders/defects/d1") ∅ ∅ (Some me) in
  let value := Sql.DefectUpdates None None None (Some (JS.js "resolved"))
                 None None in
  fst (Routes.putDefect repo (JS.js "d1") (Accounts.Valid value) req)
  = [Routes.UpdateDefect (JS.js "d1") value] /\
  Routes.removeDefect repo (JS.js "d1") req
  = ([], Http.reject 403 "FORBIDDEN" "Нет прав на удаление дефекта").
Proof.
  intros project defect repo me req value.
  destruct (X21_defect_access jsstring repo (JS.js "d1") req me
              [JS.js "engineer"] project defect value
              eq_refl eq_refl eq_refl eq_refl)
    as (Hyes & _ & _ & Hno).
  split.
  - apply Hyes. right. left. reflexivity.
  - apply Hno. intros [Howner | [Hmanager | Hadmin]].
    + vm_compute in Howner. discriminate Howner.
    + apply existsb_elem in Hmanager. vm_compute in Hmanager.
      discriminate Hmanager.
    + apply existsb_elem in Hadmin. vm_compute in Hadmin. discriminate Hadmin.
Defined.

(** X22. No write without a passed check. Whatever the repositories
    answer and whoever calls, each of the four writing routes calls the
    repository at most once, for the id of the request, and only after
    the rows were found and the route's access test gave true; the two
    updates only with a body that passed validation. *)
Theorem X22_writes_are_authorised :
  forall (V : Type) (repo : Routes.repositories V) (key : jsstring)
         (req : Http.request),
    (forall v,
        fst (Routes.putProject repo key v req) = [] \/
        exists project value,
          fst (Routes.putProject repo key v req)
          = [Routes.UpdateProject key value] /\
          v = Accounts.Valid value /\
          Routes.findProject repo (Some (JSON.JStr key))
          = Routes.Fulfilled (Some project) /\
          Routes.hasAccess project (Http.user req) = Some true) /\
    (fst (Routes.removeProject repo key req) = [] \/
     exists project,
       fst (Routes.removeProject repo key req) = [Routes.DeleteProject key] /\
       Routes.findProject repo (Some (JSON.JStr key))
       = Routes.Fulfilled (Some project) /\
       Routes.canDelete project (Http.user req) = Some true) /\
    (forall v,
        fst (Routes.putDefect repo key v req) = [] \/
        exists project defect value,
          fst (Routes.putDefect repo key v req)
          = [Routes.UpdateDefect key value] /\
          v = Accounts.Valid value /\
          Routes.findDefect repo key = Routes.Fulfilled (Some defect) /\
          Routes.findProject repo (defect !! "project_id")
          = Routes.Fulfilled (Some project) /\
          Routes.canUpdateDefect project defect (Http.user req) = Some true) /\
    (fst (Routes.removeDefect repo key req) = [] \/
     exists project defect,
       fst (Routes.removeDefect repo key req) = [Routes.DeleteDefect key] /\
       Routes.findDefect repo key = Routes.Fulfilled (Some defect) /\
       Routes.findProject repo (defect !! "project_id")
       = Routes.Fulfilled (Some project) /\
       Routes.canDeleteDefect project (Http.user req) = Some true).
Proof.
  intros V repo key req. split; [|split; [|split]].
  - intros v. unfold Routes.putProject.
    destruct (Routes.findProject repo _) as [[project|]|] eqn:Hp; auto.
    destruct (Routes.hasAccess project _) as [[|]|] eqn:Ha; auto.
    destruct v as [message|value]; auto.
    right. exists project, value.
    destruct (Routes.updateProject repo key value); auto.
  - unfold Routes.removeProject.
    destruct (Routes.findProject repo _) as [[project|]|] eqn:Hp; auto.
    destruct (Routes.canDelete project _) as [[|]|] eqn:Ha; auto.
    right. exists project.
    destruct (Routes.deleteProject repo key); auto.
  - intros v. unfold Routes.putDefect.
    destruct v as [message|value]; auto.
    destruct (Routes.defectAndProject repo _ key) as [res|[project defect]]
      eqn:Hl; auto.
    apply defectAndProject_inr in Hl as [Hd Hp].
    destruct (Routes.canUpdateDefect project defect _) as [[|]|] eqn:Ha; auto.
    right. exists project, defect, value.
    destruct (Routes.updateDefect repo key value); auto 6.
  - unfold Routes.removeDefect.
    destruct (Routes.defectAndProject repo _ key) as [res|[project defect]]
      eqn:Hl; auto.
    apply defectAndProject_inr in Hl as [Hd Hp].
    destruct (Routes.canDeleteDefect project _) as [[|]|] eqn:Ha; auto.
    right. exists project, defect.
    destruct (Routes.deleteDefect repo key); auto.
Qed.

Section DegradedCallers.
Import JS JSON Http Routes.
Context {V : Type}.
Variable repo : repositories V.
Variable verify : verifier.

(** The identity of a request with the gateway's headers. *)
Lemma route_headers {A : Type} (handler : request -> A) (req : request)
    uid r v :
  headers req !! "x-user-id" = Some uid -> uid <> [] ->
  headers req !! "x-user-roles" = Some r -> r <> [] -> parse r = Some v ->
  route verify handler req
  = Some (handler (setUser req {| id := uid;
                                  email := Orders.emailOf (headers req);
                                  roles := Some v |})).
Proof.
  intros Hid Hne Hr Hrne Hp. unfold route, Orders.authenticateToken.
  rewrite (headersPath_some _ uid Hid Hne).
  rewrite (userFromHeaders_parsed _ uid r v Hr Hrne Hp). reflexivity.
Qed.

(** The identity of a request that presents nothing that verifies. *)
Lemma route_default {A : Type} (handler : request -> A) (req : request) :
  headers req !! "x-user-id" = None ->
  presentedToken (headers req) = None \/
  (exists token e,
     presentedToken (headers req) = Some token /\ verify token = Rejected e) ->
  route verify handler req = Some (handler (setUser req Orders.defaultUser)).
Proof.
  intros Hid Htoken. unfold route, Orders.authenticateToken.
  assert (Orders.headersPath (headers req) = None) as ->
    by (apply headersPath_none; auto).
  rewrite (tokenOrDefault_default verify req Htoken). reflexivity.
Qed.

End DegradedCallers.

(** X23. Roles that are JSON but neither a list nor a string. When the
    [x-user-roles] header parses to such a value (null, a number, an
    object), the project routes answer the project's owner as usual, and
    answer everybody else 500 DATABASE_ERROR, not 403: the TypeError of
    [roles.includes] is caught as a database error. Nothing is written. *)
Theorem X23_roles_without_includes :
  forall (V : Type) (repo : Routes.repositories V) (verify : Http.verifier)
         (key : jsstring) (req : Http.request) (uid r : jsstring)
         (v : JSON.json) (project : Routes.row),
    Http.headers req !! "x-user-id" = Some uid -> uid <> [] ->
    Http.headers req !! "x-user-roles" = Some r -> r <> [] ->
    JSON.parse r = Some v ->
    (forall role, Roles.includes v role = None) ->
    Routes.findProject repo (Some (JSON.JStr key))
    = Routes.Fulfilled (Some project) ->
    (project !! "user_id" = Some (JSON.JStr uid) ->
     Routes.route verify (Routes.getProject repo key) req
     = Some (Http.Response 200 (Http.Success (Routes.Row (Some project))))) /\
    (project !! "user_id" <> Some (JSON.JStr uid) ->
     Routes.route verify (Routes.getProject repo key) req
     = Some (Routes.databaseError "Ошибка при получении проекта") /\
     (forall body,
         Routes.route verify (Routes.putProject repo key body) req
         = Some ([], Routes.databaseError "Ошибка при обновлении проекта")) /\
     Routes.route verify (Routes.removeProject repo key) req
     = Some ([], Routes.databaseError "Ошибка при удалении проекта")).
Proof.
  intros V repo verify key req uid r v project Hid Hne Hr Hrne Hp Hv Hfound.
  assert (Routes.hasAccess project
            (Some {| Http.id := uid;
                     Http.email := Orders.emailOf (Http.headers req);
                     Http.roles := Some v |})
          = (if Routes.same (project !! "user_id") uid
             then Some true else None)) as Haccess.
  { unfold Routes.hasAccess, Routes.owns, Routes.hasRole.
    cbn [Http.id Http.roles]. rewrite !Hv.
    destruct (Routes.same _ uid); reflexivity. }
  assert (Routes.canDelete project
            (Some {| Http.id := uid;
                     Http.email := Orders.emailOf (Http.headers req);
                     Http.roles := Some v |})
          = (if Routes.same (project !! "user_id") uid
             then Some true else None)) as Hdelete.
  { unfold Routes.canDelete, Routes.owns, Routes.hasRole.
    cbn [Http.id Http.roles]. rewrite !Hv.
    destruct (Routes.same _ uid); reflexivity. }
  split.
  - intros Howner. apply same_true in Howner.
    rewrite (route_headers verify _ req uid r v Hid Hne Hr Hrne Hp).
    unfold Routes.getProject. cbn [Http.user Http.setUser].
    rewrite Hfound, Haccess, Howner. reflexivity.
  - intros Hother.
    assert (Routes.same (project !! "user_id") uid = false) as Hsame.
    { destruct (Routes.same _ uid) eqn:Hs; [|reflexivity].
      apply same_true in Hs. contradiction. }
    rewrite Hsame in Haccess, Hdelete.
    split; [|split].
    + rewrite (route_headers verify _ req uid r v Hid Hne Hr Hrne Hp).
      unfold Routes.getProject. cbn [Http.user Http.setUser].
      rewrite Hfound, Haccess. reflexivity.
    + intros body.
      rewrite (route_headers verify _ req uid r v Hid Hne Hr Hrne Hp).
      unfold Routes.putProject. cbn [Http.user Http.setUser].
      rewrite Hfound, Haccess. reflexivity.
    + rewrite (route_headers verify _ req uid r v Hid Hne Hr Hrne Hp).
      unfold Routes.removeProject. cbn [Http.user Http.setUser].
      rewrite Hfound, Hdelete. reflexivity.
Qed.

(** The roles header [null]. *)
Lemma X23_roles_header_null :
  let project : Routes.row := {[ "user_id" := JSON.JStr (JS.js "u1") ]} in
  let repo : Routes.repositories jsstring :=
    {| Routes.findProject := fun _ => Routes.Fulfilled (Some project);
       Routes.updateProject := fun _ _ => Routes.Fulfilled None;
       Routes.deleteProject := fun _ => Routes.Fulfilled None;
       Routes.findDefect := fun _ => Routes.Fulfilled None;
       Routes.updateDefect := fun _ _ => Routes.Fulfilled None;
       Routes.deleteDefect := fun _ => Routes.Fulfilled None |} in
  let verify : Http.verifier := fun _ => Http.Rejected Http.JsonWebTokenError in
  let req := Http.mkRequest (JS.js "/api/v1/orders/projects/p1")
               {[ "x-user-id" := JS.js "u2"; "x-user-roles" := JS.js "null" ]}
               ∅ None in
  Routes.route verify (Routes.getProject repo (JS.js "p1")) req
  = Some (Routes.databaseError "Ошибка при получении проекта").
Proof.
  intros project repo verify req.
  apply (X23_roles_without_includes jsstring repo verify (JS.js "p1") req
           (JS.js "u2") (JS.js "null") JSON.JNull project);
    try reflexivity; discriminate.
Defined.

(** X24. The order of the checks of the two updates. A body that fails
    validation never reaches a repository. [PUT /defects/:id] answers it
    with 400 before anything is looked up, whoever calls;
    [PUT /projects/:id] answers it with 400 only when the project exists
    and the caller may update it, and with the 404, 403 or 500 of the
    earlier checks otherwise. *)
Theorem X24_validation_order :
  forall (V : Type) (repo : Routes.repositories V) (key : jsstring)
         (req : Http.request) (message : string),
    Routes.putDefect repo key (Accounts.Invalid message) req
    = ([], Http.reject 400 "VALIDATION_ERROR" message) /\
    fst (Routes.putProject repo key (Accounts.Invalid message) req) = [] /\
    (Http.status (snd (Routes.putProject repo key (Accounts.Invalid message) req))
     = 400 <->
     exists project,
       Routes.findProject repo (Some (JSON.JStr key))
       = Routes.Fulfilled (Some project) /\
       Routes.hasAccess project (Http.user req) = Some true).
Proof.
  intros V repo key req message. split; [reflexivity|].
  unfold Routes.putProject.
  destruct (Routes.findProject repo _) as [[project|]|] eqn:Hp.
  - destruct (Routes.hasAccess project _) as [[|]|] eqn:Ha;
      (split; [reflexivity|]); cbn [snd Http.status Http.reject].
    + split; [eauto|reflexivity].
    + split; [discriminate|]. intros (p & [= <-] & Hp'). congruence.
    + split; [discriminate|]. intros (p & [= <-] & Hp'). congruence.
  - split; [reflexivity|]. split; [discriminate|].
    intros (p & [=] & _).
  - split; [reflexivity|]. split; [discriminate|].
    intros (p & [=] & _).
Qed.

(** X25. A caller who presents nothing. A request to the orders service
    without the [x-user-id] header and without a token that verifies is
    not refused: it acts as the placeholder engineer, so it reads and
    deletes exactly the projects whose [user_id] is the placeholder's id,
    and gets a 403 for the others. *)
Theorem X25_anonymous_caller_is_the_placeholder :
  forall (V : Type) (repo : Routes.repositories V) (verify : Http.verifier)
         (key : jsstring) (req : Http.request) (project : Routes.row),
    Http.headers req !! "x-user-id" = None ->
    Http.presentedToken (Http.headers req) = None \/
    (exists token e,
        Http.presentedToken (Http.headers req) = Some token /\
        verify token = Http.Rejected e) ->
    Routes.findProject repo (Some (JSON.JStr key))
    = Routes.Fulfilled (Some project) ->
    let placeholder :=
      Some (JSON.JStr (JS.js "a4841802-6006-42ec-9074-65fdf2138880")) in
    (project !! "user_id" = placeholder ->
     Routes.route verify (Routes.getProject repo key) req
     = Some (Http.Response 200 (Http.Success (Routes.Row (Some project)))) /\
     fst <$> Routes.route verify (Routes.removeProject repo key) req
     = Some [Routes.DeleteProject key]) /\
    (project !! "user_id" <> placeholder ->
     Routes.route verify (Routes.getProject repo key) req
     = Some (Http.reject 403 "FORBIDDEN" "Нет доступа к этому проекту") /\
     Routes.route verify (Routes.removeProject repo key) req
     = Some ([], Http.reject 403 "FORBIDDEN" "Нет прав на удаление проекта")).
Proof.
  intros V repo verify key req project Hid Htoken Hfound placeholder.
  rewrite !(route_default verify _ req Hid Htoken).
  unfold Routes.getProject, Routes.removeProject.
  cbn [Http.user Http.setUser]. rewrite Hfound.
  rewrite (hasAccess_strings project Orders.defaultUser [JS.js "engineer"] eq_refl).
  rewrite (canDelete_strings project Orders.defaultUser [JS.js "engineer"] eq_refl).
  change (existsb (JS.eqb (JS.js "manager")) [JS.js "engineer"]) with false.
  change (existsb (JS.eqb (JS.js "admin")) [JS.js "engineer"]) with false.
  rewrite !orb_false_r. subst placeholder.
  change (Http.id Orders.defaultUser)
    with (JS.js "a4841802-6006-42ec-9074-65fdf2138880").
  split.
  - intros Howner. apply same_true in Howner. rewrite Howner.
    split; [reflexivity|].
    destruct (Routes.deleteProject repo key); reflexivity.
  - intros Hother.
    destruct (Routes.same _ _) eqn:Hs; [|split; reflexivity].
    apply same_true in Hs. contradiction.
Qed.

(** A request without any header deletes the placeholder's project. *)
Lemma X25_no_headers_at_all :
  let project : Routes.row :=
    {[ "user_id" := JSON.JStr (JS.js "a4841802-6006-42ec-9074-65fdf2138880") ]} in
  let repo : Routes.repositories jsstring :=
    {| Routes.findProject := fun _ => Routes.Fulfilled (Some project);
       Routes.updateProject := fun _ _ => Routes.Fulfilled None;
       Routes.deleteProject := fun _ => Routes.Fulfilled None;
       Routes.findDefect := fun _ => Routes.Fulfilled None;
       Routes.updateDefect := fun _ _ => Routes.Fulfilled None;
       Routes.deleteDefect := fun _ => Routes.Fulfilled None |} in
  let verify : Http.verifier := fun _ => Http.Rejected Http.JsonWebTokenError in
  let req := Http.mkRequest (JS.js "/api/v1/orders/projects/p1") ∅ ∅ None in
  fst <$> Routes.route verify (Routes.removeProject repo (JS.js "p1")) req
  = Some [Routes.DeleteProject (JS.js "p1")].
Proof.
  intros project repo verify req.
  apply (X25_anonymous_caller_is_the_placeholder jsstring repo verify
           (JS.js "p1") req project eq_refl (or_introl eq_refl) eq_refl).
  reflexivity.
Defined.

(** ** The listing statements of the users repository *)

(** X26. [UserRepository.findAll]: each of the two statements is given as
    many values as its text refers to parameters, numbered from 1 in
    order; the rows statement is given the values of the count statement,
    then the limit and the offset [(page - 1) * limit]. *)
Theorem X26_user_listing_statements :
  forall (page limit : Users.number) (role : option jsstring),
    let '(countQuery, usersQuery) := UsersSql.findAll page limit role in
    Sql.placeholders (Sql.text countQuery)
    = seq 1 (length (Sql.values countQuery)) /\
    Sql.placeholders (Sql.text usersQuery)
    = seq 1 (length (Sql.values usersQuery)) /\
    Sql.values usersQuery
    = Sql.values countQuery ++
      [Sql.Num limit; Sql.Num (Users.mul (Users.pred page) limit)].
Proof.
  intros page limit role. unfold UsersSql.findAll.
  destruct (Sql.given role) as [r|]; repeat split; vm_compute; reflexivity.
Qed.

(** ** The project routes over an array *)

(** X27. With the token check of the array-backed project routes every
    bearer of a token is the same user: a project created by a request
    with one token is read by a request with any other token, and a
    request without a token creates nothing. *)
Theorem X27_every_token_is_the_same_user :
  forall (V : Type) (value : V) (freshId createdAt updatedAt : jsstring)
         (projects : list (Legacy.project V)) (creator reader : Http.request)
         (t1 t2 : jsstring),
    Http.presentedToken (Http.headers creator) = Some t1 ->
    Http.presentedToken (Http.headers reader) = Some t2 ->
    freshId ∉ Legacy.j_id <$> projects ->
    let result :=
      Legacy.postProjects (Accounts.Valid value) freshId createdAt updatedAt
        projects creator in
    exists p,
      snd result = Http.Respond (Http.Response 201 (Http.Success p)) /\
      Legacy.j_id p = freshId /\ Legacy.j_value p = value /\
      Legacy.getProject freshId (fst result) reader
      = Http.Respond (Http.Response 200 (Http.Success p)) /\
      forall anonymous v,
        Http.presentedToken (Http.headers anonymous) = None ->
        Legacy.postProjects v freshId createdAt updatedAt projects anonymous
        = (projects,
           Http.Respond
             (Http.reject 401 "TOKEN_REQUIRED" "Требуется токен авторизации")).
Proof.
  intros V value freshId createdAt updatedAt projects creator reader t1 t2
    Hc Hr Hfresh result.
  assert (forall (D : Type) req t,
             Http.presentedToken (Http.headers req) = Some t ->
             Legacy.authenticateToken (D := D) req
             = Http.Next (Http.setUser req Legacy.tokenUser)) as Hauth.
  { intros D req t. unfold Http.presentedToken, Legacy.authenticateToken.
    destruct (Http.bearerToken (Http.headers req)) as [token|]; [|discriminate].
    destruct (JS.truthy token); [reflexivity | discriminate]. }
  subst result. unfold Legacy.postProjects, Legacy.getProject.
  rewrite (Hauth _ creator t1 Hc), (Hauth _ reader t2 Hr).
  cbn [Http.user Http.setUser fst snd]. eexists.
  split; [reflexivity|]. cbn [Legacy.j_id Legacy.j_value].
  split; [reflexivity|]. split; [reflexivity|]. split.
  - rewrite (find_app_fresh Legacy.j_id) by exact Hfresh.
    cbn [List.find Legacy.j_id Legacy.j_userId].
    rewrite (proj2 (eqb_true freshId freshId) eq_refl).
    rewrite (proj2 (eqb_true _ _) eq_refl). reflexivity.
  - intros anonymous v. unfold Http.presentedToken, Legacy.authenticateToken.
    destruct (Http.bearerToken (Http.headers anonymous)) as [token|];
      [|reflexivity].
    destruct (JS.truthy token); [discriminate | reflexivity].
Qed.

(** Two different tokens. *)
Lemma X27_two_tokens :
  let creator := Http.mkRequest (JS.js "/api/v1/orders/projects")
                   {[ "authorization" := JS.js "Bearer one" ]} ∅ None in
  let reader := Http.mkRequest (JS.js "/api/v1/orders/projects/p1")
                  {[ "authorization" := JS.js "Bearer two" ]} ∅ None in
  let result :=
    Legacy.postProjects (Accounts.Valid (JS.js "body")) (JS.js "p1")
      (JS.js "t0") (JS.js "t0") [] creator in
  exists p,
    snd result = Http.Respond (Http.Response 201 (Http.Success p)) /\
    Legacy.getProject (JS.js "p1") (fst result) reader
    = Http.Respond (Http.Response 200 (Http.Success p)).
Proof.
  intros creator reader result.
  destruct (X27_every_token_is_the_same_user jsstring (JS.js "body")
              (JS.js "p1") (JS.js "t0") (JS.js "t0") [] creator reader
              (JS.js "one") (JS.js "two") eq_refl eq_refl
              (not_elem_of_nil _))
    as (p & Hpost & _ & _ & Hget & _).
  exists p. split; [exact Hpost | exact Hget].
Defined.
